(** * paperscraper: the fallback orchestration of [Scraper]

    A shallow embedding of [src/paperscraper/scraper.py]: the strategy
    registry ([register_scraper]), the per-record orchestration
    ([scrape]), the batch scheduler ([batch_scrape]) and the release of
    the sessions ([close]), followed by the properties of the
    specification that concern them. *)

From stdpp Require Import gmap strings list sorting fin_maps.
From Stdlib Require Import ZArith QArith Lia.

Open Scope string_scope.
Open Scope list_scope.
Open Scope Z_scope.

(** ** Python values, exceptions and results *)

(** The few Python objects a fetch capability is seen to return; only
    their truth value is used by the orchestrator. *)
Inductive pyval : Type :=
| PyNone
| PyBool (b : bool)
| PyInt (z : Z)
| PyStr (s : string).

Definition truthy (v : pyval) : bool :=
  match v with
  | PyNone => false
  | PyBool b => b
  | PyInt z => negb (Z.eqb z 0)
  | PyStr s => negb (String.eqb s "")
  end.

(** An exception is known by its class name.  [Exc] stands for the
    classes deriving from [Exception], the ones [except Exception]
    catches; [BaseExc] for those deriving from [BaseException] only
    ([KeyboardInterrupt], [SystemExit], [asyncio.CancelledError]). *)
Inductive pyexc : Type :=
| Exc (cls : string)
| BaseExc (cls : string).

Definition is_Exception (e : pyexc) : bool :=
  match e with
  | Exc _ => true
  | BaseExc _ => false
  end.

Definition AttributeError : pyexc := Exc "AttributeError".
Definition IndexError : pyexc := Exc "IndexError".
Definition ValueError : pyexc := Exc "ValueError".
Definition ZeroDivisionError : pyexc := Exc "ZeroDivisionError".

(** The outcome of a call: a value, or an exception on its way up. *)
Inductive Res (A : Type) : Type :=
| Ret (a : A)
| Raise (e : pyexc).
Arguments Ret {A} a.
Arguments Raise {A} e.

(** ** Strings *)

(** [str.replace(old, new)]: every occurrence of [old], scanning from the
    left and without overlap, is replaced by [new]. *)
Fixpoint replace_from (old new : string) (skip : nat) (s : string) : string :=
  match s with
  | EmptyString => EmptyString
  | String c s' =>
      match skip with
      | S k => replace_from old new k s'
      | O =>
          if String.prefix old s
          then new +:+ replace_from old new (Nat.pred (String.length old)) s'
          else String c (replace_from old new 0 s')
      end
  end.

Fixpoint replace_empty (new : string) (s : string) : string :=
  match s with
  | EmptyString => new
  | String c s' => new +:+ String c (replace_empty new s')
  end.

Definition replace (s old new : string) : string :=
  match old with
  | EmptyString => replace_empty new s
  | _ => replace_from old new 0 s
  end.

(** [str.startswith] and [str.endswith] for the path separator, and
    [os.path.join] (posix) on two components. *)
Definition startswith (s p : string) : bool := String.prefix p s.

Fixpoint endswith_sep (s : string) : bool :=
  match s with
  | EmptyString => false
  | String _ EmptyString => String.eqb s "/"
  | String _ s' => endswith_sep s'
  end.

Definition path_join (a b : string) : string :=
  if startswith b "/" then b
  else if orb (String.eqb a "") (endswith_sep a) then a +:+ b
  else a +:+ "/" +:+ b.

(** ** Data model *)

(** A record of the bibliographic API, a [dict] read at the keys
    ["paperId"] and ["title"]; both are present, as a record must carry
    an identifier and a title. *)
Record Paper : Type := {
  paperId : string;
  title : string
}.

(** A value of [scrape_result]: the strings ["none"], ["success"] and
    ["failed"] that [scrape] writes, and any other string, which only a
    reporter can have written. *)
Inductive status : Type :=
| none
| success
| failed
| other (v : string).

#[global] Instance status_eq_dec : EqDecision status.
Proof. solve_decision. Defined.

Section Scraper.

(** The world the awaited calls act on (network, file system, ...), the
    session handle of [utils.ThrottledClientSession] and its
    constructor applied to [get_header()], and [utils.check_pdf]. *)
Variable W : Type.
Variable Session : Type.
Variable ThrottledClientSession : option Q -> Session.
Variable utils_check_pdf : string -> bool -> W -> W * Res pyval.

(** A callable: its [__name__] (absent on e.g. [functools.partial]
    objects) and what awaiting a call of it does. *)
Record PyFunc : Type := {
  fn_name : option string;
  fn_call : Paper -> string -> list (string * Session) -> W -> W * Res pyval
}.

Record ScraperFunction : Type := {
  function : PyFunc;
  priority : Z;
  kwargs : list (string * Session);
  name : string;
  check_pdf : bool
}.

(** The reporter: awaited on the title and [scrape_result].  It is
    handed the [dict] itself, not a copy: it may read it and write to
    it, as it may act on the world, and it may raise.  A call is given
    the title, the content of the [dict] and the world, and leaves a
    world, the content of the [dict] and how it ended.  (The reporter is
    taken to write to the [dict] only while it is awaited.) *)
Definition Callback : Type :=
  string -> gmap string status -> W -> W * gmap string status * Res unit.

Record Scraper : Type := {
  scrapers : list ScraperFunction;
  sorted_scrapers : list (list ScraperFunction);
  callback : option Callback
}.

(** [Scraper.__init__] *)
Definition Scraper_init (callback : option Callback) : Scraper :=
  {| scrapers := []; sorted_scrapers := []; callback := callback |}.

(** ** Registration *)

(** [list.sort(key=lambda x: x.priority, reverse=True)]: a stable sort,
    entries of equal priority keep their order. *)
Fixpoint insert_by_priority (x : ScraperFunction) (l : list ScraperFunction)
  : list ScraperFunction :=
  match l with
  | [] => [x]
  | y :: l' =>
      if Z.ltb (priority x) (priority y)
      then y :: insert_by_priority x l'
      else x :: l
  end.

Definition sort_by_priority (l : list ScraperFunction) : list ScraperFunction :=
  foldr insert_by_priority [] l.

(** [sorted({s.priority for s in self.scrapers})] *)
Definition sorted_priorities (l : list ScraperFunction) : list Z :=
  merge_sort Z.le (elements (list_to_set (priority <$> l) : gset Z)).

(** [[s for s in self.scrapers if s.priority == priority]] *)
Definition tier_of (l : list ScraperFunction) (p : Z) : list ScraperFunction :=
  filter (fun s => priority s = p) l.

Definition tiers_of (l : list ScraperFunction) : list (list ScraperFunction) :=
  tier_of l <$> sorted_priorities l.

Definition register_scraper (self : Scraper) (func : PyFunc)
    (attach_session : bool) (priority : Z) (name : option string)
    (check : bool) (rate_limit : option Q) : Res Scraper :=
  let name' :=
    match name with
    | Some n => Ret n
    | None =>
        match fn_name func with
        | Some f => Ret (replace f "_scraper" "")
        | None => Raise AttributeError
        end
    end in
  match name' with
  | Raise e => Raise e
  | Ret n =>
      let kwargs :=
        if attach_session
        then [("session", ThrottledClientSession rate_limit)]
        else [] in
      let appended :=
        scrapers self ++ [ {| function := func; priority := priority;
                              kwargs := kwargs; name := n;
                              check_pdf := check |} ] in
      let sorted := sort_by_priority appended in
      Ret {| scrapers := sorted;
             sorted_scrapers := tiers_of sorted;
             callback := callback self |}
  end.

(** A call of [register_scraper] as written by a caller: every keyword
    argument may be left out and then takes the default of the
    signature. *)
Record RegisterCall : Type := {
  rc_func : PyFunc;
  rc_attach_session : option bool;
  rc_priority : option Z;
  rc_name : option string;
  rc_check : option bool;
  rc_rate_limit : option (option Q)
}.

Definition call_register (self : Scraper) (c : RegisterCall) : Res Scraper :=
  register_scraper self (rc_func c)
    (default false (rc_attach_session c))
    (default 10 (rc_priority c))
    (rc_name c)
    (default true (rc_check c))
    (default (Some (15 # 60)%Q) (rc_rate_limit c)).

(** A sequence of registrations on one registry; a call that raises
    leaves the registry as it was. *)
Definition register_all (self : Scraper) (calls : list RegisterCall) : Scraper :=
  foldl (fun s c => match call_register s c with
                    | Ret s' => s'
                    | Raise _ => s
                    end) self calls.

(** ** Orchestration of one record *)

(** What the orchestration does that an observer can see, in order: the
    awaited fetch of a strategy, the call of [check_pdf], the two log
    records, and the awaited reporter with the content [m] of the map
    it is handed and the content [m'] it leaves; each with how the call
    ended. *)
Inductive Event : Type :=
| EvFetch (s : ScraperFunction) (r : Res pyval)
| EvCheckPdf (path : string) (verbose : bool) (r : Res pyval)
| EvDebug (msg : string)
| EvException (msg : string)
| EvCallback (title : string) (m m' : gmap string status) (r : Res unit).

(** The state of a running [scrape]: the world, the local
    [scrape_result] and the events so far. *)
Record St : Type := {
  world : W;
  scrape_result : gmap string status;
  trace : list Event
}.

(** How a block of statements ends: it falls through, it returns from
    the function, or an exception leaves it. *)
Inductive Flow : Type :=
| Continue
| Return (b : bool)
| Throw (e : pyexc).

Definition emit (ev : Event) (st : St) : St :=
  {| world := world st; scrape_result := scrape_result st;
     trace := trace st ++ [ev] |}.

Definition set_world (w : W) (st : St) : St :=
  {| world := w; scrape_result := scrape_result st; trace := trace st |}.

(** The content of [scrape_result] after a call that was handed it. *)
Definition set_result (m : gmap string status) (st : St) : St :=
  {| world := world st; scrape_result := m; trace := trace st |}.

(** [scrape_result[name] = v] *)
Definition mark (n : string) (v : status) (st : St) : St :=
  {| world := world st; scrape_result := <[n := v]> (scrape_result st);
     trace := trace st |}.

(** [if logger is not None: logger.<level>(msg)]; the logger itself
    does not raise. *)
Definition log (logger : bool) (ev : Event) (st : St) : St :=
  if logger then emit ev st else st.

Definition tab : string := String (Ascii.ascii_of_nat 9) EmptyString.

Definition debug_msg (paper : Paper) (scraper : ScraperFunction) : string :=
  tab +:+ "succeeded - key: " +:+ paperId paper +:+ " scraper: " +:+ name scraper.

Definition exception_msg (scraper : ScraperFunction) : string :=
  tab +:+ "Scraper " +:+ name scraper +:+ " failed.".

(** [await self.callback(paper["title"], scrape_result)] *)
Definition await_callback (cb : Callback) (paper : Paper) (st : St) : St * Res unit :=
  let '(w, m', r) := cb (title paper) (scrape_result st) (world st) in
  (emit (EvCallback (title paper) (scrape_result st) m' r)
     (set_result m' (set_world w st)), r).

(** [not scraper.check_pdf or check_pdf(path, logger or False)] *)
Definition validated (scraper : ScraperFunction) (path : string)
    (logger : bool) (st : St) : St * Res bool :=
  if negb (check_pdf scraper) then (st, Ret true)
  else
    let '(w, r) := utils_check_pdf path logger (world st) in
    (emit (EvCheckPdf path logger r) (set_world w st),
     match r with
     | Ret v => Ret (truthy v)
     | Raise e => Raise e
     end).

(** The body of the [try] statement, lines 83 to 94. *)
Definition try_body (self : Scraper) (scraper : ScraperFunction)
    (paper : Paper) (path : string) (logger : bool) (st : St) : St * Flow :=
  let '(w1, r) := fn_call (function scraper) paper path (kwargs scraper) (world st) in
  let st1 := emit (EvFetch scraper r) (set_world w1 st) in
  match r with
  | Raise e => (st1, Throw e)
  | Ret result =>
      if negb (truthy result) then (st1, Continue)
      else
        match validated scraper path logger st1 with
        | (st2, Raise e) => (st2, Throw e)
        | (st2, Ret false) => (st2, Continue)
        | (st2, Ret true) =>
            let st3 :=
              log logger (EvDebug (debug_msg paper scraper))
                (mark (name scraper) success st2) in
            match callback self with
            | None => (st3, Return true)
            | Some cb =>
                match await_callback cb paper st3 with
                | (st4, Ret _) => (st4, Return true)
                | (st4, Raise e) => (st4, Throw e)
                end
            end
        end
  end.

(** One strategy: the [try] statement with its [except Exception]
    handler, then line 98. *)
Definition attempt (self : Scraper) (scraper : ScraperFunction)
    (paper : Paper) (path : string) (logger : bool) (st : St) : St * Flow :=
  match try_body self scraper paper path logger st with
  | (st', Return b) => (st', Return b)
  | (st', Continue) => (mark (name scraper) failed st', Continue)
  | (st', Throw e) =>
      if is_Exception e
      then (mark (name scraper) failed
              (log logger (EvException (exception_msg scraper)) st'),
            Continue)
      else (st', Throw e)
  end.

(** [scrapers[(i + j) % len(scrapers)]] *)
Definition subscript (scrapers : list ScraperFunction) (i : Z) (j : nat)
  : Res ScraperFunction :=
  let n := Z.of_nat (length scrapers) in
  if Z.eqb n 0 then Raise ZeroDivisionError
  else
    match scrapers !! Z.to_nat ((i + Z.of_nat j) mod n) with
    | Some s => Ret s
    | None => Raise IndexError
    end.

(** [for j in range(len(scrapers)): ...], on the values of [j] left. *)
Fixpoint tier_loop (self : Scraper) (scrapers : list ScraperFunction)
    (paper : Paper) (path : string) (i : Z) (logger : bool)
    (js : list nat) (st : St) : St * Flow :=
  match js with
  | [] => (st, Continue)
  | j :: js' =>
      match subscript scrapers i j with
      | Raise e => (st, Throw e)
      | Ret scraper =>
          match attempt self scraper paper path logger st with
          | (st', Continue) => tier_loop self scrapers paper path i logger js' st'
          | out => out
          end
      end
  end.

(** [for scrapers in self.sorted_scrapers[::-1]: ...], on the tiers
    left, with the reporter awaited after each tier (lines 99, 100). *)
Fixpoint tiers_loop (self : Scraper) (paper : Paper) (path : string)
    (i : Z) (logger : bool) (tiers : list (list ScraperFunction))
    (st : St) : St * Flow :=
  match tiers with
  | [] => (st, Continue)
  | scrapers :: rest =>
      match tier_loop self scrapers paper path i logger
              (seq 0 (length scrapers)) st with
      | (st1, Continue) =>
          match callback self with
          | None => tiers_loop self paper path i logger rest st1
          | Some cb =>
              match await_callback cb paper st1 with
              | (st2, Ret _) => tiers_loop self paper path i logger rest st2
              | (st2, Raise e) => (st2, Throw e)
              end
          end
      | out => out
      end
  end.

(** [{s.name: "none" for s in self.scrapers}] *)
Definition initial_result (self : Scraper) : gmap string status :=
  list_to_map ((fun s => (name s, none)) <$> scrapers self).

(** [Scraper.scrape]: the final state (world, outcome map, events) and
    the value returned or the exception raised. *)
Definition scrape (self : Scraper) (paper : Paper) (path : string)
    (i : Z) (logger : bool) (w : W) : St * Res bool :=
  let st0 := {| world := w; scrape_result := initial_result self; trace := [] |} in
  match tiers_loop self paper path i logger (reverse (sorted_scrapers self)) st0 with
  | (st, Continue) => (st, Ret false)
  | (st, Return b) => (st, Ret b)
  | (st, Throw e) => (st, Raise e)
  end.

(** ** Batch scheduler *)

(** An awaitable: run on a world, it leaves a world and a result. *)
Definition Task (A : Type) : Type := W -> W * Res A.

(** What [scrape_parse] returns: [(path, parsed)] or [False]. *)
Definition Scraped : Type := option (string * Paper).

(** [asyncio.gather]: the event loop interleaves the awaitables as it
    sees fit and hands back their results in the order given, or the
    first exception. *)
Definition Gather : Type := list (Task Scraped) -> Task (list Scraped).

(** The schedule in which no awaitable suspends: they run to completion
    one after the other; the first exception, if any, is raised once
    all have run. *)
Fixpoint gather_seq (tasks : list (Task Scraped)) (w : W) : W * Res (list Scraped) :=
  match tasks with
  | [] => (w, Ret [])
  | t :: ts =>
      let '(w1, r) := t w in
      let '(w2, rs) := gather_seq ts w1 in
      (w2, match r, rs with
           | Raise e, _ => Raise e
           | Ret _, Raise e => Raise e
           | Ret a, Ret l => Ret (a :: l)
           end)
  end.

(** The parser used: the identity when [paper_parser] is [None]. *)
Definition parser_of (paper_parser : option (Paper -> Task Paper)) : Paper -> Task Paper :=
  match paper_parser with
  | None => fun paper w => (w, Ret paper)
  | Some f => f
  end.

(** The inner function [scrape_parse], lines 138 to 143. *)
Definition scrape_parse (self : Scraper) (paper_file_dump_dir : string)
    (paper_parser : option (Paper -> Task Paper)) (logger : bool)
    (paper : Paper) (i : Z) : Task Scraped :=
  fun w =>
    let path := path_join paper_file_dump_dir (paperId paper +:+ ".pdf") in
    match scrape self paper path i logger w with
    | (st, Raise e) => (world st, Raise e)
    | (st, Ret false) => (world st, Ret None)
    | (st, Ret true) =>
        match parser_of paper_parser paper (world st) with
        | (w', Ret parsed) => (w', Ret (Some (path, parsed)))
        | (w', Raise e) => (w', Raise e)
        end
    end.

(** [range(0, stop, step)] for [stop >= 0]. *)
Definition range_step (stop step : Z) : Res (list Z) :=
  if Z.eqb step 0 then Raise ValueError
  else if Z.ltb step 0 then Ret []
  else Ret ((fun k => Z.of_nat k * step) <$> seq 0 (Z.to_nat ((stop + step - 1) / step))).

(** [papers[lo:hi]] for [0 <= lo <= hi]. *)
Definition slice {A : Type} (l : list A) (lo hi : Z) : list A :=
  take (Z.to_nat (hi - lo)) (drop (Z.to_nat lo) l).

(** The arguments of the calls of [scrape_parse] of the window starting
    at [i]: [(p, i + j) for j, p in enumerate(papers[i : i + batch_size])]. *)
Definition window (papers : list Paper) (batch_size i : Z) : list (Paper * Z) :=
  imap (fun j p => (p, i + Z.of_nat j)) (slice papers i (i + batch_size)).

(** [{r[0]: r[1] for r in results if r is not False}] *)
Definition collect (results : list Scraped) : gmap string Paper :=
  foldl (fun m r => match r with
                    | Some (k, v) => <[k := v]> m
                    | None => m
                    end) ∅ results.

(** [limit is not None and len(aggregated) >= limit] *)
Definition limit_reached (limit : option Z) (aggregated : gmap string Paper) : bool :=
  match limit with
  | None => false
  | Some l => Z.leb l (Z.of_nat (size aggregated))
  end.

(** The state of a running [batch_scrape]: the world, [aggregated], and
    the windows launched so far, each as the arguments of its calls of
    [scrape_parse]. *)
Record BatchSt : Type := {
  bworld : W;
  aggregated : gmap string Paper;
  launched : list (list (Paper * Z))
}.

(** The loop of lines 146 to 158, on the window starts left. *)
Fixpoint batch_loop (gather : Gather) (self : Scraper) (papers : list Paper)
    (paper_file_dump_dir : string)
    (paper_parser : option (Paper -> Task Paper))
    (batch_size : Z) (limit : option Z) (logger : bool)
    (starts : list Z) (st : BatchSt) : BatchSt * Res unit :=
  match starts with
  | [] => (st, Ret tt)
  | i :: rest =>
      let win := window papers batch_size i in
      let tasks :=
        (fun pk => scrape_parse self paper_file_dump_dir paper_parser logger
                     (fst pk) (snd pk)) <$> win in
      match gather tasks (bworld st) with
      | (w, Raise e) =>
          ({| bworld := w; aggregated := aggregated st;
              launched := launched st ++ [win] |}, Raise e)
      | (w, Ret results) =>
          let st' := {| bworld := w;
                        aggregated := collect results ∪ aggregated st;
                        launched := launched st ++ [win] |} in
          if limit_reached limit (aggregated st')
          then (st', Ret tt)
          else batch_loop gather self papers paper_file_dump_dir paper_parser
                 batch_size limit logger rest st'
      end
  end.

(** [Scraper.batch_scrape]: the final state and [aggregated] as the
    value returned, or the exception raised. *)
Definition batch_scrape (gather : Gather) (self : Scraper) (papers : list Paper)
    (paper_file_dump_dir : string)
    (paper_parser : option (Paper -> Task Paper))
    (batch_size : Z) (limit : option Z) (logger : bool) (w : W)
  : BatchSt * Res (gmap string Paper) :=
  let st0 := {| bworld := w; aggregated := ∅; launched := [] |} in
  match range_step (Z.of_nat (length papers)) batch_size with
  | Raise e => (st0, Raise e)
  | Ret starts =>
      match batch_loop gather self papers paper_file_dump_dir paper_parser
              batch_size limit logger starts st0 with
      | (st, Ret _) => (st, Ret (aggregated st))
      | (st, Raise e) => (st, Raise e)
      end
  end.

End Scraper.

Arguments fn_name {W Session} _.
Arguments fn_call {W Session} _ _ _ _ _.
Arguments function {W Session} _.
Arguments priority {W Session} _.
Arguments kwargs {W Session} _.
Arguments name {W Session} _.
Arguments check_pdf {W Session} _.
Arguments scrapers {W Session} _.
Arguments sorted_scrapers {W Session} _.
Arguments callback {W Session} _.
Arguments Scraper_init {W Session} _.
Arguments insert_by_priority {W Session} _ _.
Arguments sort_by_priority {W Session} _.
Arguments sorted_priorities {W Session} _.
Arguments tier_of {W Session} _ _.
Arguments tiers_of {W Session} _.
Arguments register_scraper {W Session} _ _ _ _ _ _ _ _.
Arguments call_register {W Session} _ _ _.
Arguments register_all {W Session} _ _ _.
Arguments rc_func {W Session} _.
Arguments rc_attach_session {W Session} _.
Arguments rc_priority {W Session} _.
Arguments rc_name {W Session} _.
Arguments rc_check {W Session} _.
Arguments rc_rate_limit {W Session} _.
Arguments EvFetch {W Session} _ _.
Arguments EvCheckPdf {W Session} _ _ _.
Arguments EvDebug {W Session} _.
Arguments EvException {W Session} _.
Arguments EvCallback {W Session} _ _ _ _.
Arguments world {W Session} _.
Arguments scrape_result {W Session} _.
Arguments trace {W Session} _.
Arguments emit {W Session} _ _.
Arguments set_world {W Session} _ _.
Arguments set_result {W Session} _ _.
Arguments mark {W Session} _ _ _.
Arguments log {W Session} _ _ _.
Arguments debug_msg {W Session} _ _.
Arguments exception_msg {W Session} _.
Arguments await_callback {W Session} _ _ _.
Arguments validated {W Session} _ _ _ _ _.
Arguments try_body {W Session} _ _ _ _ _ _ _.
Arguments attempt {W Session} _ _ _ _ _ _ _.
Arguments subscript {W Session} _ _ _.
Arguments tier_loop {W Session} _ _ _ _ _ _ _ _ _.
Arguments tiers_loop {W Session} _ _ _ _ _ _ _ _.
Arguments initial_result {W Session} _.
Arguments scrape {W Session} _ _ _ _ _ _ _.
Arguments gather_seq {W} _ _.
Arguments parser_of {W} _ _ _.
Arguments scrape_parse {W Session} _ _ _ _ _ _ _ _.
Arguments bworld {W} _.
Arguments aggregated {W} _.
Arguments launched {W} _.
Arguments batch_loop {W Session} _ _ _ _ _ _ _ _ _ _ _.
Arguments batch_scrape {W Session} _ _ _ _ _ _ _ _ _ _.

(** ** Release of the sessions *)

Section Close.

Variable W : Type.
Variable Session : Type.

(** [ThrottledClientSession.close], awaited. *)
Variable session_close : Session -> W -> W * Res unit.

(** [kwargs.get(key)] on the keyword arguments of a strategy, a [dict]
    kept as the list of its items. *)
Fixpoint kwargs_get (key : string) (kw : list (string * Session)) : option Session :=
  match kw with
  | [] => None
  | (k, v) :: kw' => if String.eqb k key then Some v else kwargs_get key kw'
  end.

(** The loop of [Scraper.close] on the strategies left, with the
    sessions whose [close] has been awaited so far. *)
Fixpoint close_loop (l : list (ScraperFunction W Session)) (w : W)
    (awaited : list Session) : W * list Session * Res unit :=
  match l with
  | [] => (w, awaited, Ret tt)
  | scraper :: rest =>
      match kwargs_get "session" (kwargs scraper) with
      | None => close_loop rest w awaited
      | Some sess =>
          match session_close sess w with
          | (w', Ret _) => close_loop rest w' (awaited ++ [sess])
          | (w', Raise e) => (w', awaited ++ [sess], Raise e)
          end
      end
  end.

(** [Scraper.close]: the world it leaves, the sessions whose [close] it
    awaited, in order, and how it ended. *)
Definition close (self : Scraper W Session) (w : W) : W * list Session * Res unit :=
  close_loop (scrapers self) w [].

End Close.

Arguments kwargs_get {Session} _ _.
Arguments close_loop {W Session} _ _ _ _.
Arguments close {W Session} _ _ _.

(** * Vocabulary of the properties *)

Section Vocabulary.

Context {W Session : Type}.

(** The constructor of the sessions is arbitrary. *)
Variable new_session : option Q -> Session.

Implicit Types (self : Scraper W Session) (s scraper : ScraperFunction W Session).
Implicit Types (l tier : list (ScraperFunction W Session)) (st : St W Session).
Implicit Types (paper : Paper) (path : string) (i : Z) (logger : bool).

(** The execution plan is the reshaped strategy list. *)
Definition plan_in_sync self : Prop :=
  sorted_scrapers self = tiers_of (scrapers self).

(** The name a call registers under, when it has one, and the strategy
    it then adds: the defaults of the signature stand in for what the
    caller left out. *)
Definition effective_name (c : RegisterCall W Session) : option string :=
  match rc_name c with
  | Some n => Some n
  | None => (fun f => replace f "_scraper" "") <$> fn_name (rc_func c)
  end.

Definition registered (c : RegisterCall W Session) (n : string)
  : ScraperFunction W Session :=
  {| function := rc_func c;
     priority := default 10 (rc_priority c);
     kwargs := if default false (rc_attach_session c)
               then [("session",
                      new_session (default (Some (15 # 60)%Q) (rc_rate_limit c)))]
               else [];
     name := n;
     check_pdf := default true (rc_check c) |}.

(** The index read at offset [j] of a tier of size [n] under rotation
    index [i], as [subscript] computes it. *)
Definition position (n : nat) i (j : nat) : nat :=
  Z.to_nat ((i + Z.of_nat j) mod Z.of_nat n).

(** The order in which the inner loop reads a tier: the strategies at
    the positions of the offsets [0, 1, ..., len - 1]. *)
Definition tier_order tier i : list (ScraperFunction W Session) :=
  omap (fun j => tier !! position (length tier) i j) (seq 0 (length tier)).

(** The order in which [scrape] reads the whole plan. *)
Definition visit_order self i : list (ScraperFunction W Session) :=
  mjoin ((fun tier => tier_order tier i) <$> reverse (sorted_scrapers self)).

Definition not_fetch (ev : Event W Session) : Prop :=
  match ev with
  | EvFetch _ _ => False
  | _ => True
  end.

(** What follows the fetch of a strategy that succeeds: the approving
    validator when the strategy asks for it, the debug record when there
    is a logger, the reporter handed the map [m] when there is one;
    [m'] is the map as it is left, which is [m] when there is no
    reporter. *)
Definition success_tail self s paper path logger (m m' : gmap string status)
    (tail : list (Event W Session)) : Prop :=
  exists chk,
    ((check_pdf s = false /\ chk = []) \/
     (check_pdf s = true /\
      exists v', truthy v' = true /\ chk = [EvCheckPdf path logger (Ret v')])) /\
    tail = chk ++ (if logger then [EvDebug (debug_msg paper s)] else [])
               ++ match callback self with
                  | Some _ => [EvCallback (title paper) m m' (Ret tt)]
                  | None => []
                  end /\
    (callback self = None -> m' = m).

(** What keeps the fetch of a strategy from being a success: it raised,
    it returned a falsy value, the validator it asks for did not approve,
    or the reporter raised. *)
Definition blocked s path logger (r : Res pyval)
    (tail : list (Event W Session)) : Prop :=
  (exists e, r = Raise e) \/
  (exists v, r = Ret v /\ truthy v = false) \/
  (check_pdf s = true /\
   exists c, head tail = Some (EvCheckPdf path logger c) /\
             forall v', c = Ret v' -> truthy v' = false) \/
  (exists t m m' e, EvCallback t m m' (Raise e) ∈ tail).

(** How one strategy ends, by the way control leaves it: on a return,
    the reporter was handed the map with the strategy marked success. *)
Definition attempt_ok self s paper path logger st st' (fl : Flow)
    (r : Res pyval) (tail : list (Event W Session)) : Prop :=
  match fl with
  | Return b =>
      b = true /\ (exists v, r = Ret v /\ truthy v = true) /\
      success_tail self s paper path logger
        (<[name s := success]> (scrape_result st)) (scrape_result st') tail
  | Continue =>
      blocked s path logger r tail /\
      scrape_result st' !! name s = Some failed
  | Throw e => blocked s path logger r tail /\ is_Exception e = false
  end.

(** The strategies fetched and the reports made (the title and the map
    handed to the reporter), in order. *)
Definition fetched (tr : list (Event W Session)) : list (ScraperFunction W Session) :=
  omap (fun ev => match ev with EvFetch s _ => Some s | _ => None end) tr.

Definition reported (tr : list (Event W Session)) : list (string * gmap string status) :=
  omap (fun ev => match ev with EvCallback t m _ _ => Some (t, m) | _ => None end) tr.

(** An event in which the outcome map is not written from outside: a
    reporter call that leaves the map as it was handed, or any other
    event. *)
Definition reads_only (ev : Event W Session) : Prop :=
  match ev with
  | EvCallback _ m m' _ => m' = m
  | _ => True
  end.

(** The fetch of [s] returned [v] and what followed, [post], makes it a
    success: [v] is truthy, the validator, when [s] asks for it, is
    called next and approves, and no reporter call raises from then on. *)
Definition success_at s path logger (v : pyval)
    (post : list (Event W Session)) : Prop :=
  truthy v = true /\
  (check_pdf s = true ->
   exists v', head post = Some (EvCheckPdf path logger (Ret v')) /\
              truthy v' = true) /\
  (forall t m m' e, EvCallback t m m' (Raise e) ∉ post).

(** A stretch of events none of whose fetches is a success, whatever
    comes after it. *)
Definition closed path logger (evs : list (Event W Session)) : Prop :=
  forall pre s v post more,
    evs = pre ++ EvFetch s (Ret v) :: post ->
    ~ success_at s path logger v (post ++ more).

(** How a loop ends: on a return, at the fetch of a success with nothing
    but what belongs to it after, the strategy being marked success in
    the map [m] at that point; otherwise without any success. *)
Definition run_ok self paper path logger (evs : list (Event W Session))
    (fl : Flow) st' : Prop :=
  match fl with
  | Return b =>
      b = true /\
      exists evs0 s0 v0 tail m,
        evs = evs0 ++ EvFetch s0 (Ret v0) :: tail /\
        closed path logger evs0 /\
        Forall not_fetch tail /\
        success_tail self s0 paper path logger m (scrape_result st') tail /\
        m !! name s0 = Some success
  | _ => closed path logger evs
  end.

(** The fetch of [s] ended with [r] and, [post] coming after it, did
    not succeed: it raised an [Exception], or it returned a falsy value,
    or it returned a truthy value that the validator, which [s] asks for
    and which is called next, did not approve (it returned a falsy value
    or raised an [Exception]). *)
Definition failed_at s path logger (r : Res pyval)
    (post : list (Event W Session)) : Prop :=
  match r with
  | Raise e => is_Exception e = true
  | Ret v =>
      truthy v = false \/
      (check_pdf s = true /\
       exists c, head post = Some (EvCheckPdf path logger c) /\
                 match c with
                 | Ret v' => truthy v' = false
                 | Raise e => is_Exception e = true
                 end)
  end.

(** Every fetch among the events failed. *)
Definition all_fail path logger (evs : list (Event W Session)) : Prop :=
  forall pre s r post,
    evs = pre ++ EvFetch s r :: post -> failed_at s path logger r post.

(** Every reporter call among the events returned. *)
Definition reports_return (evs : list (Event W Session)) : Prop :=
  forall t m m' e, EvCallback t m m' (Raise e) ∉ evs.

(** [scrape_result[s.name] = "failed"] for the strategies of [l] in turn. *)
Definition mark_all (m : gmap string status) l : gmap string status :=
  foldl (fun m s => <[name s := failed]> m) m l.

(** What the reporter is handed at the end of a tier that failed. *)
Definition tier_report paper tier (rep : string * gmap string status) : Prop :=
  rep.1 = title paper /\ forall s, s ∈ tier -> rep.2 !! name s = Some failed.

(** [enumerate(papers)]: every record with its position in the input. *)
Definition enumerate (papers : list Paper) : list (Paper * Z) :=
  imap (fun j p => (p, Z.of_nat j)) papers.

(** What is relied on of [asyncio.gather]: when it returns, it returns
    one result per awaitable. *)
Definition gather_returns_all (gather : Gather W) : Prop :=
  forall tasks (w0 w1 : W) rs,
    gather tasks w0 = (w1, Ret rs) -> length rs = length tasks.

End Vocabulary.

(** * Vocabulary of further properties *)

Section MoreVocabulary.

Context {W Session : Type}.

Variable new_session : option Q -> Session.
Variable checker : string -> bool -> W -> W * Res pyval.

Implicit Types (self : Scraper W Session) (s scraper : ScraperFunction W Session).
Implicit Types (l tier : list (ScraperFunction W Session)) (st : St W Session).
Implicit Types (paper : Paper) (path : string) (i : Z) (logger : bool).

(** Of two strategies, the first does not have the lower priority. *)
Definition not_below s1 s2 : Prop := priority s2 <= priority s1.

(** The strategy a call registers, when it registers one. *)
Definition registration (c : RegisterCall W Session)
  : option (ScraperFunction W Session) :=
  registered new_session c <$> effective_name c.

(** The session bound to a strategy, when it has one. *)
Definition session_of s : option Session := kwargs_get "session" (kwargs s).

(** The names the outcome map of a registry is keyed by. *)
Definition names_of self : gset string := list_to_set (name <$> scrapers self).

(** The log records among the events. *)
Definition is_log (ev : Event W Session) : Prop :=
  match ev with
  | EvDebug _ | EvException _ => True
  | _ => False
  end.

(** The events that are neither a fetch nor a validation. *)
Definition plain (ev : Event W Session) : Prop :=
  match ev with
  | EvFetch _ _ | EvCheckPdf _ _ _ => False
  | _ => True
  end.

(** The exception an awaited call ended with, when it raised. *)
Definition raised (ev : Event W Session) : option pyexc :=
  match ev with
  | EvFetch _ (Raise e) | EvCheckPdf _ _ (Raise e) | EvCallback _ _ _ (Raise e) =>
      Some e
  | _ => None
  end.

(** What one strategy adds to the events after its fetch ended with [r]:
    first the validation [chk], present only after a truthy result of a
    strategy that asks for it, then [rest], which holds no fetch and no
    validation, reports at most the map with the strategy marked
    success, only to a reporter, and logs only to a logger; and how the
    outcome map [m'] stands afterwards, by the way control leaves: as
    [scrape] wrote it, when the reporter did not write to it. *)
Definition attempt_effect self s paper path logger (m m' : gmap string status)
    (fl : Flow) (r : Res pyval) (chk rest : list (Event W Session)) : Prop :=
  (chk = [] \/
   exists v c, r = Ret v /\ truthy v = true /\ check_pdf s = true /\
               chk = [EvCheckPdf path logger c]) /\
  Forall plain rest /\
  (reported rest = [] \/
   (is_Some (callback self) /\
    reported rest = [(title paper, <[name s := success]> m)])) /\
  (logger = false -> Forall (fun ev => ~ is_log ev) rest) /\
  (Forall reads_only rest ->
   match fl with
   | Continue => m' = <[name s := failed]> m
   | Return _ => m' = <[name s := success]> m
   | Throw _ => m' = m \/ m' = <[name s := success]> m
   end) /\
  match fl with
  | Continue => m' !! name s = Some failed
  | Return b => b = true
  | Throw e =>
      exists ev, last (EvFetch s r :: chk ++ rest) = Some ev /\ raised ev = Some e
  end.

(** The events of one strategy [s], from the outcome map [m] to [m'],
    control leaving by [fl]: its fetch, then what [attempt_effect]
    allows; on a return, the fetch returned a truthy value and what
    follows it is the tail of a success. *)
Definition step_events self s paper path logger (m m' : gmap string status)
    (fl : Flow) (seg : list (Event W Session)) : Prop :=
  exists r chk rest,
    seg = EvFetch s r :: chk ++ rest /\
    attempt_effect self s paper path logger m m' fl r chk rest /\
    (forall b, fl = Return b ->
               (exists v, r = Ret v /\ truthy v = true) /\
               success_tail self s paper path logger
                 (<[name s := success]> m) m' (chk ++ rest)).

(** The events of the loops of [scrape], from the outcome map [m] to
    [m'], control leaving by [fl]: strategies among [member] one after
    the other, as long as control falls through them, and reports to
    the reporter in between, each handed the map as it stands and
    leaving the map the loops go on with; the last report may raise. *)
Inductive run_events self paper path logger
    (member : ScraperFunction W Session -> Prop)
  : gmap string status -> list (Event W Session) -> Flow ->
    gmap string status -> Prop :=
| run_nil m : run_events self paper path logger member m [] Continue m
| run_stop s m m' seg fl :
    member s ->
    step_events self s paper path logger m m' fl seg ->
    fl <> Continue ->
    run_events self paper path logger member m seg fl m'
| run_step s m m1 seg evs fl m' :
    member s ->
    step_events self s paper path logger m m1 Continue seg ->
    run_events self paper path logger member m1 evs fl m' ->
    run_events self paper path logger member m (seg ++ evs) fl m'
| run_report m m1 evs fl m' :
    is_Some (callback self) ->
    run_events self paper path logger member m1 evs fl m' ->
    run_events self paper path logger member m
      (EvCallback (title paper) m m1 (Ret tt) :: evs) fl m'
| run_report_raise m m1 e :
    is_Some (callback self) ->
    run_events self paper path logger member m
      [EvCallback (title paper) m m1 (Raise e)] (Throw e) m1.

(** Every validation among the events comes right after the fetch of a
    strategy that asks for it and returned a truthy value, and is made
    on [path] with the flag [logger]. *)
Definition checks_follow_fetch path logger (evs : list (Event W Session)) : Prop :=
  forall pre p (l : bool) (c : Res pyval) post,
    evs = pre ++ EvCheckPdf p l c :: post ->
    p = path /\ l = logger /\
    exists pre' s v,
      pre = pre' ++ [EvFetch s (Ret v)] /\
      truthy v = true /\ check_pdf s = true.

(** The destination of a record in a batch. *)
Definition destination (paper_file_dump_dir : string) paper : string :=
  path_join paper_file_dump_dir (paperId paper +:+ ".pdf").

(** A result comes from the record [p] launched with index [i]: it is
    keyed by the destination of [p], the orchestration of [p] with that
    index has returned [True], and its value is what the parser made of
    [p] then. *)
Definition scraped_from self (dir : string)
    (parser : option (Paper -> Task W Paper)) logger
    (pk : Paper * Z) (k : string) (v : Paper) : Prop :=
  k = destination dir pk.1 /\
  exists (w0 : W) st1 (w1 : W),
    scrape checker self pk.1 k pk.2 logger w0 = (st1, Ret true) /\
    parser_of parser pk.1 (world st1) = (w1, Ret v).

(** What is relied on of [asyncio.gather], beyond the number of its
    results: each result is what the awaitable of the same rank
    returned, from some world. *)
Definition gather_runs_tasks (gather : Gather W) : Prop :=
  forall tasks (w w' : W) rs,
    gather tasks w = (w', Ret rs) ->
    Forall2 (fun t r => exists w0 w1 : W, t w0 = (w1, Ret r)) tasks rs.

(** The sessions bound to the strategies of a registry, in its order. *)
Definition attached_sessions self : list Session :=
  omap session_of (scrapers self).

(** The session a call binds, when it registers a strategy with one. *)
Definition call_session (c : RegisterCall W Session) : option Session :=
  registration c ≫= session_of.

End MoreVocabulary.

(** * Concrete inputs *)

(** A world that counts the awaited calls, sessions without content, a
    validator that answers as told, and a few fetch capabilities and
    reporters. *)
Definition demo_session : option Q -> unit := fun _ => tt.

Definition demo_check_pdf (approve : bool) : string -> bool -> nat -> nat * Res pyval :=
  fun _ _ w => (S w, Ret (PyBool approve)).

Definition fetch_returning (n : string) (v : pyval) : PyFunc nat unit :=
  {| fn_name := Some n; fn_call := fun _ _ _ w => (S w, Ret v) |}.

Definition fetch_raising (n : string) (e : pyexc) : PyFunc nat unit :=
  {| fn_name := Some n; fn_call := fun _ _ _ w => (S w, Raise e) |}.

Definition demo_call (f : PyFunc nat unit) (p : Z) (chk : bool) : RegisterCall nat unit :=
  {| rc_func := f; rc_attach_session := None; rc_priority := Some p;
     rc_name := None; rc_check := Some chk; rc_rate_limit := None |}.

Definition quiet_reporter : Callback nat := fun _ m w => (w, m, Ret tt).

Definition raising_reporter : Callback nat :=
  fun _ m w => (w, m, Raise (Exc "RuntimeError")).


(** A reporter that writes to the map it is handed, and returns. *)
Definition writing_reporter : Callback nat :=
  fun _ m w => (w, <["A" := other "reported"]> m, Ret tt).

(** A report to a reporter that left the map as it was handed. *)
Definition report_of (m : gmap string status) (r : Res unit) : Event nat unit :=
  EvCallback "A paper" m m r.

Definition demo_paper : Paper := {| paperId := "649def34"; title := "A paper" |}.

Definition strategy (f : PyFunc nat unit) (p : Z) (n : string) (chk : bool)
  : ScraperFunction nat unit :=
  {| function := f; priority := p; kwargs := []; name := n; check_pdf := chk |}.

(** The registry of the scenario of the specification: A and B at
    priority 10, which fail, C at priority 5, which succeeds; validation
    off. *)
Definition demo_A := fetch_returning "A_scraper" (PyBool false).
Definition demo_B := fetch_raising "B_scraper" (Exc "RuntimeError").
Definition demo_C := fetch_returning "C_scraper" (PyBool true).

Definition demo_registry (cb : option (Callback nat)) : Scraper nat unit :=
  register_all demo_session (Scraper_init cb)
    [demo_call demo_C 5 false; demo_call demo_A 10 false; demo_call demo_B 10 false].

Definition sA : ScraperFunction nat unit := strategy demo_A 10 "A" false.
Definition sB : ScraperFunction nat unit := strategy demo_B 10 "B" false.
Definition sC : ScraperFunction nat unit := strategy demo_C 5 "C" false.

(** The scenario with a reporter and a logger, rotation index 0. *)
Definition demo_pre : list (Event nat unit) :=
  [EvFetch sA (Ret (PyBool false));
   EvFetch sB (Raise (Exc "RuntimeError"));
   EvException (exception_msg sB);
   report_of {[ "A" := failed; "B" := failed; "C" := none ]} (Ret tt)].

Definition demo_post : list (Event nat unit) :=
  [EvDebug (debug_msg demo_paper sC);
   report_of {[ "A" := failed; "B" := failed; "C" := success ]} (Ret tt)].

Definition demo_final : St nat unit :=
  {| world := 3%nat;
     scrape_result := {[ "A" := failed; "B" := failed; "C" := success ]};
     trace := demo_pre ++ EvFetch sC (Ret (PyBool true)) :: demo_post |}.

(** A reporter that raises when it is the second thing awaited, and
    returns afterwards. *)
Definition flaky_reporter : Callback nat :=
  fun _ m w =>
    if Nat.eqb w 1 then (S w, m, Raise (Exc "RuntimeError")) else (w, m, Ret tt).

(** The scenario with a reporter and rotation index 1. *)
Definition demo_rotated : St nat unit :=
  {| world := 3%nat;
     scrape_result := {[ "A" := failed; "B" := failed; "C" := success ]};
     trace := [EvFetch sB (Raise (Exc "RuntimeError"));
               EvFetch sA (Ret (PyBool false));
               report_of
                 {[ "A" := failed; "B" := failed; "C" := none ]} (Ret tt);
               EvFetch sC (Ret (PyBool true));
               report_of
                 {[ "A" := failed; "B" := failed; "C" := success ]} (Ret tt)] |}.

(** The state a run starts in, with no strategy marked yet. *)
Definition demo_start : St nat unit :=
  {| world := 0%nat;
     scrape_result := {[ "A" := none; "B" := none; "C" := none ]};
     trace := [] |}.

(** A registry all of whose strategies fail: A returns [False], B
    raises, D returns [True] but asks for a validation that is refused. *)
Definition demo_D := fetch_returning "D_scraper" (PyBool true).
Definition sD : ScraperFunction nat unit := strategy demo_D 5 "D" true.

Definition failing_calls : list (RegisterCall nat unit) :=
  [demo_call demo_D 5 true; demo_call demo_A 10 false; demo_call demo_B 10 false].

Definition demo_exhausted : St nat unit :=
  {| world := 4%nat;
     scrape_result := {[ "A" := failed; "B" := failed; "D" := failed ]};
     trace := [EvFetch sA (Ret (PyBool false));
               EvFetch sB (Raise (Exc "RuntimeError"));
               report_of
                 {[ "A" := failed; "B" := failed; "D" := none ]} (Ret tt);
               EvFetch sD (Ret (PyBool true));
               EvCheckPdf "p.pdf" false (Ret (PyBool false));
               report_of
                 {[ "A" := failed; "B" := failed; "D" := failed ]} (Ret tt)] |}.

(** The batch scenario of the specification: five records, windows of
    two, a limit of three; every record succeeds (at C, after A and B). *)
Definition demo_papers : list Paper :=
  (fun k => {| paperId := k; title := k |}) <$> ["a"; "b"; "c"; "d"; "e"].

Definition demo_batch : BatchSt nat :=
  {| bworld := 12%nat;
     aggregated :=
       {[ "dir/a.pdf" := {| paperId := "a"; title := "a" |};
          "dir/b.pdf" := {| paperId := "b"; title := "b" |};
          "dir/c.pdf" := {| paperId := "c"; title := "c" |};
          "dir/d.pdf" := {| paperId := "d"; title := "d" |} ]};
     launched :=
       [[({| paperId := "a"; title := "a" |}, 0);
         ({| paperId := "b"; title := "b" |}, 1)];
        [({| paperId := "c"; title := "c" |}, 2);
         ({| paperId := "d"; title := "d" |}, 3)]] |}.



(** A registry whose only registration raised: the function has no
    [__name__] and the call gives no name. *)
Definition nameless_call : RegisterCall nat unit :=
  {| rc_func := {| fn_name := None; fn_call := fun _ _ _ w => (S w, Ret (PyBool true)) |};
     rc_attach_session := None; rc_priority := None; rc_name := None;
     rc_check := None; rc_rate_limit := None |}.

(** The scenario with C registered above A: C succeeds at once and A is
    never tried. *)
Definition early_calls : list (RegisterCall nat unit) :=
  [demo_call demo_A 5 false; demo_call demo_C 10 false].

Definition demo_early : St nat unit :=
  {| world := 1%nat;
     scrape_result := {[ "A" := none; "C" := success ]};
     trace := [EvFetch (strategy demo_C 10 "C" false) (Ret (PyBool true));
               report_of {[ "A" := none; "C" := success ]} (Ret tt)] |}.

(** The first four events of the run in which every strategy fails. *)
Definition demo_exhausted_pre : list (Event nat unit) :=
  [EvFetch sA (Ret (PyBool false));
   EvFetch sB (Raise (Exc "RuntimeError"));
   report_of {[ "A" := failed; "B" := failed; "D" := none ]} (Ret tt);
   EvFetch sD (Ret (PyBool true))].

Definition demo_exhausted_post : list (Event nat unit) :=
  [report_of {[ "A" := failed; "B" := failed; "D" := failed ]} (Ret tt)].


(** Batches over the five records, in windows of two: one that an
    orchestration of the first window ends by raising, one with a limit
    of zero, and one without limit. *)
Definition demo_batch_raised : BatchSt nat :=
  {| bworld := 2%nat;
     aggregated := ∅;
     launched :=
       [[({| paperId := "a"; title := "a" |}, 0);
         ({| paperId := "b"; title := "b" |}, 1)]] |}.

Definition demo_batch_one : BatchSt nat :=
  {| bworld := 6%nat;
     aggregated :=
       {[ "dir/a.pdf" := {| paperId := "a"; title := "a" |};
          "dir/b.pdf" := {| paperId := "b"; title := "b" |} ]};
     launched :=
       [[({| paperId := "a"; title := "a" |}, 0);
         ({| paperId := "b"; title := "b" |}, 1)]] |}.

Definition demo_batch_all : BatchSt nat :=
  {| bworld := 15%nat;
     aggregated :=
       {[ "dir/a.pdf" := {| paperId := "a"; title := "a" |};
          "dir/b.pdf" := {| paperId := "b"; title := "b" |};
          "dir/c.pdf" := {| paperId := "c"; title := "c" |};
          "dir/d.pdf" := {| paperId := "d"; title := "d" |};
          "dir/e.pdf" := {| paperId := "e"; title := "e" |} ]};
     launched :=
       [[({| paperId := "a"; title := "a" |}, 0);
         ({| paperId := "b"; title := "b" |}, 1)];
        [({| paperId := "c"; title := "c" |}, 2);
         ({| paperId := "d"; title := "d" |}, 3)];
        [({| paperId := "e"; title := "e" |}, 4)]] |}.

(** Sessions told apart by their rate limit, and registrations that ask
    for one or not: b (priority 10) has none, c (priority 10) one at one
    request in two seconds, a (priority 5) an unthrottled one, and d
    (priority 1) one at the default rate. *)
Definition rated_session : option Q -> option Q := fun rate => rate.

Definition rated_fetch (n : string) : PyFunc nat (option Q) :=
  {| fn_name := Some n; fn_call := fun _ _ _ w => (S w, Ret (PyBool true)) |}.

Definition rated_call (n : string) (p : Z) (attach : option bool)
    (rate : option (option Q)) : RegisterCall nat (option Q) :=
  {| rc_func := rated_fetch n; rc_attach_session := attach; rc_priority := Some p;
     rc_name := None; rc_check := Some false; rc_rate_limit := rate |}.

Definition rated_calls : list (RegisterCall nat (option Q)) :=
  [rated_call "a_scraper" 5 (Some true) (Some None);
   rated_call "b_scraper" 10 None None;
   rated_call "c_scraper" 10 (Some true) (Some (Some (1 # 2)%Q));
   rated_call "d_scraper" 1 (Some true) None].

(** A [close] of sessions that returns, and one that raises on the
    unthrottled session. *)
Definition quiet_close : option Q -> nat -> nat * Res unit :=
  fun _ w => (S w, Ret tt).

Definition unthrottled_close_raises : option Q -> nat -> nat * Res unit :=
  fun sess w =>
    match sess with
    | None => (S w, Raise (Exc "RuntimeError"))
    | Some _ => (S w, Ret tt)
    end.

(** A fetch that is cancelled while it is awaited, registered above A. *)
Definition demo_K := fetch_raising "K_scraper" (BaseExc "CancelledError").
Definition sK : ScraperFunction nat unit := strategy demo_K 10 "K" false.

Definition cancelled_calls : list (RegisterCall nat unit) :=
  [demo_call demo_A 5 false; demo_call demo_K 10 false].

Definition demo_cancelled : St nat unit :=
  {| world := 1%nat;
     scrape_result := {[ "A" := none; "K" := none ]};
     trace := [EvFetch sK (Raise (BaseExc "CancelledError"))] |}.


(** The failure of A, alone in the registry, with a reporter that
    writes to the map. *)
Definition demo_rewritten : St nat unit :=
  {| world := 1%nat;
     scrape_result := {[ "A" := other "reported" ]};
     trace := [EvFetch sA (Ret (PyBool false));
               EvCallback "A paper" {[ "A" := failed ]}
                 {[ "A" := other "reported" ]} (Ret tt)] |}.

(** The inner loop on the tier A, B, C from the start state: under
    rotation index 1 (and 4) it fetches B, which raises, then C, which
    succeeds; under rotation index 2 it fetches C at once. *)
Definition demo_tier_1 : St nat unit :=
  {| world := 2%nat;
     scrape_result := {[ "A" := none; "B" := failed; "C" := success ]};
     trace := [EvFetch sB (Raise (Exc "RuntimeError"));
               EvFetch sC (Ret (PyBool true))] |}.

Definition demo_tier_2 : St nat unit :=
  {| world := 1%nat;
     scrape_result := {[ "A" := none; "B" := none; "C" := success ]};
     trace := [EvFetch sC (Ret (PyBool true))] |}.

(** * Properties *)

Section Properties.

Context {W Session : Type}.

(** The constructor of the sessions and [utils.check_pdf] are arbitrary. *)
Variable new_session : option Q -> Session.
Variable checker : string -> bool -> W -> W * Res pyval.

Implicit Types (self : Scraper W Session) (s scraper : ScraperFunction W Session).
Implicit Types (l tier : list (ScraperFunction W Session)) (st : St W Session).
Implicit Types (paper : Paper) (path : string) (i : Z) (logger : bool).
Implicit Types (evs tail pre post : list (Event W Session)).
Implicit Types (calls : list (RegisterCall W Session)).

(** ** The registry *)

Lemma tiers_of_nil : tiers_of (@nil (ScraperFunction W Session)) = [].
Proof.
  unfold tiers_of, sorted_priorities. simpl.
  rewrite elements_empty. reflexivity.
Qed.

Lemma Scraper_init_in_sync cb : plan_in_sync (@Scraper_init W Session cb).
Proof. unfold plan_in_sync. simpl. symmetry. apply tiers_of_nil. Qed.

Lemma register_scraper_in_sync self func att p n chk rate self' :
  register_scraper new_session self func att p n chk rate = Ret self' ->
  plan_in_sync self'.
Proof.
  unfold register_scraper. intros H.
  destruct n as [n|]; [|destruct (fn_name func)]; inversion H; reflexivity.
Qed.

Lemma register_all_snoc self calls c :
  register_all new_session self (calls ++ [c]) =
  match call_register new_session (register_all new_session self calls) c with
  | Ret self' => self'
  | Raise _ => register_all new_session self calls
  end.
Proof. unfold register_all. rewrite foldl_app. reflexivity. Qed.

(** An invariant of the registry holds after any sequence of
    registrations once it holds at creation and each successful
    registration keeps it. *)
Lemma register_all_ind (P : Scraper W Session -> Prop) self calls :
  P self ->
  (forall r0 c r1, P r0 -> call_register new_session r0 c = Ret r1 -> P r1) ->
  P (register_all new_session self calls).
Proof.
  intros H0 Hstep. induction calls as [|c calls IH] using rev_ind; [exact H0|].
  rewrite register_all_snoc.
  destruct (call_register _ _ c) eqn:E; [eapply Hstep; eauto | exact IH].
Qed.

Lemma register_all_in_sync cb (calls : list (RegisterCall W Session)) :
  plan_in_sync (register_all new_session (Scraper_init cb) calls).
Proof.
  apply register_all_ind; [apply Scraper_init_in_sync|].
  intros r0 c r1 _ H. eapply register_scraper_in_sync, H.
Qed.

Lemma insert_by_priority_perm x l : insert_by_priority x l ≡ₚ x :: l.
Proof.
  induction l as [|y l IH]; simpl; [reflexivity|].
  destruct (Z.ltb _ _); [|reflexivity].
  rewrite IH. apply Permutation_swap.
Qed.

Lemma sort_by_priority_perm l : sort_by_priority l ≡ₚ l.
Proof.
  induction l as [|x l IH]; simpl; [reflexivity|].
  rewrite insert_by_priority_perm, IH. reflexivity.
Qed.

Lemma sorted_priorities_NoDup l : NoDup (sorted_priorities l).
Proof.
  unfold sorted_priorities.
  rewrite merge_sort_Permutation. apply NoDup_elements.
Qed.

Lemma elem_of_sorted_priorities l p :
  p ∈ sorted_priorities l <-> exists s, s ∈ l /\ priority s = p.
Proof.
  unfold sorted_priorities.
  rewrite merge_sort_Permutation, elem_of_elements, elem_of_list_to_set,
    list_elem_of_fmap.
  split; intros (s & H1 & H2); exists s; auto.
Qed.

Lemma sorted_priorities_ascending l : StronglySorted Z.lt (sorted_priorities l).
Proof.
  pose proof (sorted_priorities_NoDup l) as Hnd.
  assert (Hs : StronglySorted Z.le (sorted_priorities l)).
  { unfold sorted_priorities. apply StronglySorted_merge_sort; apply _. }
  induction Hs as [|p ps Hs IH Hall]; [constructor|].
  inversion_clear Hnd as [|? ? Hnot Hnd'].
  constructor; [auto|].
  rewrite Forall_forall in Hall |- *. intros q Hq.
  assert (p <> q) by (intros ->; auto).
  specialize (Hall q Hq). lia.
Qed.

Lemma tiers_of_cons_perm (ps : list Z) x l :
  NoDup ps -> priority x ∈ ps ->
  mjoin (tier_of (x :: l) <$> ps) ≡ₚ x :: mjoin (tier_of l <$> ps).
Proof.
  unfold tier_of.
  induction ps as [|q ps IH]; intros Hnd Hin; [inversion Hin|].
  inversion_clear Hnd as [|? ? Hnot Hnd']. csimpl.
  rewrite filter_cons. destruct (decide (priority x = q)) as [E|Hne].
  - subst q. simpl. constructor. apply Permutation_app_head.
    clear IH Hin. induction ps as [|r ps IH]; [reflexivity|]. csimpl.
    rewrite filter_cons.
    destruct (decide (priority x = r)) as [E|_].
    { subst r. exfalso. apply Hnot. left. }
    apply Permutation_app_head, IH; [|by inversion Hnd'].
    intros H; apply Hnot; by right.
  - rewrite IH; [|assumption|].
    + symmetry. apply Permutation_middle.
    + apply elem_of_cons in Hin as [?|?]; [congruence|assumption].
Qed.

Lemma tiers_of_perm l : mjoin (tiers_of l) ≡ₚ l.
Proof.
  unfold tiers_of.
  assert (H : forall ps : list Z, NoDup ps ->
            (forall s, s ∈ l -> priority s ∈ ps) ->
            mjoin (tier_of l <$> ps) ≡ₚ l).
  { intros ps Hnd. induction l as [|x l IH]; intros Hin.
    - clear. induction ps as [|q ps IH]; csimpl; [reflexivity|exact IH].
    - rewrite tiers_of_cons_perm; [|assumption|apply Hin; left].
      constructor. apply IH. intros s Hs. apply Hin. by right. }
  apply H; [apply sorted_priorities_NoDup|].
  intros s Hs. apply elem_of_sorted_priorities. eauto.
Qed.

(** [C6] After any sequence of [register_scraper] calls, whatever the
    names and priorities (duplicates included) and whether or not some
    calls raised, the sizes of the tiers of [sorted_scrapers] add up to
    the number of registered strategies, and the tiers together hold the
    registered strategies, each as often as it is registered: reshaping
    loses and duplicates nothing. *)
Theorem plan_size_is_registry_size cb (calls : list (RegisterCall W Session)) :
  sum_list (length <$> sorted_scrapers (register_all new_session (Scraper_init cb) calls))
  = length (scrapers (register_all new_session (Scraper_init cb) calls))
  /\ mjoin (sorted_scrapers (register_all new_session (Scraper_init cb) calls))
     ≡ₚ scrapers (register_all new_session (Scraper_init cb) calls).
Proof.
  rewrite (register_all_in_sync cb calls).
  split; [|apply tiers_of_perm].
  rewrite <- length_join, tiers_of_perm. reflexivity.
Qed.


(** ** Orchestration *)

(** [C10] On a scraper with no registered strategy, whatever the record,
    the path, the rotation index and the logger, [scrape] returns
    [False], its outcome map is empty, and nothing at all is awaited or
    logged: the reporter is never invoked and the world is untouched. *)
Theorem scrape_empty_registry cb (calls : list (RegisterCall W Session))
    paper path i logger (w : W) :
  scrapers (register_all new_session (Scraper_init cb) calls) = [] ->
  scrape checker (register_all new_session (Scraper_init cb) calls)
    paper path i logger w
  = ({| world := w; scrape_result := ∅; trace := [] |}, Ret false).
Proof.
  intros H. unfold scrape, initial_result.
  rewrite (register_all_in_sync cb calls), H, tiers_of_nil. reflexivity.
Qed.

(** *** Rotation within a tier *)

Lemma position_lt n i j : (0 < n)%nat -> (position n i j < n)%nat.
Proof.
  intros Hn. unfold position.
  pose proof (Z.mod_pos_bound (i + Z.of_nat j) (Z.of_nat n)). lia.
Qed.

Lemma position_mod n i1 i2 j :
  i1 mod Z.of_nat n = i2 mod Z.of_nat n -> position n i1 j = position n i2 j.
Proof.
  intros H. unfold position.
  rewrite <- (Zplus_mod_idemp_l i1), <- (Zplus_mod_idemp_l i2), H. reflexivity.
Qed.

Lemma position_0 n i : (0 < n)%nat -> Z.of_nat (position n i 0) = i mod Z.of_nat n.
Proof.
  intros Hn. unfold position. rewrite Z.add_0_r.
  pose proof (Z.mod_pos_bound i (Z.of_nat n)). lia.
Qed.

(** Every position of the tier is read at some offset. *)
Lemma position_onto n i k :
  (k < n)%nat -> exists j, (j < n)%nat /\ position n i j = k.
Proof.
  intros Hk. exists (Z.to_nat ((Z.of_nat k - i) mod Z.of_nat n)).
  pose proof (Z.mod_pos_bound (Z.of_nat k - i) (Z.of_nat n)).
  split; [lia|]. unfold position.
  rewrite Z2Nat.id by lia. rewrite Zplus_mod_idemp_r.
  replace (i + (Z.of_nat k - i)) with (Z.of_nat k) by lia.
  rewrite Z.mod_small by lia. lia.
Qed.

Lemma subscript_position tier i j :
  tier <> [] ->
  exists s, subscript tier i j = Ret s /\
            tier !! position (length tier) i j = Some s.
Proof.
  intros Hne. unfold subscript.
  assert (Hn : (0 < length tier)%nat) by (destruct tier; [done|simpl; lia]).
  destruct (Z.eqb_spec (Z.of_nat (length tier)) 0) as [E|_]; [lia|].
  fold (position (length tier) i j).
  destruct (lookup_lt_is_Some_2 tier (position (length tier) i j)) as [s Hs].
  { by apply position_lt. }
  exists s. by rewrite Hs.
Qed.

Lemma omap_lookup_total {A B} (f : A -> option B) (xs : list A) (k : nat) :
  (forall x, x ∈ xs -> is_Some (f x)) -> omap f xs !! k = xs !! k ≫= f.
Proof.
  revert k. induction xs as [|x xs IH]; intros k Hall; [done|].
  destruct (Hall x) as [y Hy]; [left|]. simpl. rewrite Hy.
  destruct k as [|k]; simpl; [by rewrite Hy|].
  apply IH. intros z Hz. apply Hall. by right.
Qed.

Lemma tier_order_lookup tier i (j : nat) :
  (j < length tier)%nat ->
  tier_order tier i !! j = tier !! position (length tier) i j.
Proof.
  intros Hj. unfold tier_order. rewrite omap_lookup_total.
  - rewrite lookup_seq_lt by done. reflexivity.
  - intros k Hk. apply lookup_lt_is_Some_2, position_lt. lia.
Qed.

Lemma tier_order_length tier i : length (tier_order tier i) = length tier.
Proof.
  unfold tier_order.
  assert (H : forall js : list nat,
            (forall j, j ∈ js -> is_Some (tier !! position (length tier) i j)) ->
            length (omap (fun j => tier !! position (length tier) i j) js)
            = length js).
  { induction js as [|j js IH]; intros Hall; [done|].
    destruct (Hall j) as [y Hy]; [left|]. simpl. rewrite Hy. simpl.
    f_equal. apply IH. intros z Hz. apply Hall. by right. }
  rewrite H; [apply length_seq|].
  intros j Hj. apply lookup_lt_is_Some_2, position_lt.
  apply elem_of_seq in Hj. lia.
Qed.

Lemma tier_order_mod tier i1 i2 :
  i1 mod Z.of_nat (length tier) = i2 mod Z.of_nat (length tier) ->
  tier_order tier i1 = tier_order tier i2.
Proof.
  intros H. unfold tier_order. apply list_omap_ext, Forall_Forall2_diag, Forall_forall.
  intros j _. by rewrite (position_mod _ i1 i2).
Qed.

(** *** One strategy *)

Ltac solve_blocked :=
  unfold blocked; simpl;
  solve
    [ left; eexists; reflexivity
    | right; left; eexists; split; [reflexivity|assumption]
    | right; right; left; split; [assumption|]; eexists; split; [reflexivity|];
      intros ? [= <-]; assumption
    | right; right; left; split; [assumption|]; eexists; split; [reflexivity|];
      intros ? [=]
    | right; right; right; eexists _, _, _, _;
      repeat first [apply list_elem_of_here | apply list_elem_of_further] ].

Ltac solve_success_tail :=
  lazymatch goal with
  | |- success_tail _ _ _ _ _ _ _ (EvCheckPdf ?p ?l (Ret ?v) :: _) =>
      exists [EvCheckPdf p l (Ret v)]; split;
      [right; split; [assumption|]; exists v; split; [assumption|reflexivity]|]
  | |- success_tail _ _ _ _ _ _ _ _ =>
      exists []; split; [left; split; [assumption|reflexivity]|]
  end;
  match goal with H : callback _ = _ |- _ => rewrite H end;
  split; [reflexivity|first [discriminate|reflexivity]].

Ltac finish_shape :=
  intros [= <- <-]; simpl;
  eexists _, _; (split; [rewrite <- ?app_assoc; simpl; reflexivity|]);
  (split; [repeat constructor|]); unfold attempt_ok; simpl;
  first
    [ split; [solve_blocked|]; first [apply lookup_insert_eq|assumption]
    | split; [reflexivity|]; split; [eexists; split; [reflexivity|assumption]|];
      solve_success_tail ].

Ltac success_path self paper st :=
  unfold await_callback; simpl;
  let Hcb := fresh "Hcb" in
  destruct (callback self) as [cb|] eqn:Hcb; simpl;
  [ match goal with
    | |- context [cb ?a ?b ?c] =>
        let e := fresh "e" in
        destruct (cb a b c) as [[? ?] [[]|e]]; simpl;
        [|destruct (is_Exception e) eqn:?]
    end
  | ]; finish_shape.

Lemma attempt_shape self s paper path logger st st' fl :
  attempt checker self s paper path logger st = (st', fl) ->
  exists r tail,
    trace st' = trace st ++ EvFetch s r :: tail /\
    Forall not_fetch tail /\
    attempt_ok self s paper path logger st st' fl r tail.
Proof.
  unfold attempt, try_body.
  destruct (fn_call _ _ _ _ _) as [w1 [v|e]]; simpl.
  2: { destruct (is_Exception e) eqn:He; destruct logger; finish_shape. }
  destruct (truthy v) eqn:Hv; simpl; [|finish_shape].
  unfold validated. destruct (check_pdf s) eqn:Hc; simpl.
  - destruct (checker _ _ _) as [w2 [v'|e']]; simpl.
    + destruct (truthy v') eqn:Hv'; [|finish_shape].
      destruct logger; success_path self paper st.
    + destruct (is_Exception e') eqn:He; destruct logger; finish_shape.
  - destruct logger; success_path self paper st.
Qed.

(** *** Traces of the loops *)

Lemma app_eq_app_cons {A} (l1 l2 k1 k2 : list A) (y : A) :
  l1 ++ l2 = k1 ++ y :: k2 ->
  (exists m, l1 = k1 ++ y :: m /\ k2 = m ++ l2) \/
  (exists m, k1 = l1 ++ m /\ l2 = m ++ y :: k2).
Proof.
  revert k1. induction l1 as [|x l1 IH]; intros k1 H; simpl in H.
  - right. exists k1. auto.
  - destruct k1 as [|z k1]; simpl in H; injection H as -> H.
    + left. exists l1. auto.
    + destruct (IH _ H) as [(m & -> & ->)|(m & -> & ->)];
        [left|right]; exists m; auto.
Qed.

Lemma not_fetch_no_split (evs pre post : list (Event W Session)) s r :
  Forall not_fetch evs -> evs <> pre ++ EvFetch s r :: post.
Proof.
  intros Hall ->. apply Forall_app in Hall as [_ Hall].
  by inversion Hall.
Qed.

Lemma closed_no_fetch path logger evs : Forall not_fetch evs -> closed path logger evs.
Proof. intros Hall pre s v post more H. by apply not_fetch_no_split in H. Qed.

Lemma closed_app path logger evs1 evs2 :
  closed path logger evs1 -> closed path logger evs2 ->
  closed path logger (evs1 ++ evs2).
Proof.
  intros H1 H2 pre s v post more H.
  apply app_eq_app_cons in H as [(m & -> & ->)|(m & -> & ->)].
  - rewrite <- app_assoc. by eapply H1.
  - by eapply H2.
Qed.

Lemma closed_attempt path logger s r tail :
  Forall not_fetch tail -> blocked s path logger r tail ->
  closed path logger (EvFetch s r :: tail).
Proof.
  intros Hall Hb pre s' v post more H (Hv & Hchk & Hcb).
  destruct pre as [|x pre]; simpl in H.
  2: { injection H as _ H2. by apply not_fetch_no_split in H2. }
  injection H as -> -> ->.
  destruct Hb as [(e & ?)|[(v' & [= <-] & ?)|[(Hc & c & Hhd & Hc')|(t & m & m' & e & Hin)]]].
  - discriminate.
  - congruence.
  - destruct (Hchk Hc) as (v' & Hhd' & Hv').
    destruct post as [|ev post]; [discriminate|]. simpl in *.
    injection Hhd as ->. injection Hhd' as ->.
    specialize (Hc' v' eq_refl). congruence.
  - apply (Hcb t m m' e). apply elem_of_app. by left.
Qed.

Lemma run_ok_prepend self paper path logger evs1 evs fl st' :
  closed path logger evs1 ->
  run_ok self paper path logger evs fl st' ->
  run_ok self paper path logger (evs1 ++ evs) fl st'.
Proof.
  intros H1. destruct fl as [|b|e]; simpl; try by apply closed_app.
  intros (-> & evs0 & s0 & v0 & tail & m & -> & H0 & Htail & Hs & Hm).
  split; [done|]. exists (evs1 ++ evs0), s0, v0, tail, m.
  rewrite <- app_assoc. repeat split; try done. by apply closed_app.
Qed.

Lemma attempt_run_ok self s paper path logger st st' fl :
  attempt checker self s paper path logger st = (st', fl) ->
  exists evs, trace st' = trace st ++ evs /\
              run_ok self paper path logger evs fl st'.
Proof.
  intros H. apply attempt_shape in H as (r & tail & Htr & Hall & Hok).
  exists (EvFetch s r :: tail). split; [done|].
  destruct fl as [|b|e]; simpl in *.
  - destruct Hok. by apply closed_attempt.
  - destruct Hok as (-> & (v & -> & Hv) & Hs). split; [done|].
    exists [], s, v, tail, (<[name s := success]> (scrape_result st)).
    repeat split; try done.
    + by apply closed_no_fetch.
    + apply lookup_insert_eq.
  - destruct Hok. by apply closed_attempt.
Qed.

Lemma tier_loop_run_ok self tier paper path i logger js st st' fl :
  tier_loop checker self tier paper path i logger js st = (st', fl) ->
  exists evs, trace st' = trace st ++ evs /\
              run_ok self paper path logger evs fl st'.
Proof.
  revert st. induction js as [|j js IH]; intros st; simpl.
  - intros [= <- <-]. exists []. rewrite app_nil_r. split; [done|].
    by apply closed_no_fetch.
  - destruct (subscript tier i j) as [s|e].
    2: { intros [= <- <-]. exists []. rewrite app_nil_r. split; [done|].
         by apply closed_no_fetch. }
    destruct (attempt checker self s paper path logger st) as [st1 fl1] eqn:Ha.
    apply attempt_run_ok in Ha as (evs1 & Htr1 & Hok1).
    destruct fl1 as [|b|e].
    + intros H. apply IH in H as (evs2 & Htr2 & Hok2).
      exists (evs1 ++ evs2). rewrite Htr2, Htr1, app_assoc. split; [done|].
      by apply run_ok_prepend.
    + intros [= <- <-]. eauto.
    + intros [= <- <-]. eauto.
Qed.

Lemma await_callback_trace (cb : Callback W) paper st st' r :
  await_callback cb paper st = (st', r) ->
  trace st'
  = trace st ++ [EvCallback (title paper) (scrape_result st) (scrape_result st') r].
Proof.
  unfold await_callback. destruct (cb _ _ _) as [[w m'] r']. by intros [= <- <-].
Qed.

Lemma tiers_loop_run_ok self paper path i logger tiers st st' fl :
  tiers_loop checker self paper path i logger tiers st = (st', fl) ->
  exists evs, trace st' = trace st ++ evs /\
              run_ok self paper path logger evs fl st'.
Proof.
  revert st. induction tiers as [|tier tiers IH]; intros st; simpl.
  - intros [= <- <-]. exists []. rewrite app_nil_r. split; [done|].
    by apply closed_no_fetch.
  - destruct (tier_loop _ _ _ _ _ _ _ _ _) as [st1 fl1] eqn:Ht.
    apply tier_loop_run_ok in Ht as (evs1 & Htr1 & Hok1).
    destruct fl1 as [|b|e]; [|intros [= <- <-]; eauto..].
    simpl in Hok1.
    destruct (callback self) as [cb|].
    + destruct (await_callback cb paper st1) as [st2 r] eqn:Hcb.
      apply await_callback_trace in Hcb as Htr2.
      assert (Hc : closed path logger
                     (evs1 ++ [EvCallback (title paper) (scrape_result st1)
                                 (scrape_result st2) r])).
      { apply closed_app; [done|]. apply closed_no_fetch. by repeat constructor. }
      destruct r as [u|e].
      * intros H. apply IH in H as (evs3 & Htr3 & Hok3).
        eexists. rewrite Htr3, Htr2, Htr1, <- !app_assoc.
        split; [reflexivity|]. rewrite app_assoc. by apply run_ok_prepend.
      * intros [= <- <-]. eexists. rewrite Htr2, Htr1, <- app_assoc.
        split; [reflexivity|]. exact Hc.
    + intros H. apply IH in H as (evs3 & Htr3 & Hok3).
      exists (evs1 ++ evs3). rewrite Htr3, Htr1, app_assoc. split; [done|].
      by apply run_ok_prepend.
Qed.

Lemma success_tail_fetched self s paper path logger m m' tail :
  success_tail self s paper path logger m m' tail ->
  fetched tail = [] /\
  reported tail = match callback self with
                  | Some _ => [(title paper, m)]
                  | None => []
                  end.
Proof.
  intros (chk & Hchk & -> & _).
  destruct Hchk as [[_ ->]|(_ & v' & _ & ->)];
    destruct logger; destruct (callback self); done.
Qed.

Lemma reads_only_app (evs1 evs2 : list (Event W Session)) :
  Forall reads_only (evs1 ++ evs2) <->
  Forall reads_only evs1 /\ Forall reads_only evs2.
Proof. apply Forall_app. Qed.

(** When the reporter has not written to the map it was handed on a
    success, the map left is the map handed. *)
Lemma success_tail_reads_only self s paper path logger m m' tail :
  success_tail self s paper path logger m m' tail ->
  Forall reads_only tail -> m' = m.
Proof.
  intros (chk & _ & -> & Hnone) Hro.
  destruct (callback self) as [cb|]; [|by apply Hnone].
  rewrite !reads_only_app in Hro. destruct Hro as (_ & _ & Hro).
  by inversion Hro.
Qed.

(** [C1] (amended) In every orchestration, when the fetch of a strategy
    returns a truthy value, the validator (if the strategy asks for it)
    approves the destination, and no reporter call raises from then on:
    the strategy is marked success, [scrape] returns [True], and what
    follows the fetch is only what belongs to this success (the
    validation, the debug record, the reporter): no strategy is fetched
    after it, and the reporter, when there is one, is invoked exactly
    once, with the outcome map [m] in which the strategy is marked
    success.  This map is the final one: [scrape] writes nothing more,
    so the outcome map at the end is [m], unless the reporter itself
    wrote to it in that call. *)
Theorem first_success_ends_scrape self paper path i logger (w : W)
    st (res : Res bool) pre s (v : pyval) post :
  scrape checker self paper path i logger w = (st, res) ->
  trace st = pre ++ EvFetch s (Ret v) :: post ->
  success_at s path logger v post ->
  res = Ret true /\
  exists m : gmap string status,
    m !! name s = Some success /\
    success_tail self s paper path logger m (scrape_result st) post /\
    fetched post = [] /\
    reported post = match callback self with
                    | Some _ => [(title paper, m)]
                    | None => []
                    end /\
    (Forall reads_only post -> scrape_result st = m).
Proof.
  unfold scrape. intros Hrun Htr Hsucc.
  destruct (tiers_loop _ _ _ _ _ _ _ _) as [st1 fl] eqn:Hloop.
  apply tiers_loop_run_ok in Hloop as (evs & Hevs & Hok). simpl in Hevs.
  assert (Hclosed : trace st = evs -> closed path logger evs -> False).
  { intros E Hc. apply (Hc pre s v post []); [congruence|].
    by rewrite app_nil_r. }
  destruct fl as [|b|e]; simpl in Hok; injection Hrun as <- <-;
    [exfalso; by auto| |exfalso; by auto].
  destruct Hok as (-> & evs0 & s0 & v0 & tail & m & Hsplit & Hc0 & Htail & Hs & Hm).
  rewrite Hevs, Hsplit in Htr.
  apply app_eq_app_cons in Htr as [(k & -> & ->)|(k & -> & Htr)].
  { exfalso. by eapply Hc0. }
  destruct k as [|x k]; simpl in Htr.
  2: { injection Htr as _ Htr. by apply not_fetch_no_split in Htr. }
  injection Htr as -> -> ->.
  split; [done|]. exists m. split; [done|]. split; [done|].
  destruct (success_tail_fetched _ _ _ _ _ _ _ _ Hs) as [Hf Hr].
  split; [done|]. split; [done|].
  by eapply success_tail_reads_only.
Qed.

(** *** The order of the fetches *)

Lemma fetched_not_fetch tail : Forall not_fetch tail -> fetched tail = [].
Proof.
  induction 1 as [|ev tail Hev _ IH]; [done|].
  destruct ev; simpl in *; done.
Qed.

Lemma fetched_app (tr1 tr2 : list (Event W Session)) :
  fetched (tr1 ++ tr2) = fetched tr1 ++ fetched tr2.
Proof. apply omap_app. Qed.

Lemma attempt_fetched self s paper path logger st st' fl :
  attempt checker self s paper path logger st = (st', fl) ->
  fetched (trace st') = fetched (trace st) ++ [s].
Proof.
  intros H. apply attempt_shape in H as (r & tail & -> & Hall & _).
  rewrite fetched_app.
  change (fetched (EvFetch s r :: tail)) with (s :: fetched tail).
  by rewrite (fetched_not_fetch tail).
Qed.

Lemma tier_loop_fetched self tier paper path i logger js st st' fl :
  tier <> [] ->
  tier_loop checker self tier paper path i logger js st = (st', fl) ->
  exists visited,
    fetched (trace st') = fetched (trace st) ++ visited /\
    visited `prefix_of` omap (fun j => tier !! position (length tier) i j) js /\
    (fl = Continue ->
     visited = omap (fun j => tier !! position (length tier) i j) js).
Proof.
  intros Hne. revert st. induction js as [|j js IH]; intros st; simpl.
  - intros [= <- <-]. exists []. by rewrite app_nil_r.
  - destruct (subscript_position tier i j Hne) as (s & -> & ->).
    destruct (attempt checker self s paper path logger st) as [st1 fl1] eqn:Ha.
    apply attempt_fetched in Ha.
    destruct fl1 as [|b|e].
    + intros H. apply IH in H as (visited & Hf & Hp & Hc).
      exists (s :: visited). rewrite Hf, Ha, <- app_assoc.
      split; [done|]. split; [by apply prefix_cons|].
      intros E. by rewrite Hc.
    + intros [= <- <-]. exists [s]. split; [done|].
      split; [apply prefix_cons, prefix_nil|done].
    + intros [= <- <-]. exists [s]. split; [done|].
      split; [apply prefix_cons, prefix_nil|done].
Qed.

Lemma subscript_mod tier (r1 r2 : Z) (j : nat) :
  r1 mod Z.of_nat (length tier) = r2 mod Z.of_nat (length tier) ->
  subscript tier r1 j = subscript tier r2 j.
Proof.
  intros H. unfold subscript.
  by rewrite <- (Zplus_mod_idemp_l r1), <- (Zplus_mod_idemp_l r2), H.
Qed.

Lemma tier_loop_mod self tier paper path (r1 r2 : Z) logger js st :
  r1 mod Z.of_nat (length tier) = r2 mod Z.of_nat (length tier) ->
  tier_loop checker self tier paper path r1 logger js st
  = tier_loop checker self tier paper path r2 logger js st.
Proof.
  intros H. revert st. induction js as [|j js IH]; intros st; simpl; [done|].
  rewrite (subscript_mod tier r1 r2 j H).
  destruct (subscript tier r2 j) as [s|e]; [|done].
  destruct (attempt checker self s paper path logger st) as [st1 [|b|e]]; auto.
Qed.

(** The inner loop fetches first the strategy at position [i mod n]. *)
Lemma tier_loop_first self tier paper path i logger st st' fl visited :
  tier <> [] ->
  tier_loop checker self tier paper path i logger (seq 0 (length tier)) st
  = (st', fl) ->
  fetched (trace st') = fetched (trace st) ++ visited ->
  head visited = tier !! Z.to_nat (i mod Z.of_nat (length tier)).
Proof.
  intros Hne Hloop Hf.
  assert (Hn : (0 < length tier)%nat) by (destruct tier; [done|simpl; lia]).
  destruct (length tier) as [|n] eqn:Hlen; [lia|]. simpl in Hloop.
  rewrite <- Hlen in *.
  destruct (subscript_position tier i 0 Hne) as (s & Hsub & Hs).
  rewrite Hsub in Hloop.
  destruct (attempt checker self s paper path logger st) as [st1 fl1] eqn:Ha.
  apply attempt_fetched in Ha.
  assert (Hrest : exists rest, fetched (trace st') = fetched (trace st1) ++ rest).
  { destruct fl1 as [|b|e].
    - apply tier_loop_fetched in Hloop as (rest & Hrest & _); eauto.
    - injection Hloop as <- <-. exists []. by rewrite app_nil_r.
    - injection Hloop as <- <-. exists []. by rewrite app_nil_r. }
  destruct Hrest as [rest Hrest].
  rewrite Hrest, Ha, <- app_assoc in Hf. apply app_inv_head in Hf as <-.
  simpl. rewrite <- Hs. f_equal.
  pose proof (position_0 (length tier) i Hn). lia.
Qed.

(** [C7] For a tier of size [n > 0] and two orchestrations that go
    through it with rotation indices [r1] and [r2], whatever their
    records, reporters and states: when [r1] and [r2] are congruent
    modulo [n], the strategies the two fetch in the tier follow one and
    the same order, of which each fetches an initial part, the whole of
    it when control falls through the tier (and, started alike, the two
    do exactly the same); when they are not congruent, the first
    strategy each fetches is the one at position [r1 mod n] and
    [r2 mod n] of the tier, two different positions, and so, the
    entries of the tier being distinct, two different strategies. *)
Theorem rotation_congruence tier (r1 r2 : Z) self1 self2 paper1 paper2
    (path1 path2 : string) (logger1 logger2 : bool) st1 st2 st1' st2'
    (fl1 fl2 : Flow) :
  tier <> [] ->
  tier_loop checker self1 tier paper1 path1 r1 logger1 (seq 0 (length tier)) st1
  = (st1', fl1) ->
  tier_loop checker self2 tier paper2 path2 r2 logger2 (seq 0 (length tier)) st2
  = (st2', fl2) ->
  exists visited1 visited2,
    fetched (trace st1') = fetched (trace st1) ++ visited1 /\
    fetched (trace st2') = fetched (trace st2) ++ visited2 /\
    (r1 mod Z.of_nat (length tier) = r2 mod Z.of_nat (length tier) ->
     (exists order,
        visited1 `prefix_of` order /\ visited2 `prefix_of` order /\
        (fl1 = Continue -> visited1 = order) /\
        (fl2 = Continue -> visited2 = order)) /\
     forall self paper path logger (js : list nat) st,
       tier_loop checker self tier paper path r1 logger js st
       = tier_loop checker self tier paper path r2 logger js st) /\
    (r1 mod Z.of_nat (length tier) <> r2 mod Z.of_nat (length tier) ->
     head visited1 = tier !! Z.to_nat (r1 mod Z.of_nat (length tier)) /\
     head visited2 = tier !! Z.to_nat (r2 mod Z.of_nat (length tier)) /\
     Z.to_nat (r1 mod Z.of_nat (length tier))
     <> Z.to_nat (r2 mod Z.of_nat (length tier)) /\
     (NoDup tier -> head visited1 <> head visited2)).
Proof.
  intros Hne Hl1 Hl2.
  assert (Hn : (0 < length tier)%nat) by (destruct tier; [done|simpl; lia]).
  destruct (tier_loop_fetched _ _ _ _ _ _ _ _ _ _ Hne Hl1) as (v1 & Hf1 & Hp1 & Hc1).
  destruct (tier_loop_fetched _ _ _ _ _ _ _ _ _ _ Hne Hl2) as (v2 & Hf2 & Hp2 & Hc2).
  fold (tier_order tier r1) in Hp1, Hc1. fold (tier_order tier r2) in Hp2, Hc2.
  exists v1, v2. split; [done|]. split; [done|]. split.
  - intros Hmod. split.
    + exists (tier_order tier r2).
      rewrite (tier_order_mod tier r1 r2 Hmod) in Hp1, Hc1. by repeat split.
    + intros self paper path logger js st. by apply tier_loop_mod.
  - intros Hdiff.
    pose proof (tier_loop_first _ _ _ _ _ _ _ _ _ _ Hne Hl1 Hf1) as Hh1.
    pose proof (tier_loop_first _ _ _ _ _ _ _ _ _ _ Hne Hl2 Hf2) as Hh2.
    pose proof (Z.mod_pos_bound r1 (Z.of_nat (length tier))).
    pose proof (Z.mod_pos_bound r2 (Z.of_nat (length tier))).
    assert (Hpos : Z.to_nat (r1 mod Z.of_nat (length tier))
                   <> Z.to_nat (r2 mod Z.of_nat (length tier))) by lia.
    repeat split; [exact Hh1|exact Hh2|exact Hpos|].
    intros Hnd. rewrite Hh1, Hh2. intros Heq.
    destruct (lookup_lt_is_Some_2 tier (Z.to_nat (r1 mod Z.of_nat (length tier))))
      as [x Hx]; [lia|].
    apply Hpos. eapply NoDup_lookup; [exact Hnd|exact Hx|].
    rewrite <- Heq. exact Hx.
Qed.

Lemma tiers_loop_fetched self paper path i logger tiers st st' fl :
  Forall (fun tier => tier <> []) tiers ->
  tiers_loop checker self paper path i logger tiers st = (st', fl) ->
  exists visited,
    fetched (trace st') = fetched (trace st) ++ visited /\
    visited `prefix_of` mjoin ((fun tier => tier_order tier i) <$> tiers) /\
    (fl = Continue ->
     visited = mjoin ((fun tier => tier_order tier i) <$> tiers)).
Proof.
  intros Hne. revert st.
  induction Hne as [|tier tiers Ht _ IH]; intros st; simpl.
  - intros [= <- <-]. exists []. by rewrite app_nil_r.
  - destruct (tier_loop _ _ _ _ _ _ _ _ _) as [st1 fl1] eqn:Hl.
    apply tier_loop_fetched in Hl as (v1 & Hf1 & Hp1 & Hc1); [|done].
    fold (tier_order tier i) in Hp1, Hc1.
    destruct fl1 as [|b|e];
      [|intros [= <- <-]; exists v1; split; [done|];
        split; [by apply prefix_app_r|done]..].
    rewrite Hc1 in Hf1 by done.
    assert (Hrest : forall st2,
              fetched (trace st2) = fetched (trace st1) ->
              tiers_loop checker self paper path i logger tiers st2 = (st', fl) ->
              exists visited,
                fetched (trace st') = fetched (trace st) ++ visited /\
                visited `prefix_of`
                  tier_order tier i ++ mjoin ((fun t => tier_order t i) <$> tiers) /\
                (fl = Continue ->
                 visited =
                   tier_order tier i ++ mjoin ((fun t => tier_order t i) <$> tiers))).
    { intros st2 E H. apply IH in H as (v2 & Hf2 & Hp2 & Hc2).
      exists (tier_order tier i ++ v2). rewrite Hf2, E, Hf1, <- app_assoc.
      split; [done|]. split; [by apply prefix_app|].
      intros E'. by rewrite Hc2. }
    destruct (callback self) as [cb|]; [|by apply Hrest].
    destruct (await_callback cb paper st1) as [st2 r] eqn:Hcb.
    apply await_callback_trace in Hcb as Htr2.
    assert (E : fetched (trace st2) = fetched (trace st1)).
    { rewrite Htr2, fetched_app. apply app_nil_r. }
    destruct r as [u|e]; [by apply Hrest|].
    intros [= <- <-]. exists (tier_order tier i). rewrite E.
    split; [done|]. split; [|done]. apply prefix_app_r. reflexivity.
Qed.

Lemma tier_of_nonempty l p : p ∈ sorted_priorities l -> tier_of l p <> [].
Proof.
  intros Hp. apply elem_of_sorted_priorities in Hp as (s & Hs & <-).
  intros Hnil. assert (Hin : s ∈ tier_of l (priority s)).
  { unfold tier_of. by apply list_elem_of_filter. }
  rewrite Hnil in Hin. by apply not_elem_of_nil in Hin.
Qed.

Lemma tiers_of_nonempty l : Forall (fun tier => tier <> []) (tiers_of l).
Proof.
  unfold tiers_of. apply Forall_fmap, Forall_forall. intros p Hp.
  by apply tier_of_nonempty.
Qed.

Lemma StronglySorted_reverse {A} (R : A -> A -> Prop) (xs : list A) :
  StronglySorted R xs -> StronglySorted (flip R) (reverse xs).
Proof.
  induction 1 as [|x xs _ IH Hall]; [constructor|].
  rewrite reverse_cons. apply StronglySorted_app_2; [|done|by repeat constructor].
  intros y z Hy Hz. apply list_elem_of_singleton in Hz as ->.
  rewrite elem_of_reverse in Hy. rewrite Forall_forall in Hall.
  unfold flip. by apply Hall.
Qed.

Lemma scrape_fetched self paper path i logger (w : W) st (res : Res bool) :
  plan_in_sync self ->
  scrape checker self paper path i logger w = (st, res) ->
  fetched (trace st) `prefix_of` visit_order self i /\
  (res = Ret false -> fetched (trace st) = visit_order self i).
Proof.
  intros Hsync Hrun. unfold scrape in Hrun.
  destruct (tiers_loop _ _ _ _ _ _ _ _) as [st1 fl] eqn:Hloop.
  destruct (tiers_loop_run_ok _ _ _ _ _ _ _ _ _ Hloop) as (evs & _ & Hok).
  apply tiers_loop_fetched in Hloop as (visited & Hf & Hp & Hc).
  2: { apply Forall_reverse. rewrite Hsync. apply tiers_of_nonempty. }
  simpl in Hf. fold (visit_order self i) in Hp, Hc.
  destruct fl as [|b|e]; injection Hrun as <- <-; rewrite Hf;
    (split; [done|]).
  - intros _. by apply Hc.
  - destruct Hok as [-> _]. discriminate.
  - discriminate.
Qed.

(** [C2] After any sequence of registrations and for every rotation
    index [i]: the tiers, in the order [scrape] goes through them, are
    the strategies of strictly descending priorities, each tier holding
    all the strategies of its priority and none other; within a tier of
    size [n] the strategy read at offset [0 <= offset < n] is the one at
    position [(i + offset) mod n]; and the strategies an orchestration
    fetches are, in order, a prefix of this plan, the whole of it when
    [scrape] returns [False]. *)
Theorem scrape_follows_rotated_plan cb (calls : list (RegisterCall W Session))
    paper path i logger (w : W) st (res : Res bool) :
  scrape checker (register_all new_session (Scraper_init cb) calls)
    paper path i logger w = (st, res) ->
  (exists ps : list Z,
     StronglySorted (fun p q => q < p) ps /\
     Forall2 (fun p tier =>
                tier <> [] /\
                tier = tier_of (scrapers (register_all new_session
                                           (Scraper_init cb) calls)) p)
       ps (reverse (sorted_scrapers (register_all new_session
                                       (Scraper_init cb) calls)))) /\
  (forall tier,
     tier ∈ sorted_scrapers (register_all new_session (Scraper_init cb) calls) ->
     length (tier_order tier i) = length tier /\
     forall offset : nat,
       (offset < length tier)%nat ->
       tier_order tier i !! offset
       = tier !! Z.to_nat ((i + Z.of_nat offset) mod Z.of_nat (length tier))) /\
  fetched (trace st)
    `prefix_of` visit_order (register_all new_session (Scraper_init cb) calls) i /\
  (res = Ret false ->
   fetched (trace st)
   = visit_order (register_all new_session (Scraper_init cb) calls) i).
Proof.
  set (self := register_all new_session (Scraper_init cb) calls).
  pose proof (register_all_in_sync cb calls) as Hsync. fold self in Hsync.
  intros Hrun. split; [|split].
  - exists (reverse (sorted_priorities (scrapers self))). split.
    + exact (StronglySorted_reverse _ _ (sorted_priorities_ascending (scrapers self))).
    + rewrite Hsync. unfold tiers_of. rewrite <- fmap_reverse.
      apply Forall2_fmap_r, Forall_Forall2_diag, Forall_forall.
      intros p Hp. rewrite elem_of_reverse in Hp.
      split; [by apply tier_of_nonempty|done].
  - intros tier _. split; [apply tier_order_length|].
    intros offset Hoff. by apply tier_order_lookup.
  - eapply scrape_fetched; [exact Hsync|exact Hrun].
Qed.


(** *** Exceptions *)





(** *** Exhaustion *)

Lemma mark_all_keeps_failed m l (n : string) :
  m !! n = Some failed -> mark_all m l !! n = Some failed.
Proof.
  revert m. induction l as [|x l IH]; intros m Hm; [done|]. simpl.
  apply IH. destruct (decide (name x = n)) as [<-|Hne].
  - apply lookup_insert_eq.
  - by rewrite lookup_insert_ne.
Qed.

Lemma mark_all_lookup m l s : s ∈ l -> mark_all m l !! name s = Some failed.
Proof.
  revert m. induction l as [|x l IH]; intros m Hs; [by apply not_elem_of_nil in Hs|].
  apply elem_of_cons in Hs as [->|Hs]; simpl; [|by apply IH].
  apply mark_all_keeps_failed, lookup_insert_eq.
Qed.

Lemma reported_app (tr1 tr2 : list (Event W Session)) :
  reported (tr1 ++ tr2) = reported tr1 ++ reported tr2.
Proof. apply omap_app. Qed.

Lemma all_fail_app_r path logger evs1 evs2 :
  all_fail path logger (evs1 ++ evs2) -> all_fail path logger evs2.
Proof.
  intros H pre s r post ->. apply (H (evs1 ++ pre) s r post).
  by rewrite <- app_assoc.
Qed.

Lemma reports_return_app evs1 evs2 :
  reports_return (evs1 ++ evs2) -> reports_return evs1 /\ reports_return evs2.
Proof.
  intros H. split; intros t m m' e Hin; apply (H t m m' e), elem_of_app; auto.
Qed.

Ltac failed_leaf Hrun Htr Hall :=
  injection Hrun as <- <-; simpl in Htr; rewrite <- ?app_assoc in Htr;
  simpl in Htr; apply app_inv_head in Htr; subst;
  let Hf := fresh "Hf" in
  pose proof (Hall [] _ _ _ eq_refl) as Hf; simpl in Hf;
  first
    [ by repeat split
    | exfalso; congruence
    | exfalso; destruct Hf as [?|(? & c & [= <-] & ?)]; congruence
    | exfalso; destruct Hf as [?|(? & _)]; congruence ].

(** A strategy whose fetch fails: control falls through, the strategy
    is marked failed and nothing is reported. *)
Lemma attempt_failed self s paper path logger st st' fl evs more :
  attempt checker self s paper path logger st = (st', fl) ->
  trace st' = trace st ++ evs ->
  all_fail path logger (evs ++ more) ->
  fl = Continue /\
  scrape_result st' = <[name s := failed]> (scrape_result st) /\
  reported evs = [].
Proof.
  unfold attempt, try_body. intros Hrun Htr Hall.
  destruct (fn_call _ _ _ _ _) as [w1 [v|e]]; simpl in Hrun.
  2: { destruct (is_Exception e) eqn:He; destruct logger;
         failed_leaf Hrun Htr Hall. }
  destruct (truthy v) eqn:Hv; simpl in Hrun; [|failed_leaf Hrun Htr Hall].
  unfold validated in Hrun. destruct (check_pdf s) eqn:Hc; simpl in Hrun.
  - destruct (checker _ _ _) as [w2 [v'|e']]; simpl in Hrun.
    + destruct (truthy v') eqn:Hv'; [|failed_leaf Hrun Htr Hall].
      unfold await_callback in Hrun; simpl in Hrun.
      destruct (callback self) as [cb|]; simpl in Hrun.
      * destruct (cb _ _ _) as [[w4 m4] [[]|e4]]; simpl in Hrun;
          [|destruct (is_Exception e4)]; destruct logger;
          failed_leaf Hrun Htr Hall.
      * destruct logger; failed_leaf Hrun Htr Hall.
    + destruct (is_Exception e') eqn:He; destruct logger;
        failed_leaf Hrun Htr Hall.
  - unfold await_callback in Hrun; simpl in Hrun.
    destruct (callback self) as [cb|]; simpl in Hrun.
    + destruct (cb _ _ _) as [[w4 m4] [[]|e4]]; simpl in Hrun;
        [|destruct (is_Exception e4)]; destruct logger;
        failed_leaf Hrun Htr Hall.
    + destruct logger; failed_leaf Hrun Htr Hall.
Qed.

Lemma tier_loop_failed self tier paper path i logger js st st' fl evs more :
  tier <> [] ->
  tier_loop checker self tier paper path i logger js st = (st', fl) ->
  trace st' = trace st ++ evs ->
  all_fail path logger (evs ++ more) ->
  fl = Continue /\
  scrape_result st'
  = mark_all (scrape_result st)
      (omap (fun j => tier !! position (length tier) i j) js) /\
  reported evs = [].
Proof.
  intros Hne. revert st evs. induction js as [|j js IH]; intros st evs; simpl.
  - intros [= <- <-] Htr _. rewrite <- (app_nil_r (trace st)) in Htr at 1.
    apply app_inv_head in Htr as <-. done.
  - destruct (subscript_position tier i j Hne) as (s & -> & Hs). rewrite Hs.
    destruct (attempt checker self s paper path logger st) as [st1 fl1] eqn:Ha.
    destruct (attempt_shape _ _ _ _ _ _ _ _ Ha) as (r & tail & Htr1 & _ & _).
    destruct fl1 as [|b|e].
    + intros Hloop Htr Hall.
      destruct (tier_loop_run_ok _ _ _ _ _ _ _ _ _ _ Hloop) as (evs2 & Htr2 & _).
      rewrite Htr2, Htr1, <- app_assoc in Htr. apply app_inv_head in Htr as <-.
      rewrite <- app_assoc in Hall.
      destruct (attempt_failed _ _ _ _ _ _ _ _ _ _ Ha Htr1 Hall) as (_ & Hm1 & Hr1).
      destruct (IH st1 evs2 Hloop Htr2) as (-> & Hm2 & Hr2).
      { by apply all_fail_app_r in Hall. }
      split; [done|]. split.
      * simpl. by rewrite Hm2, Hm1.
      * by rewrite reported_app, Hr1, Hr2.
    + intros [= <- <-] Htr Hall. rewrite Htr1 in Htr.
      apply app_inv_head in Htr as <-.
      by destruct (attempt_failed _ _ _ _ _ _ _ _ _ _ Ha Htr1 Hall) as (? & _).
    + intros [= <- <-] Htr Hall. rewrite Htr1 in Htr.
      apply app_inv_head in Htr as <-.
      by destruct (attempt_failed _ _ _ _ _ _ _ _ _ _ Ha Htr1 Hall) as (? & _).
Qed.

Lemma elem_of_tier_order tier i s : s ∈ tier -> s ∈ tier_order tier i.
Proof.
  intros Hs. apply list_elem_of_lookup in Hs as [k Hk].
  pose proof (lookup_lt_Some _ _ _ Hk) as Hlt.
  destruct (position_onto (length tier) i k Hlt) as (j & Hj & Hpos).
  apply list_elem_of_lookup. exists j.
  rewrite tier_order_lookup by done. by rewrite Hpos.
Qed.

Lemma tiers_loop_failed self paper path i logger tiers st st' fl evs :
  Forall (fun tier => tier <> []) tiers ->
  tiers_loop checker self paper path i logger tiers st = (st', fl) ->
  trace st' = trace st ++ evs ->
  all_fail path logger evs ->
  reports_return evs ->
  fl = Continue /\
  match callback self with
  | Some _ => Forall2 (tier_report paper) tiers (reported evs)
  | None => reported evs = []
  end /\
  (Forall reads_only evs ->
   scrape_result st'
   = mark_all (scrape_result st) (mjoin ((fun t => tier_order t i) <$> tiers))).
Proof.
  intros Hne. revert st evs.
  induction Hne as [|tier tiers Ht _ IH]; intros st evs; simpl.
  - intros [= <- <-] Htr _ _. rewrite <- (app_nil_r (trace st)) in Htr at 1.
    apply app_inv_head in Htr as <-. by destruct (callback self).
  - destruct (tier_loop _ _ _ _ _ _ _ _ _) as [st1 fl1] eqn:Hl.
    destruct (tier_loop_run_ok _ _ _ _ _ _ _ _ _ _ Hl) as (evs1 & Htr1 & _).
    assert (Hstop : fl1 <> Continue -> (st1, fl1) = (st', fl) ->
                    trace st' = trace st ++ evs -> all_fail path logger evs -> False).
    { intros Hfl [= <- <-] Htr Hall. rewrite Htr1 in Htr.
      apply app_inv_head in Htr as <-.
      rewrite <- (app_nil_r evs1) in Hall.
      by destruct (tier_loop_failed _ _ _ _ _ _ _ _ _ _ _ [] Ht Hl Htr1 Hall)
        as (? & _). }
    destruct fl1 as [|b|e];
      [|intros H1 H2 H3 _; exfalso; by eapply Hstop..].
    clear Hstop.
    destruct (callback self) as [cb|] eqn:Hcb.
    + destruct (await_callback cb paper st1) as [st2 r] eqn:Hrep.
      apply await_callback_trace in Hrep as Htr2.
      destruct r as [u|e].
      * intros Hloop Htr Hall Hret.
        destruct (tiers_loop_run_ok _ _ _ _ _ _ _ _ _ Hloop) as (evs3 & Htr3 & _).
        rewrite Htr3, Htr2, Htr1, <- !app_assoc in Htr.
        apply app_inv_head in Htr as <-.
        destruct (tier_loop_failed _ _ _ _ _ _ _ _ _ _ _ _ Ht Hl Htr1 Hall)
          as (_ & Hm1 & Hr1).
        fold (tier_order tier i) in Hm1.
        apply all_fail_app_r in Hall.
        apply (all_fail_app_r _ _ [_]) in Hall.
        apply reports_return_app in Hret as [_ Hret].
        apply (reports_return_app [_]) in Hret as [_ Hret].
        destruct (IH st2 evs3 Hloop Htr3 Hall Hret) as (-> & Hreps & Hmap).
        split; [done|]. split.
        -- rewrite reported_app, Hr1. simpl. constructor; [|done].
           split; [done|]. simpl. intros s Hs. rewrite Hm1.
           by apply mark_all_lookup, elem_of_tier_order.
        -- intros Hro. apply reads_only_app in Hro as [_ Hro].
           inversion Hro as [|? ? Hev Hro3]; subst. simpl in Hev.
           rewrite (Hmap Hro3), Hev, Hm1. unfold mark_all.
           by rewrite foldl_app.
      * intros [= <- <-] Htr _ Hret. exfalso.
        rewrite Htr2, Htr1, <- app_assoc in Htr. apply app_inv_head in Htr as <-.
        eapply Hret. apply elem_of_app. right. left.
    + intros Hloop Htr Hall Hret.
      destruct (tiers_loop_run_ok _ _ _ _ _ _ _ _ _ Hloop) as (evs3 & Htr3 & _).
      rewrite Htr3, Htr1, <- app_assoc in Htr. apply app_inv_head in Htr as <-.
      destruct (tier_loop_failed _ _ _ _ _ _ _ _ _ _ _ _ Ht Hl Htr1 Hall)
        as (_ & Hm1 & Hr1).
      fold (tier_order tier i) in Hm1.
      apply all_fail_app_r in Hall.
      apply reports_return_app in Hret as [_ Hret].
      destruct (IH st1 evs3 Hloop Htr3 Hall Hret) as (-> & Hreps & Hmap).
      split; [done|]. split.
      * by rewrite reported_app, Hr1, Hreps.
      * intros Hro. apply reads_only_app in Hro as [_ Hro].
        rewrite (Hmap Hro), Hm1. unfold mark_all. by rewrite foldl_app.
Qed.

(** [C5] (amended) After any sequence of registrations, in a run of
    [scrape] in which every fetch made fails (it returns a falsy value,
    or raises an [Exception], or the validator the strategy asks for
    does not approve) and every reporter call returns: [scrape] returns
    [False]; every registered strategy has been fetched, in the order
    of the rotated plan; the reporter has been invoked once per tier,
    in the order of the tiers, each time with a map that shows all the
    strategies of that tier as failed; and, the reporter having left
    the map as it was handed, every registered strategy is marked
    failed in the outcome map at the end. *)
Theorem exhaustion_marks_all_failed cb (calls : list (RegisterCall W Session))
    paper path i logger (w : W) st (res : Res bool) :
  scrape checker (register_all new_session (Scraper_init cb) calls)
    paper path i logger w = (st, res) ->
  all_fail path logger (trace st) ->
  reports_return (trace st) ->
  res = Ret false /\
  fetched (trace st)
  = visit_order (register_all new_session (Scraper_init cb) calls) i /\
  match callback (register_all new_session (Scraper_init cb) calls) with
  | Some _ =>
      Forall2 (tier_report paper)
        (reverse (sorted_scrapers (register_all new_session (Scraper_init cb) calls)))
        (reported (trace st))
  | None => reported (trace st) = []
  end /\
  (Forall reads_only (trace st) ->
   forall s, s ∈ scrapers (register_all new_session (Scraper_init cb) calls) ->
             scrape_result st !! name s = Some failed).
Proof.
  set (self := register_all new_session (Scraper_init cb) calls).
  pose proof (register_all_in_sync cb calls) as Hsync. fold self in Hsync.
  intros Hrun Hfail Hret.
  pose proof (scrape_fetched self paper path i logger w st res Hsync Hrun)
    as [_ Hvisit].
  unfold scrape in Hrun.
  destruct (tiers_loop _ _ _ _ _ _ _ _) as [st1 fl] eqn:Hloop.
  assert (Hst : st1 = st) by (destruct fl; by injection Hrun as <- _).
  subst st1.
  assert (Hne : Forall (fun tier => tier <> []) (reverse (sorted_scrapers self))).
  { apply Forall_reverse. rewrite Hsync. apply tiers_of_nonempty. }
  destruct (tiers_loop_failed self paper path i logger _ _ _ _ (trace st)
              Hne Hloop eq_refl Hfail Hret) as (-> & Hreps & Hmap).
  injection Hrun as <-.
  split; [done|]. split; [by apply Hvisit|]. split; [exact Hreps|].
  intros Hro s Hs. rewrite (Hmap Hro). simpl. apply mark_all_lookup.
  fold (visit_order self i).
  rewrite <- (tiers_of_perm (scrapers self)), <- Hsync in Hs.
  apply list_elem_of_join in Hs as (tier & Hs & Ht).
  unfold visit_order. apply list_elem_of_join.
  exists (tier_order tier i). split; [by apply elem_of_tier_order|].
  apply list_elem_of_fmap. exists tier. split; [done|].
  by rewrite elem_of_reverse.
Qed.

(** ** The batch scheduler *)

Lemma gather_seq_returns_all : gather_returns_all (W := W) gather_seq.
Proof.
  intros tasks. induction tasks as [|t ts IH]; intros w0 w1 rs; simpl.
  - by intros [= <- <-].
  - destruct (t w0) as [w2 r]. destruct (gather_seq ts w2) as [w3 rs'] eqn:E.
    destruct r as [a|e]; [|done]. destruct rs' as [l|e]; [|done].
    intros [= <- <-]. simpl. f_equal. by eapply IH.
Qed.

Lemma window_enumerate papers (bs : Z) (n : nat) :
  0 < bs ->
  window papers bs (Z.of_nat n * bs)
  = take (Z.to_nat bs) (drop (n * Z.to_nat bs) (enumerate papers)).
Proof.
  intros Hbs. unfold window, slice, enumerate.
  replace (Z.to_nat (Z.of_nat n * bs + bs - Z.of_nat n * bs)) with (Z.to_nat bs)
    by (f_equal; lia).
  replace (Z.to_nat (Z.of_nat n * bs)) with (n * Z.to_nat bs)%nat by nia.
  apply list_eq. intros j.
  rewrite list_lookup_imap, !lookup_take, !lookup_drop, list_lookup_imap.
  case_decide; [|done].
  destruct (papers !! _); simpl; [|done]. do 2 f_equal. nia.
Qed.

Lemma windows_join {A} (xs : list A) (b k : nat) :
  mjoin ((fun n => take b (drop (n * b) xs)) <$> seq 0 k) = take (k * b) xs.
Proof.
  induction k as [|k IH]; [done|].
  rewrite seq_S, fmap_app, join_app, IH. simpl. rewrite app_nil_r.
  rewrite take_take_drop. f_equal. lia.
Qed.

Lemma map_size_union_le (m1 m2 : gmap string Paper) :
  (size (m1 ∪ m2) <= size m1 + size m2)%nat.
Proof.
  rewrite <- !(size_dom (D := gset string)), dom_union_L, size_union_alt.
  apply Nat.add_le_mono_l, subseteq_size, subseteq_difference_l. reflexivity.
Qed.

Lemma collect_size rs : (size (collect rs) <= length rs)%nat.
Proof.
  unfold collect.
  assert (H : forall m : gmap string Paper,
            (size (foldl (fun m r => match r with
                                     | Some (k, v) => <[k := v]> m
                                     | None => m
                                     end) m rs) <= size m + length rs)%nat).
  { induction rs as [|r rs IH]; intros m; simpl; [lia|].
    etransitivity; [apply IH|].
    destruct r as [[k v]|]; [|lia].
    rewrite map_size_insert. destruct (m !! k); simpl; lia. }
  specialize (H ∅). by rewrite map_size_empty in H.
Qed.

Lemma batch_loop_launched (gather : Gather W) self papers dir parser
    (bs : Z) (limit : option Z) logger (starts : list Z)
    (st st' : BatchSt W) (res : Res unit) :
  gather_returns_all gather ->
  batch_loop checker gather self papers dir parser bs limit logger starts st
  = (st', res) ->
  exists k : nat,
    (k <= length starts)%nat /\
    launched st' = launched st ++ (window papers bs <$> take k starts) /\
    (size (aggregated st')
     <= size (aggregated st)
        + length (mjoin (window papers bs <$> take k starts)))%nat /\
    ((k < length starts)%nat ->
     match res with
     | Ret _ => limit_reached limit (aggregated st') = true
     | Raise _ => True
     end).
Proof.
  intros Hg. revert st. induction starts as [|i rest IH]; intros st; simpl.
  - intros [= <- <-]. exists 0%nat. rewrite app_nil_r. simpl.
    split; [lia|]. split; [done|]. split; lia.
  - destruct (gather _ _) as [w [rs|e]] eqn:Hgather.
    2: { intros [= <- <-]. exists 1%nat. simpl. rewrite ?take_0. simpl.
         rewrite app_nil_r. split; [lia|]. split; [done|]. split; [lia|done]. }
    apply Hg in Hgather. rewrite length_fmap in Hgather.
    pose proof (collect_size rs) as Hc.
    pose proof (map_size_union_le (collect rs) (aggregated st)) as Hu.
    destruct (limit_reached limit (collect rs ∪ aggregated st)) eqn:Hl.
    + intros [= <- <-]. exists 1%nat. simpl. rewrite ?take_0. simpl.
      rewrite app_nil_r. split; [lia|]. split; [done|]. split; [lia|done].
    + intros H. apply IH in H as (k & Hk & Hlaunched & Hsize & Hstop).
      exists (S k). csimpl in *. rewrite Hlaunched, <- app_assoc.
      rewrite length_app. split; [lia|]. split; [done|]. split; [lia|].
      intros Hlt. apply Hstop. lia.
Qed.

(** [C8] With a positive [batch_size], and a [gather] that returns one
    result per awaitable: [batch_scrape] launches the first [k] windows
    of the input and no other, window [n] being the records
    [papers[n * batch_size : (n + 1) * batch_size]], each paired with its
    position in the whole input, which is the rotation index its
    orchestration is called with.  When [batch_scrape] returns, the result
    has at most as many entries as there are records in the windows
    launched, and, if records are left over, it is that the limit was
    reached.  And the loop stops at once after a window that brings the
    number of entries to the limit or above: no window further on is
    started. *)
Theorem batch_scrape_windows (gather : Gather W) self papers
    (paper_file_dump_dir : string) (paper_parser : option (Paper -> Task W Paper))
    (batch_size : Z) (limit : option Z) logger (w : W)
    (st : BatchSt W) (res : Res (gmap string Paper)) :
  0 < batch_size ->
  gather_returns_all gather ->
  batch_scrape checker gather self papers paper_file_dump_dir paper_parser
    batch_size limit logger w = (st, res) ->
  (exists k : nat,
     launched st
     = (fun n : nat =>
          imap (fun j p => (p, Z.of_nat n * batch_size + Z.of_nat j))
            (slice papers (Z.of_nat n * batch_size)
               (Z.of_nat n * batch_size + batch_size))) <$> seq 0 k /\
     mjoin (launched st) = take (k * Z.to_nat batch_size) (enumerate papers) /\
     forall agg,
       res = Ret agg ->
       agg = aggregated st /\
       (size agg <= length (mjoin (launched st)))%nat /\
       ((k * Z.to_nat batch_size < length papers)%nat ->
        limit_reached limit agg = true)) /\
  (forall (p : Paper) (i : Z) (w0 : W),
     scrape_parse checker self paper_file_dump_dir paper_parser logger p i w0
     = match scrape checker self p
               (path_join paper_file_dump_dir (paperId p +:+ ".pdf"))
               i logger w0 with
       | (s1, Raise e) => (world s1, Raise e)
       | (s1, Ret false) => (world s1, Ret None)
       | (s1, Ret true) =>
           match parser_of paper_parser p (world s1) with
           | (w', Ret parsed) =>
               (w', Ret (Some (path_join paper_file_dump_dir
                                 (paperId p +:+ ".pdf"), parsed)))
           | (w', Raise e) => (w', Raise e)
           end
       end) /\
  (forall (i : Z) (rest : list Z) (st0 : BatchSt W) (w1 : W) rs,
     gather ((fun pk => scrape_parse checker self paper_file_dump_dir
                          paper_parser logger pk.1 pk.2)
               <$> window papers batch_size i) (bworld st0) = (w1, Ret rs) ->
     limit_reached limit (collect rs ∪ aggregated st0) = true ->
     batch_loop checker gather self papers paper_file_dump_dir paper_parser
       batch_size limit logger (i :: rest) st0
     = ({| bworld := w1;
           aggregated := collect rs ∪ aggregated st0;
           launched := launched st0 ++ [window papers batch_size i] |},
        Ret tt)).
Proof.
  intros Hbs Hg Hrun. split; [|split].
  - unfold batch_scrape, range_step in Hrun.
    destruct (Z.eqb_spec batch_size 0) as [?|_]; [lia|].
    destruct (Z.ltb_spec batch_size 0) as [?|_]; [lia|].
    set (total := Z.to_nat ((Z.of_nat (length papers) + batch_size - 1)
                            / batch_size)) in Hrun.
    destruct (batch_loop _ _ _ _ _ _ _ _ _ _ _) as [st1 r] eqn:Hloop.
    apply batch_loop_launched in Hloop as (k & Hk & Hlaunched & Hsize & Hstop);
      [|done].
    simpl in Hlaunched, Hsize. rewrite length_fmap, length_seq in Hk, Hstop.
    rewrite <- fmap_take, take_seq, <- list_fmap_compose in Hlaunched, Hsize.
    rewrite Nat.min_l in Hlaunched, Hsize by done.
    assert (Hst : launched st1
                  = (fun n : nat => take (Z.to_nat batch_size)
                                      (drop (n * Z.to_nat batch_size)
                                         (enumerate papers))) <$> seq 0 k).
    { rewrite Hlaunched. apply list_fmap_ext. intros j n _. simpl.
      by apply window_enumerate. }
    assert (Hjoin : mjoin (launched st1)
                    = take (k * Z.to_nat batch_size) (enumerate papers)).
    { rewrite Hst. apply windows_join. }
    assert (Hres : st = st1) by (destruct r; by injection Hrun as <- _).
    subst st. exists k. split; [exact Hlaunched|]. split; [exact Hjoin|].
    intros agg ->. destruct r as [u|e]; [|done]. injection Hrun as <-.
    split; [done|]. split.
    + rewrite Hlaunched. rewrite map_size_empty in Hsize. exact Hsize.
    + intros Hleft. apply Hstop. unfold total.
      apply Nat2Z.inj_lt. rewrite Z2Nat.id.
      2: { apply Z.div_pos; lia. }
      assert (Z.of_nat k + 1
              <= (Z.of_nat (length papers) + batch_size - 1) / batch_size)
        by (apply Z.div_le_lower_bound; nia).
      lia.
  - intros p i w0. reflexivity.
  - intros i rest st0 w1 rs Hgather Hl. simpl. rewrite Hgather. simpl.
    by rewrite Hl.
Qed.

End Properties.

(** * Further properties *)

Section MoreProperties.

Context {W Session : Type}.

Variable new_session : option Q -> Session.
Variable checker : string -> bool -> W -> W * Res pyval.
Variable session_close : Session -> W -> W * Res unit.

Implicit Types (self : Scraper W Session) (s scraper : ScraperFunction W Session).
Implicit Types (l tier : list (ScraperFunction W Session)) (st : St W Session).
Implicit Types (paper : Paper) (path : string) (i : Z) (logger : bool).
Implicit Types (evs tail pre post : list (Event W Session)).
Implicit Types (calls : list (RegisterCall W Session)).

(** ** The registry *)

Lemma call_register_Some self (c : RegisterCall W Session) (n : string) :
  effective_name c = Some n ->
  call_register new_session self c
  = Ret {| scrapers := sort_by_priority (scrapers self ++ [registered new_session c n]);
           sorted_scrapers :=
             tiers_of (sort_by_priority (scrapers self ++ [registered new_session c n]));
           callback := callback self |}.
Proof.
  unfold effective_name, call_register, register_scraper.
  destruct (rc_name c) as [m|]; [|destruct (fn_name (rc_func c)) as [f|]];
    simpl; intros [= <-]; reflexivity.
Qed.

Lemma call_register_None self (c : RegisterCall W Session) :
  effective_name c = None ->
  call_register new_session self c = Raise AttributeError.
Proof.
  unfold effective_name, call_register, register_scraper.
  destruct (rc_name c) as [m|]; [|destruct (fn_name (rc_func c)) as [f|]];
    simpl; intros [=]; reflexivity.
Qed.

Lemma insert_by_priority_sorted (x : ScraperFunction W Session) l :
  StronglySorted not_below l -> StronglySorted not_below (insert_by_priority x l).
Proof.
  induction 1 as [|y l Hl IH Hall]; simpl; [by repeat constructor|].
  destruct (Z.ltb_spec (priority x) (priority y)) as [Hlt|Hge].
  - constructor; [exact IH|].
    rewrite insert_by_priority_perm. constructor; [unfold not_below; lia|done].
  - constructor; [by constructor|].
    constructor; [exact Hge|].
    eapply Forall_impl; [exact Hall|]. unfold not_below. intros z Hz. lia.
Qed.

Lemma sort_by_priority_sorted l : StronglySorted not_below (sort_by_priority l).
Proof.
  induction l as [|x l IH]; simpl; [constructor|].
  by apply insert_by_priority_sorted.
Qed.

Lemma call_register_sorted self (c : RegisterCall W Session) self' :
  call_register new_session self c = Ret self' ->
  StronglySorted not_below (scrapers self').
Proof.
  intros Hreg. destruct (effective_name c) as [n|] eqn:En.
  - rewrite (call_register_Some _ _ _ En) in Hreg. injection Hreg as <-.
    apply sort_by_priority_sorted.
  - by rewrite (call_register_None _ _ En) in Hreg.
Qed.

(** [X1] After any sequence of registrations the strategy list is sorted
    by priority, highest first. *)
Theorem scrapers_sorted_descending cb calls :
  StronglySorted not_below
    (scrapers (register_all new_session (Scraper_init cb) calls)).
Proof.
  apply (register_all_ind new_session
           (fun r => StronglySorted not_below (scrapers r))); [constructor|].
  intros r0 c r1 _ Hreg. by eapply call_register_sorted.
Qed.

Lemma insert_by_priority_head (y : ScraperFunction W Session) l :
  (forall z, head l = Some z -> priority z <= priority y) ->
  insert_by_priority y l = y :: l.
Proof.
  destruct l as [|z l]; [done|]. simpl. intros H.
  destruct (Z.ltb_spec (priority y) (priority z)) as [Hlt|_]; [|done].
  specialize (H z eq_refl). lia.
Qed.

Lemma filter_all_below (p : Z) l :
  Forall (fun z => priority z < p) l ->
  filter (fun s => p <= priority s) l = [] /\
  filter (fun s => priority s < p) l = l.
Proof.
  induction 1 as [|z l Hz _ [IH1 IH2]]; [done|].
  rewrite !filter_cons.
  destruct (decide (p <= priority z)); [lia|].
  destruct (decide (priority z < p)); [|lia].
  by rewrite IH1, IH2.
Qed.

Lemma sort_by_priority_snoc (x : ScraperFunction W Session) l :
  StronglySorted not_below l ->
  sort_by_priority (l ++ [x])
  = filter (fun s => priority x <= priority s) l
    ++ x :: filter (fun s => priority s < priority x) l.
Proof.
  unfold sort_by_priority. rewrite foldr_app. simpl.
  induction 1 as [|y l Hl IH Hall]; [done|]. simpl. rewrite IH.
  rewrite !filter_cons.
  destruct (decide (priority x <= priority y)) as [Hge|Hlt].
  - destruct (decide (priority y < priority x)); [lia|].
    apply insert_by_priority_head. intros z Hz.
    destruct (filter (fun s => priority x <= priority s) l) as [|z' k] eqn:Hk;
      simpl in Hz; injection Hz as <-; [lia|].
    assert (Hin : z' ∈ filter (fun s => priority x <= priority s) l)
      by (rewrite Hk; left).
    apply list_elem_of_filter in Hin as [_ Hin].
    rewrite Forall_forall in Hall. by apply Hall.
  - destruct (decide (priority y < priority x)); [|lia].
    destruct (filter_all_below (priority x) l) as [-> ->].
    { eapply Forall_impl; [exact Hall|]. unfold not_below. intros z Hz. lia. }
    simpl. destruct (Z.ltb_spec (priority y) (priority x)); [|lia].
    f_equal. apply insert_by_priority_head. intros z Hz.
    destruct l as [|z' l']; simpl in Hz; [done|]. injection Hz as <-.
    by inversion Hall.
Qed.

(** [X2] On a registry built by registrations, a registration that has a
    name puts the new strategy after every registered strategy of the
    same or a higher priority and before those of a lower one, and
    moves no other: the strategies of one priority stay in the order of
    their registration. *)
Theorem register_scraper_position cb calls (c : RegisterCall W Session)
    (n : string) :
  effective_name c = Some n ->
  exists self',
    call_register new_session
      (register_all new_session (Scraper_init cb) calls) c = Ret self' /\
    scrapers self'
    = filter (fun s => priority (registered new_session c n) <= priority s)
        (scrapers (register_all new_session (Scraper_init cb) calls))
      ++ registered new_session c n
      :: filter (fun s => priority s < priority (registered new_session c n))
           (scrapers (register_all new_session (Scraper_init cb) calls)).
Proof.
  intros En. eexists. split; [by apply call_register_Some|]. simpl.
  apply sort_by_priority_snoc.
  apply (register_all_ind new_session
           (fun r => StronglySorted not_below (scrapers r))); [constructor|].
  intros r0 c0 r1 _ Hreg. by eapply call_register_sorted.
Qed.

Lemma register_all_contents cb calls :
  scrapers (register_all new_session (Scraper_init cb) calls)
    ≡ₚ omap (registration new_session) calls /\
  callback (register_all new_session (Scraper_init cb) calls) = cb.
Proof.
  induction calls as [|c calls [IHs IHc]] using rev_ind; [done|].
  rewrite register_all_snoc, omap_app. simpl. unfold registration at 2.
  destruct (effective_name c) as [n|] eqn:En; simpl.
  - rewrite (call_register_Some _ _ _ En). simpl.
    split; [|exact IHc]. by rewrite sort_by_priority_perm, IHs.
  - rewrite (call_register_None _ _ En). rewrite app_nil_r. by split.
Qed.

(** [X3] After any sequence of registrations the registry holds, up to
    order, exactly the strategies of the calls that had a name, each
    once per call, so as many strategies as calls that had a name; a
    call that raised has added nothing; and the reporter is still the
    one given at creation. *)
Theorem registry_holds_registrations cb calls :
  scrapers (register_all new_session (Scraper_init cb) calls)
    ≡ₚ omap (registration new_session) calls /\
  length (scrapers (register_all new_session (Scraper_init cb) calls))
  = length (filter (fun c => is_Some (effective_name c)) calls) /\
  callback (register_all new_session (Scraper_init cb) calls) = cb.
Proof.
  destruct (register_all_contents cb calls) as [Hperm Hcb].
  split; [exact Hperm|]. split; [|exact Hcb].
  rewrite Hperm. clear. induction calls as [|c calls IH]; [done|].
  rewrite filter_cons. simpl. unfold registration at 1.
  destruct (effective_name c) as [n|]; simpl.
  - destruct (decide (is_Some (Some n))) as [_|Hn]; [|by destruct Hn].
    simpl. by f_equal.
  - destruct (decide (is_Some (@None string))) as [[? ?]|_]; [done|]. exact IH.
Qed.

(** ** Rotation *)

Lemma position_shift (n : nat) i (j : nat) :
  (j < n)%nat ->
  position n i j
  = if decide (Z.to_nat (i mod Z.of_nat n) + j < n)%nat
    then (Z.to_nat (i mod Z.of_nat n) + j)%nat
    else (Z.to_nat (i mod Z.of_nat n) + j - n)%nat.
Proof.
  intros Hj. unfold position.
  pose proof (Z.mod_pos_bound i (Z.of_nat n) ltac:(lia)) as Hk.
  rewrite <- Zplus_mod_idemp_l.
  case_decide as Hlt.
  - rewrite Z.mod_small by lia. lia.
  - replace (i mod Z.of_nat n + Z.of_nat j)
      with ((i mod Z.of_nat n + Z.of_nat j - Z.of_nat n) + 1 * Z.of_nat n) by lia.
    rewrite Z_mod_plus_full, Z.mod_small by lia. lia.
Qed.

Lemma tier_order_shift tier i :
  tier_order tier i
  = drop (Z.to_nat (i mod Z.of_nat (length tier))) tier
    ++ take (Z.to_nat (i mod Z.of_nat (length tier))) tier.
Proof.
  destruct (decide (tier = [])) as [->|Hne].
  { unfold tier_order. simpl. by rewrite drop_nil, take_nil. }
  assert (Hn : (0 < length tier)%nat) by (destruct tier; [done|simpl; lia]).
  pose proof (Z.mod_pos_bound i (Z.of_nat (length tier)) ltac:(lia)) as Hk.
  set (k := Z.to_nat (i mod Z.of_nat (length tier))).
  apply list_eq. intros j.
  destruct (decide (j < length tier)%nat) as [Hj|Hj].
  - rewrite tier_order_lookup, position_shift by done. fold k.
    case_decide as Hlt.
    + rewrite lookup_app_l by (rewrite length_drop; lia).
      by rewrite lookup_drop.
    + rewrite lookup_app_r by (rewrite length_drop; lia).
      rewrite length_drop, lookup_take. rewrite decide_True by lia.
      f_equal. lia.
  - rewrite !lookup_ge_None_2; [done| |].
    + rewrite length_app, length_drop, length_take. lia.
    + rewrite tier_order_length. lia.
Qed.

Lemma tier_order_perm tier i : tier_order tier i ≡ₚ tier.
Proof.
  rewrite tier_order_shift, Permutation_app_comm. by rewrite take_drop.
Qed.

(** [X4] Reading a tier under rotation index [i] is a cyclic shift: the
    tier from position [i mod n] to its end, then from its start up to
    that position; for a negative [i] as well, and trivially for an
    empty tier.  So a rotation reads every strategy of the tier, each as
    often as the tier holds it. *)
Theorem tier_order_is_cyclic_shift tier i :
  tier_order tier i
  = drop (Z.to_nat (i mod Z.of_nat (length tier))) tier
    ++ take (Z.to_nat (i mod Z.of_nat (length tier))) tier /\
  tier_order tier i ≡ₚ tier.
Proof. split; [apply tier_order_shift|apply tier_order_perm]. Qed.

Lemma visit_order_perm self i :
  plan_in_sync self -> visit_order self i ≡ₚ scrapers self.
Proof.
  intros Hsync. unfold visit_order.
  transitivity (mjoin (reverse (sorted_scrapers self))).
  - generalize (reverse (sorted_scrapers self)). intros tiers.
    induction tiers as [|tier tiers IH]; [done|]. csimpl.
    by rewrite tier_order_perm, IH.
  - rewrite reverse_Permutation, Hsync. apply tiers_of_perm.
Qed.

(** [X5] After any sequence of registrations, an orchestration fetches
    every registered strategy at most once (a strategy registered
    several times, at most that many times): whatever the strategies,
    the validator and the reporter do, the strategies fetched are drawn
    from the registry without repetition, so there are never more
    fetches than registered strategies. *)
Theorem scrape_fetches_each_strategy_once cb calls paper path i logger
    (w : W) st (res : Res bool) :
  scrape checker (register_all new_session (Scraper_init cb) calls)
    paper path i logger w = (st, res) ->
  fetched (trace st) ⊆+ scrapers (register_all new_session (Scraper_init cb) calls) /\
  (length (fetched (trace st))
   <= length (scrapers (register_all new_session (Scraper_init cb) calls)))%nat.
Proof.
  intros Hrun.
  pose proof (register_all_in_sync new_session cb calls) as Hsync.
  destruct (scrape_fetched checker _ _ _ _ _ _ _ _ Hsync Hrun) as [Hp _].
  assert (Hsub : fetched (trace st)
                 ⊆+ scrapers (register_all new_session (Scraper_init cb) calls)).
  { rewrite <- (visit_order_perm _ i Hsync).
    destruct Hp as [k ->]. by apply sublist_submseteq, sublist_inserts_r. }
  split; [exact Hsub|]. by apply submseteq_length.
Qed.

(** ** One strategy, in full *)

Ltac give x := let H := fresh in intros H; exists x; revert H.

Ltac reads_only_inv :=
  repeat match goal with
         | H : Forall reads_only (_ :: _) |- _ =>
             apply Forall_cons in H; simpl in H; destruct H as [? H]
         end;
  subst.

Ltac finish_effect :=
  intros [= <- <-]; simpl;
  eexists; (split; [rewrite <- ?app_assoc; simpl; reflexivity|]);
  unfold attempt_effect; simpl;
  (split; [first [by left | right; eexists _, _; by repeat split]|]);
  (split; [by repeat constructor|]);
  (split; [first [by left | right; split; [by eexists|reflexivity]]|]);
  (split; [first [discriminate | intros _; repeat constructor; by intros []]|]);
  (split;
   [ let Hro := fresh "Hro" in
     intros Hro; reads_only_inv;
     first [reflexivity | by apply insert_insert_eq | by left | by right]
   | first [ apply lookup_insert_eq
           | reflexivity
           | eexists; split; reflexivity ] ]).

Lemma attempt_effects self s paper path logger st st' fl :
  attempt checker self s paper path logger st = (st', fl) ->
  exists r chk rest,
    trace st' = trace st ++ EvFetch s r :: chk ++ rest /\
    attempt_effect self s paper path logger
      (scrape_result st) (scrape_result st') fl r chk rest.
Proof.
  unfold attempt, try_body.
  destruct (fn_call _ _ _ _ _) as [w1 [v|e]]; simpl.
  2: { give (Raise e : Res pyval); give (@nil (Event W Session)).
       destruct (is_Exception e) eqn:He; destruct logger; finish_effect. }
  give (Ret v : Res pyval).
  destruct (truthy v) eqn:Hv; simpl; [|give (@nil (Event W Session)); finish_effect].
  unfold validated. destruct (check_pdf s) eqn:Hc; simpl.
  - destruct (checker _ _ _) as [w2 c].
    give [EvCheckPdf (W := W) (Session := Session) path logger c].
    destruct c as [v'|e']; simpl.
    + destruct (truthy v') eqn:Hv'; [|finish_effect].
      unfold await_callback; simpl.
      destruct (callback self) as [cb|] eqn:Hcb; simpl.
      * destruct (cb _ _ _) as [[w4 m4] [[]|e4]]; simpl;
          [|destruct (is_Exception e4)]; destruct logger; finish_effect.
      * destruct logger; finish_effect.
    + destruct (is_Exception e') eqn:He; destruct logger; finish_effect.
  - give (@nil (Event W Session)). unfold await_callback; simpl.
    destruct (callback self) as [cb|] eqn:Hcb; simpl.
    + destruct (cb _ _ _) as [[w4 m4] [[]|e4]]; simpl;
        [|destruct (is_Exception e4)]; destruct logger; finish_effect.
    + destruct logger; finish_effect.
Qed.

(** ** The loops, as derivations *)

Lemma attempt_step self s paper path logger st st' fl :
  attempt checker self s paper path logger st = (st', fl) ->
  exists seg,
    trace st' = trace st ++ seg /\
    step_events self s paper path logger
      (scrape_result st) (scrape_result st') fl seg.
Proof.
  intros H.
  destruct (attempt_effects _ _ _ _ _ _ _ _ H) as (r & chk & rest & Htr & Heff).
  destruct (attempt_shape checker _ _ _ _ _ _ _ _ H) as (r' & tail & Htr' & _ & Hok).
  rewrite Htr in Htr'. apply app_inv_head in Htr'. injection Htr' as <- <-.
  exists (EvFetch s r :: chk ++ rest). split; [done|].
  exists r, chk, rest. split; [done|]. split; [done|].
  intros b ->. simpl in Hok. by destruct Hok as (_ & Hv & Hs).
Qed.

Lemma run_events_mono self paper path logger
    (P Q : ScraperFunction W Session -> Prop) m evs fl m' :
  (forall s, P s -> Q s) ->
  run_events self paper path logger P m evs fl m' ->
  run_events self paper path logger Q m evs fl m'.
Proof.
  intros HPQ. induction 1.
  - constructor.
  - eapply run_stop; eauto.
  - eapply run_step; eauto.
  - by constructor.
  - by constructor.
Qed.

Lemma run_events_app self paper path logger
    (P : ScraperFunction W Session -> Prop) m evs1 m1 evs2 fl m2 :
  run_events self paper path logger P m evs1 Continue m1 ->
  run_events self paper path logger P m1 evs2 fl m2 ->
  run_events self paper path logger P m (evs1 ++ evs2) fl m2.
Proof.
  intros H1 H2. remember Continue as c eqn:Hc.
  induction H1 as [m|s m m' seg fl' Hs Hstep Hne|s m ma seg evs fl' m' Hs Hstep H1 IH
                   |m m1 evs fl' m' Hcb H1 IH|m m1 e Hcb]; subst.
  - done.
  - done.
  - rewrite <- app_assoc. eapply run_step; eauto.
  - simpl. constructor; auto.
  - done.
Qed.

Lemma tier_loop_run self tier paper path i logger js st st' fl :
  tier <> [] \/ js = [] ->
  tier_loop checker self tier paper path i logger js st = (st', fl) ->
  exists evs,
    trace st' = trace st ++ evs /\
    run_events self paper path logger (fun s => s ∈ tier)
      (scrape_result st) evs fl (scrape_result st').
Proof.
  intros Hne. revert st. induction js as [|j js IH]; intros st; simpl.
  - intros [= <- <-]. exists []. rewrite app_nil_r. split; [done|constructor].
  - destruct Hne as [Hne|?]; [|done].
    destruct (subscript_position tier i j Hne) as (s & -> & Hs).
    assert (Hin : s ∈ tier) by (apply list_elem_of_lookup; eauto).
    destruct (attempt checker self s paper path logger st) as [st1 fl1] eqn:Ha.
    apply attempt_step in Ha as (seg & Htr & Hstep).
    destruct fl1 as [|b|e].
    + intros H. apply IH in H as (evs & Htr' & Hrun); [|by left].
      exists (seg ++ evs). rewrite Htr', Htr, app_assoc. split; [done|].
      eapply run_step; eauto.
    + intros [= <- <-]. exists seg. split; [done|]. eapply run_stop; eauto.
    + intros [= <- <-]. exists seg. split; [done|]. eapply run_stop; eauto.
Qed.

Lemma tiers_loop_run self paper path i logger tiers st st' fl :
  tiers_loop checker self paper path i logger tiers st = (st', fl) ->
  exists evs,
    trace st' = trace st ++ evs /\
    run_events self paper path logger
      (fun s => exists tier, tier ∈ tiers /\ s ∈ tier)
      (scrape_result st) evs fl (scrape_result st').
Proof.
  revert st. induction tiers as [|tier tiers IH]; intros st; simpl.
  - intros [= <- <-]. exists []. rewrite app_nil_r. split; [done|constructor].
  - destruct (tier_loop _ _ _ _ _ _ _ _ _) as [st1 fl1] eqn:Ht.
    apply tier_loop_run in Ht as (evs1 & Htr1 & Hrun1).
    2: { destruct tier; [by right|by left]. }
    apply (run_events_mono _ _ _ _ _
             (fun s => exists t, t ∈ tier :: tiers /\ s ∈ t)) in Hrun1.
    2: { intros s Hs. exists tier. split; [left|done]. }
    assert (Hrest : forall st2 evs2,
              trace st2 = trace st ++ evs2 ->
              run_events self paper path logger
                (fun s => exists t, t ∈ tier :: tiers /\ s ∈ t)
                (scrape_result st) evs2 Continue (scrape_result st2) ->
              tiers_loop checker self paper path i logger tiers st2 = (st', fl) ->
              exists evs,
                trace st' = trace st ++ evs /\
                run_events self paper path logger
                  (fun s => exists t, t ∈ tier :: tiers /\ s ∈ t)
                  (scrape_result st) evs fl (scrape_result st')).
    { intros st2 evs2 Htr2 Hrun2 H. apply IH in H as (evs3 & Htr3 & Hrun3).
      exists (evs2 ++ evs3). rewrite Htr3, Htr2, app_assoc. split; [done|].
      eapply run_events_app; [exact Hrun2|].
      eapply run_events_mono; [|exact Hrun3].
      intros s (t & Ht & Hs). exists t. split; [by right|done]. }
    destruct fl1 as [|b|e]; [|intros [= <- <-]; eauto..].
    destruct (callback self) as [cb|] eqn:Hcb; [|by apply (Hrest st1 evs1)].
    destruct (await_callback cb paper st1) as [st2 r] eqn:Hrep.
    apply await_callback_trace in Hrep as Htr2.
    destruct r as [[]|e].
    + apply (Hrest st2 (evs1 ++ [EvCallback (title paper) (scrape_result st1)
                                       (scrape_result st2) (Ret ())])).
      * by rewrite Htr2, Htr1, <- app_assoc.
      * eapply run_events_app; [exact Hrun1|].
        constructor; [by rewrite Hcb|constructor].
    + intros [= <- <-].
      exists (evs1 ++ [EvCallback (title paper) (scrape_result st1)
                         (scrape_result st2) (Raise e)]).
      rewrite Htr2, Htr1, <- app_assoc. split; [done|].
      eapply run_events_app; [exact Hrun1|].
      constructor. by rewrite Hcb.
Qed.

(** What [scrape] answers, by the way control leaves its loops. *)
Lemma scrape_run self paper path i logger (w : W) st (res : Res bool) :
  scrape checker self paper path i logger w = (st, res) ->
  exists fl,
    run_events self paper path logger
      (fun s => exists tier, tier ∈ sorted_scrapers self /\ s ∈ tier)
      (initial_result self) (trace st) fl (scrape_result st) /\
    res = match fl with
          | Continue => Ret false
          | Return b => Ret b
          | Throw e => Raise e
          end.
Proof.
  unfold scrape. intros Hrun.
  destruct (tiers_loop _ _ _ _ _ _ _ _) as [st1 fl] eqn:Hloop.
  apply tiers_loop_run in Hloop as (evs & Htr & Hev). simpl in Htr, Hev.
  exists fl. rewrite <- Htr in Hev.
  apply (run_events_mono _ _ _ _ _
           (fun s => exists tier, tier ∈ sorted_scrapers self /\ s ∈ tier)) in Hev.
  2: { intros s (t & Ht & Hs). exists t. by rewrite elem_of_reverse in Ht. }
  destruct fl; injection Hrun as <- <-; by split.
Qed.

(** ** What a run leaves in the outcome map *)

Lemma step_events_fetched self s paper path logger m m' fl seg :
  step_events self s paper path logger m m' fl seg -> fetched seg = [s].
Proof.
  intros (r & chk & rest & -> & (Hchk & Hplain & _) & _).
  change (fetched (EvFetch s r :: chk ++ rest)) with (s :: fetched (chk ++ rest)).
  f_equal. apply fetched_not_fetch, Forall_app. split.
  - destruct Hchk as [->|(v & c & _ & _ & _ & ->)]; by repeat constructor.
  - eapply Forall_impl; [exact Hplain|]. by intros [].
Qed.

Lemma step_events_reported self s paper path logger m m' fl seg :
  step_events self s paper path logger m m' fl seg ->
  reported seg = [] \/
  (is_Some (callback self) /\
   reported seg = [(title paper, <[name s := success]> m)]).
Proof.
  intros (r & chk & rest & -> & (Hchk & _ & Hrep & _) & _).
  change (reported (EvFetch s r :: chk ++ rest)) with (reported (chk ++ rest)).
  rewrite reported_app.
  by destruct Hchk as [->|(v & c & _ & _ & _ & ->)].
Qed.

(** The outcome map after a strategy, when the reporter did not write
    to it. *)
Lemma step_events_map self s paper path logger m m' fl seg :
  step_events self s paper path logger m m' fl seg ->
  Forall reads_only seg ->
  match fl with
  | Continue => m' = <[name s := failed]> m
  | Return _ => m' = <[name s := success]> m
  | Throw _ => m' = m \/ m' = <[name s := success]> m
  end.
Proof.
  intros (r & chk & rest & -> & (_ & _ & _ & _ & Hm & _) & _) Hro.
  apply Hm. apply Forall_cons in Hro as [_ Hro].
  by apply reads_only_app in Hro as [_ Hro].
Qed.

Lemma run_events_continue_marks self paper path logger
    (P : ScraperFunction W Session -> Prop) m evs m' :
  run_events self paper path logger P m evs Continue m' ->
  Forall reads_only evs ->
  m' = mark_all m (fetched evs).
Proof.
  remember Continue as c eqn:Hc.
  induction 1 as [m|s m m' seg fl' Hs Hstep Hne|s m ma seg evs fl' m' Hs Hstep H1 IH
                  |m m1 evs fl' m' Hcb H1 IH|m m1 e Hcb]; subst; try done.
  - intros Hro. apply reads_only_app in Hro as [Hro1 Hro2].
    rewrite fetched_app, (step_events_fetched _ _ _ _ _ _ _ _ _ Hstep). simpl.
    rewrite IH by done.
    by rewrite (step_events_map _ _ _ _ _ _ _ _ _ Hstep Hro1).
  - intros Hro. apply Forall_cons in Hro as [Hev Hro]. simpl in Hev. subst m1.
    by apply IH.
Qed.

Lemma mark_all_lookup_other (m : gmap string status) l (n : string) :
  n ∉ name <$> l -> mark_all m l !! n = m !! n.
Proof.
  revert m. induction l as [|x l IH]; intros m Hn; [done|]. simpl.
  rewrite fmap_cons, not_elem_of_cons in Hn. destruct Hn as [Hx Hl].
  rewrite IH by done. by rewrite lookup_insert_ne.
Qed.

Lemma initial_result_lookup self (n : string) (v : status) :
  initial_result self !! n = Some v ->
  v = none /\ exists s, s ∈ scrapers self /\ name s = n.
Proof.
  unfold initial_result. intros H. apply elem_of_list_to_map_2 in H.
  apply list_elem_of_fmap in H as (s & [= -> ->] & Hs). eauto.
Qed.

Lemma run_events_return self paper path logger
    (P : ScraperFunction W Session -> Prop) m evs b m' :
  run_events self paper path logger P m evs (Return b) m' ->
  b = true /\
  exists pre s v post (mh : gmap string status),
    evs = pre ++ EvFetch s (Ret v) :: post /\
    P s /\ truthy v = true /\
    success_tail self s paper path logger mh m' post /\
    mh !! name s = Some success /\
    (Forall reads_only pre ->
     mh = <[name s := success]> (mark_all m (fetched pre))).
Proof.
  remember (Return b) as fl eqn:Hfl.
  induction 1 as [m|s m m' seg fl' Hs Hstep Hne|s m ma seg evs fl' m' Hs Hstep H1 IH
                  |m m1 evs fl' m' Hcb H1 IH|m m1 e Hcb]; subst; try done.
  - destruct Hstep as (r & chk & rest & -> & (_ & _ & _ & _ & _ & Hb) & Hret).
    destruct (Hret b eq_refl) as ((v & -> & Hv) & Htail).
    split; [done|].
    exists [], s, v, (chk ++ rest), (<[name s := success]> m).
    repeat split; try done. apply lookup_insert_eq.
  - destruct (IH eq_refl)
      as (-> & pre & s' & v & post & mh & -> & Hs' & Hv & Htail & Hmh & Hm).
    split; [done|]. exists (seg ++ pre), s', v, post, mh.
    rewrite <- app_assoc. repeat split; try done.
    intros Hro. apply reads_only_app in Hro as [Hro1 Hro2].
    rewrite fetched_app, (step_events_fetched _ _ _ _ _ _ _ _ _ Hstep). simpl.
    pose proof (step_events_map _ _ _ _ _ _ _ _ _ Hstep Hro1) as Hma.
    simpl in Hma. rewrite <- Hma. by apply Hm.
  - destruct (IH eq_refl)
      as (-> & pre & s' & v & post & mh & -> & Hs' & Hv & Htail & Hmh & Hm).
    split; [done|].
    exists (EvCallback (title paper) m m1 (Ret ()) :: pre), s', v, post, mh.
    repeat split; try done.
    intros Hro. apply Forall_cons in Hro as [Hev Hro]. simpl in Hev. subst m1.
    by apply Hm.
Qed.

(** [X6] After any sequence of registrations, [scrape] returns [False]
    only once every registered strategy has been fetched, in the order of
    the rotated plan; and then, the reporter (if any) having left the
    map as it was handed at each call, the outcome map holds nothing but
    "failed": one entry per registered name, all of them failed (a
    success that a raising reporter undid included). *)
Theorem scrape_false_means_all_failed cb calls paper path i logger
    (w : W) st :
  scrape checker (register_all new_session (Scraper_init cb) calls)
    paper path i logger w = (st, Ret false) ->
  fetched (trace st)
  = visit_order (register_all new_session (Scraper_init cb) calls) i /\
  (Forall reads_only (trace st) ->
   forall n : string,
     scrape_result st !! n
     = if decide (n ∈ name <$> scrapers (register_all new_session
                                           (Scraper_init cb) calls))
       then Some failed else None).
Proof.
  set (self := register_all new_session (Scraper_init cb) calls).
  pose proof (register_all_in_sync new_session cb calls) as Hsync. fold self in Hsync.
  intros Hrun.
  destruct (scrape_fetched checker _ _ _ _ _ _ _ _ Hsync Hrun) as [_ Hvisit].
  specialize (Hvisit eq_refl). split; [exact Hvisit|]. intros Hro.
  apply scrape_run in Hrun as (fl & Hev & Hres).
  destruct fl as [|b|e]; [|injection Hres as <-|discriminate].
  2: { by apply run_events_return in Hev as [? _]. }
  apply run_events_continue_marks in Hev; [|done]. rewrite Hev, Hvisit.
  intros n. case_decide as Hn.
  - apply list_elem_of_fmap in Hn as (s & -> & Hs).
    apply mark_all_lookup. by rewrite (visit_order_perm _ i Hsync).
  - rewrite mark_all_lookup_other.
    2: { by rewrite (visit_order_perm _ i Hsync). }
    destruct (initial_result self !! n) as [v|] eqn:Hv; [|done].
    apply initial_result_lookup in Hv as (_ & s & Hs & <-).
    exfalso. apply Hn, list_elem_of_fmap. eauto.
Qed.

(** [X7] [scrape] returns [True] only on a success: the last strategy it
    fetched returned a truthy value; what follows that fetch is the
    validation that approved (when the strategy asks for one), the debug
    record and the report of the map [m] in which that strategy is
    marked success, and nothing else.  [m] is the outcome map at the
    end unless the reporter wrote to it in that report; and every
    strategy fetched before is marked failed in [m], unless it bears
    the same name or the reporter wrote to the map in between. *)
Theorem scrape_true_means_success self paper path i logger (w : W) st :
  scrape checker self paper path i logger w = (st, Ret true) ->
  exists pre s (v : pyval) post (m : gmap string status),
    trace st = pre ++ EvFetch s (Ret v) :: post /\
    truthy v = true /\
    success_tail self s paper path logger m (scrape_result st) post /\
    last (fetched (trace st)) = Some s /\
    m !! name s = Some success /\
    (Forall reads_only post -> scrape_result st = m) /\
    (Forall reads_only pre ->
     forall s', s' ∈ fetched pre -> name s' <> name s ->
                m !! name s' = Some failed).
Proof.
  intros Hrun. apply scrape_run in Hrun as (fl & Hev & Hres).
  destruct fl as [|b|e]; try discriminate. injection Hres as <-.
  apply run_events_return in Hev
    as (_ & pre & s & v & post & m & Htr & _ & Hv & Htail & Hms & Hm).
  exists pre, s, v, post, m. split; [done|]. split; [done|]. split; [done|].
  split; [|split; [done|split]].
  - rewrite Htr, fetched_app.
    change (fetched (EvFetch s (Ret v) :: post)) with (s :: fetched post).
    destruct (success_tail_fetched _ _ _ _ _ _ _ _ Htail) as [-> _].
    apply last_snoc.
  - by eapply success_tail_reads_only.
  - intros Hro s' Hs' Hne. rewrite (Hm Hro), lookup_insert_ne by done.
    by apply mark_all_lookup.
Qed.

Lemma dom_initial_result self : dom (initial_result self) = names_of self.
Proof.
  unfold initial_result, names_of. rewrite dom_list_to_map_L.
  by rewrite <- list_fmap_compose.
Qed.

Lemma step_events_title self s paper path logger m m' fl seg :
  step_events self s paper path logger m m' fl seg ->
  Forall (fun tm => tm.1 = title paper) (reported seg).
Proof.
  intros Hst.
  destruct (step_events_reported _ _ _ _ _ _ _ _ _ Hst) as [->|[_ ->]];
    by repeat constructor.
Qed.

Lemma run_events_title self paper path logger
    (P : ScraperFunction W Session -> Prop) m evs fl m' :
  run_events self paper path logger P m evs fl m' ->
  Forall (fun tm => tm.1 = title paper) (reported evs).
Proof.
  induction 1 as [m|s m m' seg fl' Hs Hst Hne|s m ma seg evs fl' m' Hs Hst H1 IH
                  |m m1 evs fl' m' Hcb H1 IH|m m1 e Hcb].
  - constructor.
  - by eapply step_events_title.
  - rewrite reported_app. apply Forall_app. split; [|done].
    by eapply step_events_title.
  - by constructor.
  - by repeat constructor.
Qed.

Lemma run_events_dom self paper path logger
    (P : ScraperFunction W Session -> Prop) (D : gset string) m evs fl m' :
  (forall s, P s -> name s ∈ D) ->
  run_events self paper path logger P m evs fl m' ->
  Forall reads_only evs ->
  dom m = D ->
  dom m' = D /\
  Forall (fun tm => dom tm.2 = D) (reported evs).
Proof.
  intros HP.
  assert (Hins : forall s (v : status) (m0 : gmap string status),
            P s -> dom m0 = D -> dom (<[name s := v]> m0) = D).
  { intros s v m0 Hs Hm0. rewrite dom_insert_L, Hm0.
    apply subseteq_union_1_L, singleton_subseteq_l. by apply HP. }
  assert (Hstep : forall s m0 m1 fl0 seg,
            P s -> step_events self s paper path logger m0 m1 fl0 seg ->
            Forall reads_only seg ->
            dom m0 = D ->
            dom m1 = D /\
            Forall (fun tm => dom tm.2 = D) (reported seg)).
  { intros s m0 m1 fl0 seg Hs Hst Hro Hm0. split.
    - pose proof (step_events_map _ _ _ _ _ _ _ _ _ Hst Hro) as Hm.
      destruct fl0; [subst; auto..|]. destruct Hm as [->| ->]; auto.
    - destruct (step_events_reported _ _ _ _ _ _ _ _ _ Hst) as [->|[_ ->]];
        [constructor|].
      repeat constructor; simpl; auto. }
  induction 1 as [m|s m m' seg fl' Hs Hst Hne|s m ma seg evs fl' m' Hs Hst H1 IH
                  |m m1 evs fl' m' Hcb H1 IH|m m1 e Hcb]; intros Hro Hm.
  - by split; [|constructor].
  - by eapply Hstep.
  - apply reads_only_app in Hro as [Hro1 Hro2].
    destruct (Hstep _ _ _ _ _ Hs Hst Hro1 Hm) as [Hma Hr1].
    destruct (IH Hro2 Hma) as [Hm' Hr2]. split; [done|].
    rewrite reported_app. by apply Forall_app.
  - apply Forall_cons in Hro as [Hev Hro]. simpl in Hev. subst m1.
    destruct (IH Hro Hm) as [Hm' Hr]. split; [done|].
    change (reported (EvCallback (title paper) m m (Ret ()) :: evs))
      with ((title paper, m) :: reported evs).
    by constructor.
  - apply Forall_cons in Hro as [Hev _]. simpl in Hev. subst m1.
    split; [done|]. by repeat constructor.
Qed.

(** [X8] The reporter is always handed the title of the record.  And
    after any sequence of registrations, as long as the reporter leaves
    the map as it is handed, the outcome map of an orchestration has
    exactly the registered names as its keys: at the end, however
    [scrape] ends, and in every map handed to the reporter. *)
Theorem outcome_map_keys_are_registered_names cb calls paper path i logger
    (w : W) st (res : Res bool) :
  scrape checker (register_all new_session (Scraper_init cb) calls)
    paper path i logger w = (st, res) ->
  (forall (t : string) (m : gmap string status),
     (t, m) ∈ reported (trace st) -> t = title paper) /\
  (Forall reads_only (trace st) ->
   dom (scrape_result st)
   = names_of (register_all new_session (Scraper_init cb) calls) /\
   forall (t : string) (m : gmap string status),
     (t, m) ∈ reported (trace st) ->
     dom m = names_of (register_all new_session (Scraper_init cb) calls)).
Proof.
  set (self := register_all new_session (Scraper_init cb) calls).
  pose proof (register_all_in_sync new_session cb calls) as Hsync. fold self in Hsync.
  intros Hrun. apply scrape_run in Hrun as (fl & Hev & _). split.
  - intros t m Hin. apply run_events_title in Hev.
    rewrite Forall_forall in Hev. by apply (Hev (t, m)).
  - intros Hro.
    apply (run_events_dom _ _ _ _ _ (names_of self)) in Hev as [Hdom Hrep];
      [| |done|apply dom_initial_result].
    + split; [done|]. intros t m Hin. rewrite Forall_forall in Hrep.
      by apply (Hrep (t, m)).
    + intros s (tier & Ht & Hs). unfold names_of.
      apply elem_of_list_to_set, list_elem_of_fmap. exists s. split; [done|].
      rewrite <- (tiers_of_perm (scrapers self)), <- Hsync.
      apply list_elem_of_join. eauto.
Qed.

(** ** What a run never does *)

Lemma run_events_quiet self paper path logger
    (P : ScraperFunction W Session -> Prop) m evs fl m' :
  run_events self paper path logger P m evs fl m' ->
  (callback self = None -> reported evs = []) /\
  (logger = false -> Forall (fun ev => ~ is_log ev) evs).
Proof.
  assert (Hstep : forall s m0 m1 fl0 seg,
            step_events self s paper path logger m0 m1 fl0 seg ->
            (callback self = None -> reported seg = []) /\
            (logger = false -> Forall (fun ev => ~ is_log ev) seg)).
  { intros s m0 m1 fl0 seg Hst. split.
    - intros Hcb.
      destruct (step_events_reported _ _ _ _ _ _ _ _ _ Hst) as [->|[Hsome _]];
        [done|]. rewrite Hcb in Hsome. by destruct Hsome.
    - intros Hl.
      destruct Hst as (r & chk & rest & -> & (Hchk & _ & _ & Hlog & _) & _).
      constructor; [by intros []|]. apply Forall_app. split; [|by apply Hlog].
      destruct Hchk as [->|(v & c & _ & _ & _ & ->)]; [constructor|].
      repeat constructor. by intros []. }
  induction 1 as [m|s m m' seg fl' Hs Hst Hne|s m ma seg evs fl' m' Hs Hst H1 IH
                  |m m1 evs fl' m' Hcb H1 IH|m m1 e Hcb].
  - by split; [|constructor].
  - by eapply Hstep.
  - destruct (Hstep _ _ _ _ _ Hst) as [Hr1 Hl1]. destruct IH as [Hr2 Hl2].
    split.
    + intros Hcb. by rewrite reported_app, Hr1, Hr2.
    + intros Hl. apply Forall_app. auto.
  - destruct IH as [Hr Hl]. split.
    + intros Hnone. rewrite Hnone in Hcb. by destruct Hcb.
    + intros Hlog. constructor; [by intros []|auto].
  - split.
    + intros Hnone. rewrite Hnone in Hcb. by destruct Hcb.
    + intros _. repeat constructor. by intros [].
Qed.

(** [X9] An orchestration without a reporter reports nothing, and one
    without a logger logs nothing: its events are then only fetches and
    validations. *)
Theorem scrape_reports_and_logs_only_when_asked self paper path i logger
    (w : W) st (res : Res bool) :
  scrape checker self paper path i logger w = (st, res) ->
  (callback self = None -> reported (trace st) = []) /\
  (logger = false -> Forall (fun ev => ~ is_log ev) (trace st)).
Proof.
  intros Hrun. apply scrape_run in Hrun as (fl & Hev & _).
  by eapply run_events_quiet.
Qed.

Lemma checks_follow_fetch_app path logger evs1 evs2 :
  checks_follow_fetch path logger evs1 ->
  checks_follow_fetch path logger evs2 ->
  checks_follow_fetch path logger (evs1 ++ evs2).
Proof.
  intros H1 H2 pre p l c post Heq.
  apply app_eq_app_cons in Heq as [(k & -> & ->)|(k & -> & ->)].
  - by eapply H1.
  - destruct (H2 k p l c post eq_refl) as (-> & -> & pre' & s & v & -> & Hv & Hc).
    split; [done|]. split; [done|]. exists (evs1 ++ pre'), s, v.
    by rewrite <- app_assoc.
Qed.

Lemma checks_follow_fetch_plain path logger evs :
  Forall plain evs -> checks_follow_fetch path logger evs.
Proof.
  intros Hall pre p l c post ->. apply Forall_app in Hall as [_ Hall].
  by inversion Hall.
Qed.

Lemma step_events_checks self s paper path logger m m' fl seg :
  step_events self s paper path logger m m' fl seg ->
  checks_follow_fetch path logger seg.
Proof.
  intros (r & chk & rest & -> & (Hchk & Hplain & _) & _) pre p l c post Heq.
  destruct pre as [|ev pre]; simpl in Heq; [done|]. injection Heq as <- Heq.
  destruct Hchk as [->|(v & c' & -> & Hv & Hc & ->)]; simpl in Heq.
  { subst rest. apply Forall_app in Hplain as [_ Hplain]. by inversion Hplain. }
  destruct pre as [|ev pre]; simplify_eq/=.
  - split; [done|]. split; [done|]. by exists [], s, v.
  - apply Forall_app in Hplain as [_ Hplain]. by inversion Hplain.
Qed.

Lemma run_events_checks self paper path logger
    (P : ScraperFunction W Session -> Prop) m evs fl m' :
  run_events self paper path logger P m evs fl m' ->
  checks_follow_fetch path logger evs.
Proof.
  induction 1 as [m|s m m' seg fl' Hs Hst Hne|s m ma seg evs fl' m' Hs Hst H1 IH
                  |m m1 evs fl' m' Hcb H1 IH|m m1 e Hcb].
  - apply checks_follow_fetch_plain. constructor.
  - by eapply step_events_checks.
  - apply checks_follow_fetch_app; [by eapply step_events_checks|done].
  - apply (checks_follow_fetch_app _ _ [_]); [|done].
    apply checks_follow_fetch_plain. by repeat constructor.
  - apply checks_follow_fetch_plain. by repeat constructor.
Qed.

(** [X10] [scrape] calls the validator only right after the fetch of a
    strategy that asks for validation has returned a truthy value, and
    then on the destination path and with the logger flag it was given:
    never after a falsy result or an exception, never for a strategy
    registered with the check off. *)
Theorem validator_called_only_after_truthy_fetch self paper path i logger
    (w : W) st (res : Res bool) pre (p : string) (l : bool) (c : Res pyval) post :
  scrape checker self paper path i logger w = (st, res) ->
  trace st = pre ++ EvCheckPdf p l c :: post ->
  p = path /\ l = logger /\
  exists pre' s (v : pyval),
    pre = pre' ++ [EvFetch s (Ret v)] /\
    truthy v = true /\ check_pdf s = true.
Proof.
  intros Hrun Htr. apply scrape_run in Hrun as (fl & Hev & _).
  apply run_events_checks in Hev. by eapply Hev.
Qed.

Lemma run_events_marks self paper path logger
    (P : ScraperFunction W Session -> Prop) m evs fl m' (n : string) :
  run_events self paper path logger P m evs fl m' ->
  Forall reads_only evs ->
  (n ∉ name <$> fetched evs -> m' !! n = m !! n) /\
  (n ∈ name <$> fetched evs ->
   fl = Continue \/ (exists b, fl = Return b) ->
   m' !! n = Some failed \/ m' !! n = Some success).
Proof.
  assert (Hstep : forall s m0 m1 fl0 seg,
            step_events self s paper path logger m0 m1 fl0 seg ->
            Forall reads_only seg ->
            (n <> name s -> m1 !! n = m0 !! n) /\
            (n = name s -> fl0 = Continue \/ (exists b, fl0 = Return b) ->
             m1 !! n = Some failed \/ m1 !! n = Some success)).
  { intros s m0 m1 fl0 seg Hst Hro.
    pose proof (step_events_map _ _ _ _ _ _ _ _ _ Hst Hro) as Hm. split.
    - intros Hne. destruct fl0; [subst; by rewrite lookup_insert_ne..|].
      destruct Hm as [->| ->]; [done|by rewrite lookup_insert_ne].
    - intros -> Hfl. destruct fl0; subst.
      + left. apply lookup_insert_eq.
      + right. apply lookup_insert_eq.
      + by destruct Hfl as [?|[? ?]]. }
  induction 1 as [m|s m m' seg fl' Hs Hst Hne|s m ma seg evs fl' m' Hs Hst H1 IH
                  |m m1 evs fl' m' Hcb H1 IH|m m1 e Hcb]; intros Hro.
  - split; [done|]. simpl. by intros ?%not_elem_of_nil.
  - rewrite (step_events_fetched _ _ _ _ _ _ _ _ _ Hst). simpl.
    destruct (Hstep _ _ _ _ _ Hst Hro) as [H1 H2]. split.
    + intros Hn. apply H1. intros ->. apply Hn. left.
    + intros Hn%list_elem_of_singleton. by apply H2.
  - apply reads_only_app in Hro as [Hro1 Hro2].
    rewrite fetched_app, (step_events_fetched _ _ _ _ _ _ _ _ _ Hst). simpl.
    destruct (Hstep _ _ _ _ _ Hst Hro1) as [Hs1 Hs2].
    destruct (IH Hro2) as [IH1 IH2].
    split.
    + intros Hn. rewrite not_elem_of_cons in Hn. destruct Hn as [Hne Hn].
      by rewrite IH1, Hs1.
    + intros Hn Hfl.
      destruct (decide (n ∈ name <$> fetched evs)) as [Hin|Hout]; [by apply IH2|].
      rewrite IH1 by done. apply elem_of_cons in Hn as [->|?]; [|done].
      apply Hs2; [done|by left].
  - apply Forall_cons in Hro as [Hev Hro]. simpl in Hev. subst m1.
    by apply IH.
  - apply Forall_cons in Hro as [Hev _]. simpl in Hev. subst m1.
    split; [done|]. simpl. by intros ?%not_elem_of_nil.
Qed.

(** [X11] As long as the reporter leaves the map as it is handed, the
    outcome map at the end of an orchestration tells which strategies
    were tried: a name none of whose strategies was fetched still has
    the status it started with ("none" when registered), and, when
    [scrape] returns, a name one of whose strategies was fetched is
    failed or success, never "none". *)
Theorem outcome_map_tells_what_was_fetched self paper path i logger
    (w : W) st (res : Res bool) (n : string) :
  scrape checker self paper path i logger w = (st, res) ->
  Forall reads_only (trace st) ->
  (n ∉ name <$> fetched (trace st) ->
   scrape_result st !! n = initial_result self !! n) /\
  (n ∈ name <$> fetched (trace st) ->
   (exists b, res = Ret b) ->
   scrape_result st !! n = Some failed \/ scrape_result st !! n = Some success).
Proof.
  intros Hrun Hro. apply scrape_run in Hrun as (fl & Hev & Hres).
  destruct (run_events_marks _ _ _ _ _ _ _ _ _ n Hev Hro) as [H1 H2].
  split; [exact H1|]. intros Hn [b ->]. apply H2; [done|].
  destruct fl as [|b'|e]; [by left|right; by eexists|discriminate].
Qed.



(** ** The batch scheduler, further *)

(** [X13] With a [batch_size] of zero [batch_scrape] raises
    [ValueError] (the step of [range]) and with a negative one it returns
    an empty result; either way, whatever the records, no orchestration
    is launched and the world is untouched. *)
Theorem batch_scrape_nonpositive_batch_size (gather : Gather W) self papers
    (dir : string) (parser : option (Paper -> Task W Paper))
    (batch_size : Z) (limit : option Z) logger (w : W) :
  batch_size <= 0 ->
  batch_scrape checker gather self papers dir parser batch_size limit logger w
  = ({| bworld := w; aggregated := ∅; launched := [] |},
     if Z.eqb batch_size 0 then Raise ValueError else Ret ∅).
Proof.
  intros Hbs. unfold batch_scrape, range_step.
  destruct (Z.eqb_spec batch_size 0) as [->|Hne]; [done|].
  destruct (Z.ltb_spec batch_size 0) as [_|?]; [done|lia].
Qed.

Lemma batch_loop_raises (gather : Gather W) self papers dir parser
    (bs : Z) (limit : option Z) logger (starts : list Z)
    (st st' : BatchSt W) (e : pyexc) :
  batch_loop checker gather self papers dir parser bs limit logger starts st
  = (st', Raise e) ->
  exists tasks (w0 : W), gather tasks w0 = (bworld st', Raise e).
Proof.
  revert st. induction starts as [|i rest IH]; intros st; simpl; [done|].
  destruct (gather _ _) as [w1 [rs|e1]] eqn:Hg.
  - destruct (limit_reached _ _); [done|]. apply IH.
  - intros [= <- <-]. eauto.
Qed.

(** [X14] [batch_scrape] itself raises nothing but the [ValueError] of a
    zero [batch_size], before anything is launched: any other exception
    that leaves it is one that [gather] raised on some window, and the
    results gathered so far are then not returned. *)
Theorem batch_scrape_raises_only_from_gather (gather : Gather W) self papers
    (dir : string) (parser : option (Paper -> Task W Paper))
    (batch_size : Z) (limit : option Z) logger (w : W)
    (st : BatchSt W) (e : pyexc) :
  batch_scrape checker gather self papers dir parser batch_size limit logger w
  = (st, Raise e) ->
  (batch_size = 0 /\ e = ValueError /\ launched st = []) \/
  (batch_size > 0 /\
   exists tasks (w0 : W), gather tasks w0 = (bworld st, Raise e)).
Proof.
  unfold batch_scrape, range_step.
  destruct (Z.eqb_spec batch_size 0) as [->|Hne].
  { intros [= <- <-]. by left. }
  destruct (Z.ltb_spec batch_size 0) as [Hneg|Hpos]; [done|].
  destruct (batch_loop _ _ _ _ _ _ _ _ _ _ _) as [st1 [u|e1]] eqn:Hloop; [done|].
  intros [= <- <-]. right. split; [lia|]. by eapply batch_loop_raises.
Qed.

Lemma window_length papers (bs i : Z) :
  0 < bs -> (length (window papers bs i) <= Z.to_nat bs)%nat.
Proof.
  intros Hbs. unfold window, slice. rewrite length_imap, length_take.
  replace (i + bs - i) with bs by lia. lia.
Qed.

Lemma batch_loop_overshoot (gather : Gather W) self papers dir parser
    (bs : Z) (l : Z) logger (starts : list Z) (st st' : BatchSt W) (u : unit) :
  0 < bs -> gather_returns_all gather ->
  Z.of_nat (size (aggregated st)) < l ->
  batch_loop checker gather self papers dir parser bs (Some l) logger starts st
  = (st', Ret u) ->
  Z.of_nat (size (aggregated st')) < l + bs.
Proof.
  intros Hbs Hg. revert st. induction starts as [|i rest IH]; intros st Hlt; simpl.
  - intros [= <-]. lia.
  - destruct (gather _ _) as [w1 [rs|e1]] eqn:Hgather; [|done].
    apply Hg in Hgather. rewrite length_fmap in Hgather.
    pose proof (collect_size rs) as Hc.
    pose proof (map_size_union_le (collect rs) (aggregated st)) as Hu.
    pose proof (window_length papers bs i Hbs) as Hw.
    destruct (Z.leb_spec l (Z.of_nat (size (collect rs ∪ aggregated st))))
      as [Hreached|Hnot].
    + intros [= <-]. simpl. lia.
    + apply IH. simpl. lia.
Qed.

(** [X15] The limit is checked only after a window: with a positive
    [batch_size] and a positive [limit], the result of [batch_scrape] can
    exceed the limit, but by less than [batch_size]. *)
Theorem batch_scrape_overshoots_by_less_than_a_window (gather : Gather W)
    self papers (dir : string) (parser : option (Paper -> Task W Paper))
    (batch_size l : Z) logger (w : W) (st : BatchSt W)
    (agg : gmap string Paper) :
  0 < batch_size -> 0 < l ->
  gather_returns_all gather ->
  batch_scrape checker gather self papers dir parser batch_size (Some l) logger w
  = (st, Ret agg) ->
  Z.of_nat (size agg) < l + batch_size.
Proof.
  intros Hbs Hl Hg. unfold batch_scrape, range_step.
  destruct (Z.eqb_spec batch_size 0) as [?|_]; [lia|].
  destruct (Z.ltb_spec batch_size 0) as [?|_]; [lia|].
  destruct (batch_loop _ _ _ _ _ _ _ _ _ _ _) as [st1 [u|e1]] eqn:Hloop; [|done].
  intros [= <- <-].
  eapply batch_loop_overshoot; [done|done| |exact Hloop].
  simpl. rewrite map_size_empty. lia.
Qed.

(** [X16] With a [limit] of zero or less, a positive [batch_size] and at
    least one record, [batch_scrape] still launches the first window, in
    full, and returns what it yields; it launches no other. *)
Theorem batch_scrape_limit_zero_runs_one_window (gather : Gather W)
    self papers (dir : string) (parser : option (Paper -> Task W Paper))
    (batch_size l : Z) logger (w : W) (st : BatchSt W)
    (agg : gmap string Paper) :
  0 < batch_size -> l <= 0 -> papers <> [] ->
  batch_scrape checker gather self papers dir parser batch_size (Some l) logger w
  = (st, Ret agg) ->
  launched st = [window papers batch_size 0] /\
  exists rs,
    gather ((fun pk => scrape_parse checker self dir parser logger pk.1 pk.2)
              <$> window papers batch_size 0) w = (bworld st, Ret rs) /\
    agg = collect rs.
Proof.
  intros Hbs Hl Hne. unfold batch_scrape, range_step.
  destruct (Z.eqb_spec batch_size 0) as [?|_]; [lia|].
  destruct (Z.ltb_spec batch_size 0) as [?|_]; [lia|].
  set (total := Z.to_nat ((Z.of_nat (length papers) + batch_size - 1)
                          / batch_size)).
  assert (Htotal : (0 < total)%nat).
  { unfold total. destruct papers as [|p papers]; [done|]. simpl length.
    assert (1 <= (Z.of_nat (S (length papers)) + batch_size - 1) / batch_size)
      by (apply Z.div_le_lower_bound; lia).
    lia. }
  destruct total as [|k]; [lia|]. simpl. rewrite Z.mul_0_l.
  destruct (gather _ _) as [w1 [rs|e1]] eqn:Hg; [|done].
  unfold limit_reached. simpl.
  destruct (Z.leb_spec l (Z.of_nat (size (collect rs ∪ ∅)))) as [_|?]; [|lia].
  intros [= <- <-]. simpl. split; [done|]. exists rs. split; [done|].
  apply (right_id_L ∅ (∪)).
Qed.

Lemma batch_loop_complete (gather : Gather W) self papers dir parser
    (bs : Z) (limit : option Z) logger (starts : list Z)
    (st st' : BatchSt W) (u : unit) :
  batch_loop checker gather self papers dir parser bs limit logger starts st
  = (st', Ret u) ->
  limit_reached limit (aggregated st') = false ->
  launched st' = launched st ++ (window papers bs <$> starts).
Proof.
  revert st. induction starts as [|i rest IH]; intros st; simpl.
  - intros [= <-] _. by rewrite app_nil_r.
  - destruct (gather _ _) as [w1 [rs|e1]] eqn:Hgather; [|done].
    destruct (limit_reached limit (collect rs ∪ aggregated st)) eqn:Hl.
    + intros [= <-]. simpl. congruence.
    + intros H Hnot. rewrite (IH _ H Hnot). simpl. by rewrite <- app_assoc.
Qed.

(** [X17] With a positive [batch_size], when [batch_scrape] returns a
    result that has not reached the limit (in particular when no limit
    is set), every record has been launched, exactly once, in the order
    of the input and with its position as rotation index. *)
Theorem batch_scrape_below_limit_launches_all (gather : Gather W) self papers
    (dir : string) (parser : option (Paper -> Task W Paper))
    (batch_size : Z) (limit : option Z) logger (w : W) (st : BatchSt W)
    (agg : gmap string Paper) :
  0 < batch_size ->
  batch_scrape checker gather self papers dir parser batch_size limit logger w
  = (st, Ret agg) ->
  limit_reached limit agg = false ->
  mjoin (launched st) = enumerate papers.
Proof.
  intros Hbs. unfold batch_scrape, range_step.
  destruct (Z.eqb_spec batch_size 0) as [?|_]; [lia|].
  destruct (Z.ltb_spec batch_size 0) as [?|_]; [lia|].
  set (total := Z.to_nat ((Z.of_nat (length papers) + batch_size - 1)
                          / batch_size)).
  destruct (batch_loop _ _ _ _ _ _ _ _ _ _ _) as [st1 [u|e1]] eqn:Hloop; [|done].
  intros [= <- <-] Hnot.
  rewrite (batch_loop_complete _ _ _ _ _ _ _ _ _ _ _ _ Hloop Hnot). simpl.
  rewrite <- list_fmap_compose.
  rewrite (list_fmap_ext _ (fun n : nat => take (Z.to_nat batch_size)
                              (drop (n * Z.to_nat batch_size) (enumerate papers)))).
  2: { intros j n _. simpl. by apply window_enumerate. }
  rewrite windows_join. apply take_ge.
  unfold enumerate. rewrite length_imap.
  assert (Z.of_nat (length papers)
          <= batch_size * ((Z.of_nat (length papers) + batch_size - 1) / batch_size)).
  { pose proof (Z.mul_succ_div_gt (Z.of_nat (length papers) + batch_size - 1)
                  batch_size Hbs). lia. }
  assert (0 <= (Z.of_nat (length papers) + batch_size - 1) / batch_size)
    by (apply Z.div_pos; lia).
  unfold total. nia.
Qed.

Lemma collect_lookup rs (k : string) (v : Paper) :
  collect rs !! k = Some v -> Some (k, v) ∈ rs.
Proof.
  unfold collect. induction rs as [|r rs IH] using rev_ind; [done|].
  rewrite foldl_app. simpl. destruct r as [[k' v']|].
  - destruct (decide (k' = k)) as [->|Hne].
    + rewrite lookup_insert_eq. intros [= ->]. apply elem_of_app. right. left.
    + rewrite lookup_insert_ne by done. intros H. apply elem_of_app. left. auto.
  - intros H. apply elem_of_app. left. auto.
Qed.

Lemma scrape_parse_Some self dir parser logger p i (w0 w1 : W) k v :
  scrape_parse checker self dir parser logger p i w0 = (w1, Ret (Some (k, v))) ->
  scraped_from checker self dir parser logger (p, i) k v.
Proof.
  unfold scrape_parse, scraped_from, destination. simpl.
  destruct (scrape _ _ _ _ _ _ _) as [st1 [[|]|e]] eqn:Hs; try done.
  destruct (parser_of _ _ _) as [w' [d|e]] eqn:Hp; [|done].
  intros [= <- <- <-]. split; [done|]. eauto.
Qed.

Lemma batch_loop_entries (gather : Gather W) self papers dir parser
    (bs : Z) (limit : option Z) logger (starts : list Z)
    (st st' : BatchSt W) (res : Res unit) :
  gather_runs_tasks gather ->
  batch_loop checker gather self papers dir parser bs limit logger starts st
  = (st', res) ->
  (forall k v, aggregated st !! k = Some v ->
               exists pk, pk ∈ mjoin (launched st) /\
                          scraped_from checker self dir parser logger pk k v) ->
  forall k v, aggregated st' !! k = Some v ->
              exists pk, pk ∈ mjoin (launched st') /\
                         scraped_from checker self dir parser logger pk k v.
Proof.
  intros Hg. revert st. induction starts as [|i rest IH]; intros st; simpl.
  - by intros [= <- <-].
  - destruct (gather _ _) as [w1 [rs|e1]] eqn:Hgather.
    2: { intros [= <- <-] Hst k v Hk. simpl in *.
         destruct (Hst k v Hk) as (pk & Hpk & Hfrom). exists pk. split; [|done].
         rewrite join_app. apply elem_of_app. by left. }
    apply Hg in Hgather. intros Hrun Hst.
    assert (Hnew : forall k v,
              (collect rs ∪ aggregated st) !! k = Some v ->
              exists pk, pk ∈ mjoin (launched st ++ [window papers bs i]) /\
                         scraped_from checker self dir parser logger pk k v).
    { intros k v Hk. rewrite join_app. simpl. rewrite app_nil_r.
      apply lookup_union_Some_raw in Hk as [Hk|[_ Hk]].
      - apply collect_lookup in Hk.
        apply list_elem_of_lookup in Hk as [j Hj].
        destruct (Forall2_lookup_r _ _ _ _ _ Hgather Hj)
          as (t & Ht & w0 & w2 & Hrun').
        rewrite list_lookup_fmap in Ht.
        destruct (window papers bs i !! j) as [pk|] eqn:Hpk; [|done].
        injection Ht as <-. exists pk. split.
        + apply elem_of_app. right. apply list_elem_of_lookup. eauto.
        + destruct pk as [p idx]. by eapply scrape_parse_Some.
      - destruct (Hst k v Hk) as (pk & Hpk & Hfrom). exists pk. split; [|done].
        apply elem_of_app. by left. }
    destruct (limit_reached limit (collect rs ∪ aggregated st)).
    + injection Hrun as <- <-. exact Hnew.
    + eapply IH; [exact Hrun|exact Hnew].
Qed.

Lemma gather_seq_runs_tasks : gather_runs_tasks (W := W) gather_seq.
Proof.
  intros tasks. induction tasks as [|t ts IH]; intros w w' rs; simpl.
  - intros [= <- <-]. constructor.
  - destruct (t w) as [w2 r] eqn:Ht.
    destruct (gather_seq ts w2) as [w3 rs'] eqn:E.
    destruct r as [a|e]; [|done]. destruct rs' as [l|e]; [|done].
    intros [= <- <-]. constructor; [eauto|]. by eapply IH.
Qed.

(** [X18] When every result of [gather] is what the awaitable of the same
    rank returned, every entry of the result of [batch_scrape] comes from
    a record that was launched: its key is the destination derived from
    the identifier of the record, the orchestration of the record, with
    its position as rotation index, returned [True], and its value is
    what the parser made of the record, the record itself when no parser
    is given. *)
Theorem batch_scrape_entries_come_from_successes (gather : Gather W) self papers
    (dir : string) (parser : option (Paper -> Task W Paper))
    (batch_size : Z) (limit : option Z) logger (w : W) (st : BatchSt W)
    (agg : gmap string Paper) (k : string) (v : Paper) :
  gather_runs_tasks gather ->
  batch_scrape checker gather self papers dir parser batch_size limit logger w
  = (st, Ret agg) ->
  agg !! k = Some v ->
  exists pk,
    pk ∈ mjoin (launched st) /\
    scraped_from checker self dir parser logger pk k v /\
    (parser = None -> v = pk.1).
Proof.
  intros Hg. unfold batch_scrape.
  destruct (range_step _ _) as [starts|e]; [|done].
  destruct (batch_loop _ _ _ _ _ _ _ _ _ _ _) as [st1 [u|e1]] eqn:Hloop; [|done].
  intros [= <- <-] Hk.
  destruct (batch_loop_entries _ _ _ _ _ _ _ _ _ _ _ _ Hg Hloop) with (k := k) (v := v)
    as (pk & Hpk & Hfrom); [done|done|].
  exists pk. split; [done|]. split; [done|]. intros ->.
  destruct Hfrom as (_ & w0 & st1' & w1 & _ & Hp). simpl in Hp. congruence.
Qed.

(** ** Release of the sessions *)

Lemma close_loop_spec l (w w' : W) (awaited awaited' : list Session)
    (res : Res unit) :
  close_loop session_close l w awaited = (w', awaited', res) ->
  exists closed,
    awaited' = awaited ++ closed /\
    closed `prefix_of` omap session_of l /\
    match res with
    | Ret _ => closed = omap session_of l
    | Raise e =>
        exists (done : list Session) (sess : Session) (w0 : W),
          closed = done ++ [sess] /\ session_close sess w0 = (w', Raise e)
    end.
Proof.
  revert w awaited. induction l as [|s l IH]; intros w awaited.
  - intros [= <- <- <-]. exists []. by rewrite app_nil_r.
  - change (omap session_of (s :: l))
      with (match session_of s with
            | Some y => y :: omap session_of l
            | None => omap session_of l
            end).
    cbn [close_loop]. change (kwargs_get "session" (kwargs s)) with (session_of s).
    destruct (session_of s) as [sess|]; [|apply IH].
    destruct (session_close sess w) as [w1 [u|e]] eqn:Hc.
    + intros H. apply IH in H as (closed & -> & Hp & Hres).
      exists (sess :: closed). rewrite <- app_assoc. split; [done|].
      split; [by apply prefix_cons|].
      destruct res as [u'|e]; [by rewrite Hres|].
      destruct Hres as (done & sess' & w0 & -> & Hraise).
      by exists (sess :: done), sess', w0.
    + intros [= <- <- <-]. exists [sess]. split; [done|].
      split; [apply prefix_cons, prefix_nil|]. by exists [], sess, w.
Qed.

Lemma omap_bind {A B C} (f : A -> option B) (g : B -> option C) (xs : list A) :
  omap g (omap f xs) = omap (fun x => f x ≫= g) xs.
Proof.
  induction xs as [|x xs IH]; [done|]. cbn [omap list_omap].
  destruct (f x) as [y|]; cbn [omap list_omap mbind option_bind]; [|done].
  destruct (g y); by rewrite IH.
Qed.

(** [X19] After any sequence of registrations, a [close] that returns
    has awaited the [close] of every session bound to a registered
    strategy, once each, in the order of the strategies (highest
    priority first); these are, up to order, the sessions made for the
    calls that asked for one ([attach_session]) and had a name, and no
    other. *)
Theorem close_releases_every_session cb calls (w w' : W)
    (awaited : list Session) (u : unit) :
  close session_close (register_all new_session (Scraper_init cb) calls) w
  = (w', awaited, Ret u) ->
  awaited = attached_sessions (register_all new_session (Scraper_init cb) calls) /\
  awaited ≡ₚ omap (call_session new_session) calls /\
  forall c : RegisterCall W Session,
    call_session new_session c
    = match effective_name c with
      | Some _ =>
          if default false (rc_attach_session c)
          then Some (new_session (default (Some (15 # 60)%Q) (rc_rate_limit c)))
          else None
      | None => None
      end.
Proof.
  unfold close. intros H.
  apply close_loop_spec in H as (closed & -> & _ & ->). simpl.
  split; [done|]. split.
  - destruct (register_all_contents cb calls) as [-> _].
    by rewrite omap_bind.
  - intros c. unfold call_session, registration.
    destruct (effective_name c) as [n|]; [|done]. simpl.
    unfold session_of, registered. simpl.
    by destruct (default false (rc_attach_session c)).
Qed.

(** [X20] When the [close] of a session raises, [close] raises that
    exception at once: the sessions awaited are an initial part of the
    bound sessions that ends with the one that raised, and those of the
    strategies after it are left open. *)
Theorem close_stops_at_first_exception self (w w' : W)
    (awaited : list Session) (e : pyexc) :
  close session_close self w = (w', awaited, Raise e) ->
  awaited `prefix_of` attached_sessions self /\
  exists (done : list Session) (sess : Session) (w0 : W),
    awaited = done ++ [sess] /\ session_close sess w0 = (w', Raise e).
Proof.
  unfold close. intros H.
  apply close_loop_spec in H as (closed & -> & Hp & Hres). by split.
Qed.

End MoreProperties.

(** * Concrete runs *)

Example demo_registry_plan :
  sorted_scrapers (demo_registry None)
  = [[strategy demo_C 5 "C" false];
     [strategy demo_A 10 "A" false; strategy demo_B 10 "B" false]].
Proof. vm_compute. reflexivity. Qed.

Example demo_registry_scrape :
  scrape (demo_check_pdf true) (demo_registry None) demo_paper "p.pdf" 0 false 0%nat
  = ({| world := 3%nat;
        scrape_result := {[ "A" := failed; "B" := failed; "C" := success ]};
        trace := [EvFetch (strategy demo_A 10 "A" false) (Ret (PyBool false));
                  EvFetch (strategy demo_B 10 "B" false) (Raise (Exc "RuntimeError"));
                  EvFetch (strategy demo_C 5 "C" false) (Ret (PyBool true))] |},
     Ret true).
Proof. vm_compute. reflexivity. Qed.

Ltac no_such_event Hin :=
  repeat (apply elem_of_cons in Hin as [Hin|Hin]; [discriminate|]);
  by apply not_elem_of_nil in Hin.

Ltac each_fetch H pre :=
  repeat (destruct pre as [|? pre]; simpl in H;
          [first [discriminate H | injection H as <- <- <-]
          |first [discriminate H | injection H as _ H]]).

Lemma demo_success_at : success_at sC "p.pdf" true (PyBool true) demo_post.
Proof.
  split; [reflexivity|]. split; [discriminate|].
  intros t m m' e Hin. unfold demo_post in Hin. no_such_event Hin.
Qed.

Lemma first_success_ends_scrape_witness :
  scrape (demo_check_pdf true) (demo_registry (Some quiet_reporter))
    demo_paper "p.pdf" 0 true 0%nat = (demo_final, Ret true) /\
  trace demo_final = demo_pre ++ EvFetch sC (Ret (PyBool true)) :: demo_post /\
  success_at sC "p.pdf" true (PyBool true) demo_post /\
  scrape_result demo_final !! "C" = Some success /\
  fetched demo_post = [] /\
  reported demo_post = [("A paper", scrape_result demo_final)].
Proof.
  assert (Hrun : scrape (demo_check_pdf true) (demo_registry (Some quiet_reporter))
                   demo_paper "p.pdf" 0 true 0%nat = (demo_final, Ret true))
    by (vm_compute; reflexivity).
  split; [exact Hrun|]. split; [reflexivity|]. split; [exact demo_success_at|].
  destruct (first_success_ends_scrape (demo_check_pdf true)
              (demo_registry (Some quiet_reporter)) demo_paper "p.pdf" 0 true 0%nat
              demo_final (Ret true) demo_pre sC (PyBool true) demo_post
              Hrun eq_refl demo_success_at) as (_ & m & Hm & _ & Hf & Hr & Hend).
  rewrite (Hend ltac:(by repeat constructor)).
  split; [exact Hm|]. split; [exact Hf|exact Hr].
Defined.

(** [C1] as stated fails when the reporter raises: the fetch of the only
    strategy returns [True] and asks for no validation, yet the reporter
    raising on the success path makes the strategy end marked failed,
    the reporter is invoked a second time at the end of the tier, and
    [scrape] returns [False]. *)
Lemma first_success_counterexample :
  truthy (PyBool true) = true /\
  check_pdf sC = false /\
  scrape (demo_check_pdf true)
    (register_all demo_session (Scraper_init (Some flaky_reporter))
       [demo_call demo_C 5 false])
    demo_paper "p.pdf" 0 false 0%nat
  = ({| world := 2%nat;
        scrape_result := {[ "C" := failed ]};
        trace := [EvFetch sC (Ret (PyBool true));
                  report_of {[ "C" := success ]} (Raise (Exc "RuntimeError"));
                  report_of {[ "C" := failed ]} (Ret tt)] |},
     Ret false).
Proof. split; [reflexivity|]. split; [reflexivity|]. vm_compute. reflexivity. Qed.

Lemma scrape_follows_rotated_plan_witness :
  scrape (demo_check_pdf true) (demo_registry (Some quiet_reporter))
    demo_paper "p.pdf" 1 false 0%nat = (demo_rotated, Ret true) /\
  visit_order (demo_registry (Some quiet_reporter)) 1 = [sB; sA; sC] /\
  fetched (trace demo_rotated)
    `prefix_of` visit_order (demo_registry (Some quiet_reporter)) 1.
Proof.
  assert (Hrun : scrape (demo_check_pdf true) (demo_registry (Some quiet_reporter))
                   demo_paper "p.pdf" 1 false 0%nat = (demo_rotated, Ret true))
    by (vm_compute; reflexivity).
  split; [exact Hrun|]. split; [vm_compute; reflexivity|].
  exact (proj1 (proj2 (proj2
    (scrape_follows_rotated_plan demo_session (demo_check_pdf true)
       (Some quiet_reporter)
       [demo_call demo_C 5 false; demo_call demo_A 10 false; demo_call demo_B 10 false]
       demo_paper "p.pdf" 1 false 0%nat demo_rotated (Ret true) Hrun)))).
Defined.




Lemma demo_exhausted_all_fail : all_fail "p.pdf" false (trace demo_exhausted).
Proof.
  intros pre s r post H. unfold demo_exhausted in H. simpl in H.
  each_fetch H pre; simpl; auto.
  right. split; [reflexivity|]. by eexists.
Qed.

Lemma demo_exhausted_reports_return : reports_return (trace demo_exhausted).
Proof. intros t m m' e Hin. unfold demo_exhausted in Hin. simpl in Hin. no_such_event Hin. Qed.

Lemma exhaustion_marks_all_failed_witness :
  scrape (demo_check_pdf false)
    (register_all demo_session (Scraper_init (Some quiet_reporter)) failing_calls)
    demo_paper "p.pdf" 0 false 0%nat = (demo_exhausted, Ret false) /\
  all_fail "p.pdf" false (trace demo_exhausted) /\
  reports_return (trace demo_exhausted) /\
  Forall reads_only (trace demo_exhausted) /\
  fetched (trace demo_exhausted) = [sA; sB; sD] /\
  (forall s,
     s ∈ scrapers (register_all demo_session (Scraper_init (Some quiet_reporter))
                     failing_calls) ->
     scrape_result demo_exhausted !! name s = Some failed).
Proof.
  assert (Hrun : scrape (demo_check_pdf false)
                   (register_all demo_session (Scraper_init (Some quiet_reporter))
                      failing_calls)
                   demo_paper "p.pdf" 0 false 0%nat = (demo_exhausted, Ret false))
    by (vm_compute; reflexivity).
  assert (Hro : Forall reads_only (trace demo_exhausted))
    by (by repeat constructor).
  split; [exact Hrun|]. split; [exact demo_exhausted_all_fail|].
  split; [exact demo_exhausted_reports_return|]. split; [exact Hro|].
  destruct (exhaustion_marks_all_failed demo_session (demo_check_pdf false)
              (Some quiet_reporter) failing_calls demo_paper "p.pdf" 0 false 0%nat
              demo_exhausted (Ret false) Hrun
              demo_exhausted_all_fail demo_exhausted_reports_return)
    as (_ & Hf & _ & Hm).
  split; [reflexivity|exact (Hm Hro)].
Defined.

(** [C5] as stated fails in three ways.  When the reporter raises: the
    only strategy, A, returns [False], yet [scrape] does not return
    [False]; the exception of the reporter, awaited at the end of the
    tier, leaves it.  When a strategy raises an exception that does not
    derive from [Exception]: K is cancelled and A returns [False], yet
    [scrape] raises, with no strategy marked failed.  And when the
    reporter writes to the map: A returns [False] and [scrape] returns
    [False], yet at that point A is not marked failed in the map. *)
Lemma exhaustion_counterexample :
  scrape (demo_check_pdf true)
    (register_all demo_session (Scraper_init (Some raising_reporter))
       [demo_call demo_A 10 false])
    demo_paper "p.pdf" 0 false 0%nat
  = ({| world := 1%nat;
        scrape_result := {[ "A" := failed ]};
        trace := [EvFetch sA (Ret (PyBool false));
                  report_of {[ "A" := failed ]} (Raise (Exc "RuntimeError"))] |},
     Raise (Exc "RuntimeError")) /\
  (scrape (demo_check_pdf true)
     (register_all demo_session (Scraper_init None) cancelled_calls)
     demo_paper "p.pdf" 0 false 0%nat
   = (demo_cancelled, Raise (BaseExc "CancelledError")) /\
   fn_call (function (strategy demo_A 5 "A" false)) demo_paper "p.pdf" [] 1%nat
   = (2%nat, Ret (PyBool false))) /\
  (scrape (demo_check_pdf true)
     (register_all demo_session (Scraper_init (Some writing_reporter))
        [demo_call demo_A 10 false])
     demo_paper "p.pdf" 0 false 0%nat
   = (demo_rewritten, Ret false) /\
   scrape_result demo_rewritten !! "A" = Some (other "reported")).
Proof. repeat split; vm_compute; reflexivity. Qed.

Lemma rotation_congruence_witness :
  [sA; sB; sC] <> [] /\
  tier_loop (demo_check_pdf true) (demo_registry None) [sA; sB; sC]
    demo_paper "p.pdf" 4 false (seq 0 3) demo_start = (demo_tier_1, Return true) /\
  tier_loop (demo_check_pdf true) (demo_registry None) [sA; sB; sC]
    demo_paper "p.pdf" 1 false (seq 0 3) demo_start = (demo_tier_1, Return true) /\
  tier_loop (demo_check_pdf true) (demo_registry None) [sA; sB; sC]
    demo_paper "p.pdf" 2 false (seq 0 3) demo_start = (demo_tier_2, Return true) /\
  (exists order,
     fetched (trace demo_tier_1) `prefix_of` order /\
     fetched (trace demo_tier_1) `prefix_of` order) /\
  head (fetched (trace demo_tier_2)) = Some sC /\
  head (fetched (trace demo_tier_1)) = Some sB.
Proof.
  assert (H4 : tier_loop (demo_check_pdf true) (demo_registry None) [sA; sB; sC]
                 demo_paper "p.pdf" 4 false (seq 0 3) demo_start
               = (demo_tier_1, Return true)) by (vm_compute; reflexivity).
  assert (H1 : tier_loop (demo_check_pdf true) (demo_registry None) [sA; sB; sC]
                 demo_paper "p.pdf" 1 false (seq 0 3) demo_start
               = (demo_tier_1, Return true)) by (vm_compute; reflexivity).
  assert (H2 : tier_loop (demo_check_pdf true) (demo_registry None) [sA; sB; sC]
                 demo_paper "p.pdf" 2 false (seq 0 3) demo_start
               = (demo_tier_2, Return true)) by (vm_compute; reflexivity).
  split; [discriminate|]. split; [exact H4|]. split; [exact H1|].
  split; [exact H2|].
  destruct (rotation_congruence (demo_check_pdf true) [sA; sB; sC] 4 1
              _ _ _ _ _ _ _ _ _ _ _ _ _ _ ltac:(discriminate) H4 H1)
    as (v4 & v1 & Hf4 & Hf1 & Hsame & _).
  destruct (rotation_congruence (demo_check_pdf true) [sA; sB; sC] 2 1
              _ _ _ _ _ _ _ _ _ _ _ _ _ _ ltac:(discriminate) H2 H1)
    as (v2 & v1' & Hf2 & Hf1' & _ & Hdiff).
  simpl in Hf4, Hf1, Hf2, Hf1'. subst v4 v1 v2 v1'.
  split.
  - destruct Hsame as [(order & Hp4 & Hp1 & _) _]; [reflexivity|].
    exists order. split; [exact Hp4|exact Hp1].
  - destruct Hdiff as (Hh2 & Hh1 & _); [discriminate|].
    split; [exact Hh2|exact Hh1].
Defined.

Lemma batch_scrape_windows_witness :
  0 < 2 /\
  gather_returns_all (W := nat) gather_seq /\
  batch_scrape (demo_check_pdf true) gather_seq (demo_registry None) demo_papers
    "dir" None 2 (Some 3) false 0%nat
  = (demo_batch, Ret (aggregated demo_batch)) /\
  exists k : nat,
    mjoin (launched demo_batch) = take (k * Z.to_nat 2) (enumerate demo_papers) /\
    (size (aggregated demo_batch) <= length (mjoin (launched demo_batch)))%nat /\
    ((k * Z.to_nat 2 < length demo_papers)%nat ->
     limit_reached (Some 3) (aggregated demo_batch) = true).
Proof.
  assert (Hrun : batch_scrape (demo_check_pdf true) gather_seq (demo_registry None)
                   demo_papers "dir" None 2 (Some 3) false 0%nat
                 = (demo_batch, Ret (aggregated demo_batch)))
    by (vm_compute; reflexivity).
  split; [lia|]. split; [exact gather_seq_returns_all|]. split; [exact Hrun|].
  destruct (batch_scrape_windows (demo_check_pdf true) gather_seq (demo_registry None)
              demo_papers "dir" None 2 (Some 3) false 0%nat demo_batch
              (Ret (aggregated demo_batch))
              ltac:(lia) gather_seq_returns_all Hrun)
    as ((k & _ & Hjoin & Hres) & _).
  exists k. split; [exact Hjoin|].
  destruct (Hres _ eq_refl) as (_ & Hsize & Hstop). split; [exact Hsize|exact Hstop].
Defined.



Lemma scrape_empty_registry_witness :
  scrapers (register_all demo_session (Scraper_init (Some raising_reporter))
              [nameless_call]) = [] /\
  scrape (demo_check_pdf true)
    (register_all demo_session (Scraper_init (Some raising_reporter)) [nameless_call])
    demo_paper "p.pdf" 7 true 0%nat
  = ({| world := 0%nat; scrape_result := ∅; trace := [] |}, Ret false).
Proof.
  split; [reflexivity|].
  apply (scrape_empty_registry demo_session (demo_check_pdf true)
           (Some raising_reporter) [nameless_call] demo_paper "p.pdf" 7 true 0%nat).
  reflexivity.
Defined.

(** ** Runs for the further properties *)

Lemma register_scraper_position_witness :
  effective_name (demo_call demo_A 10 false) = Some "A" /\
  exists self',
    call_register demo_session
      (register_all demo_session (Scraper_init None)
         [demo_call demo_C 5 false; demo_call demo_B 10 false])
      (demo_call demo_A 10 false) = Ret self' /\
    scrapers self' = [sB; sA; sC].
Proof.
  split; [reflexivity|].
  destruct (register_scraper_position demo_session (W := nat) None
              [demo_call demo_C 5 false; demo_call demo_B 10 false]
              (demo_call demo_A 10 false) "A" eq_refl) as (self' & Hcall & Hs).
  exists self'. split; [exact Hcall|]. rewrite Hs. vm_compute. reflexivity.
Defined.

Lemma scrape_fetches_each_strategy_once_witness :
  scrape (demo_check_pdf true) (demo_registry (Some quiet_reporter))
    demo_paper "p.pdf" 1 false 0%nat = (demo_rotated, Ret true) /\
  fetched (trace demo_rotated) = [sB; sA; sC] /\
  fetched (trace demo_rotated) ⊆+ scrapers (demo_registry (Some quiet_reporter)) /\
  (length (fetched (trace demo_rotated))
   <= length (scrapers (demo_registry (Some quiet_reporter))))%nat.
Proof.
  assert (Hrun : scrape (demo_check_pdf true) (demo_registry (Some quiet_reporter))
                   demo_paper "p.pdf" 1 false 0%nat = (demo_rotated, Ret true))
    by (vm_compute; reflexivity).
  split; [exact Hrun|]. split; [reflexivity|].
  exact (scrape_fetches_each_strategy_once demo_session (demo_check_pdf true)
           (Some quiet_reporter)
           [demo_call demo_C 5 false; demo_call demo_A 10 false; demo_call demo_B 10 false]
           demo_paper "p.pdf" 1 false 0%nat demo_rotated (Ret true) Hrun).
Defined.

Lemma scrape_false_means_all_failed_witness :
  scrape (demo_check_pdf false)
    (register_all demo_session (Scraper_init (Some quiet_reporter)) failing_calls)
    demo_paper "p.pdf" 0 false 0%nat = (demo_exhausted, Ret false) /\
  Forall reads_only (trace demo_exhausted) /\
  fetched (trace demo_exhausted) = [sA; sB; sD] /\
  scrape_result demo_exhausted !! "D" = Some failed /\
  scrape_result demo_exhausted !! "C" = None.
Proof.
  assert (Hro : Forall reads_only (trace demo_exhausted))
    by (by repeat constructor).
  assert (Hrun : scrape (demo_check_pdf false)
                   (register_all demo_session (Scraper_init (Some quiet_reporter))
                      failing_calls)
                   demo_paper "p.pdf" 0 false 0%nat = (demo_exhausted, Ret false))
    by (vm_compute; reflexivity).
  split; [exact Hrun|].
  destruct (scrape_false_means_all_failed demo_session (demo_check_pdf false)
              (Some quiet_reporter) failing_calls demo_paper "p.pdf" 0 false 0%nat
              demo_exhausted Hrun) as [Hf Hm].
  split; [exact Hro|].
  split; [rewrite Hf; vm_compute; reflexivity|].
  split; [rewrite (Hm Hro "D")|rewrite (Hm Hro "C")]; vm_compute; reflexivity.
Defined.

Lemma scrape_true_means_success_witness :
  scrape (demo_check_pdf true) (demo_registry (Some quiet_reporter))
    demo_paper "p.pdf" 0 true 0%nat = (demo_final, Ret true) /\
  exists pre s (v : pyval) post (m : gmap string status),
    trace demo_final = pre ++ EvFetch s (Ret v) :: post /\
    truthy v = true /\
    last (fetched (trace demo_final)) = Some s /\
    m !! name s = Some success /\
    (Forall reads_only post -> scrape_result demo_final = m).
Proof.
  assert (Hrun : scrape (demo_check_pdf true) (demo_registry (Some quiet_reporter))
                   demo_paper "p.pdf" 0 true 0%nat = (demo_final, Ret true))
    by (vm_compute; reflexivity).
  split; [exact Hrun|].
  destruct (scrape_true_means_success (demo_check_pdf true)
              (demo_registry (Some quiet_reporter)) demo_paper "p.pdf" 0 true 0%nat
              demo_final Hrun)
    as (pre & s & v & post & m & Ht & Hv & _ & Hl & Hm & Hend & _).
  exists pre, s, v, post, m. repeat split; assumption.
Defined.

Lemma outcome_map_keys_are_registered_names_witness :
  scrape (demo_check_pdf true) (demo_registry (Some quiet_reporter))
    demo_paper "p.pdf" 0 true 0%nat = (demo_final, Ret true) /\
  Forall reads_only (trace demo_final) /\
  dom (scrape_result demo_final) = names_of (demo_registry (Some quiet_reporter)) /\
  forall (t : string) (m : gmap string status),
    (t, m) ∈ reported (trace demo_final) ->
    t = "A paper" /\ dom m = names_of (demo_registry (Some quiet_reporter)).
Proof.
  assert (Hrun : scrape (demo_check_pdf true) (demo_registry (Some quiet_reporter))
                   demo_paper "p.pdf" 0 true 0%nat = (demo_final, Ret true))
    by (vm_compute; reflexivity).
  assert (Hro : Forall reads_only (trace demo_final))
    by (by repeat constructor).
  split; [exact Hrun|]. split; [exact Hro|].
  destruct (outcome_map_keys_are_registered_names demo_session (demo_check_pdf true)
              (Some quiet_reporter)
              [demo_call demo_C 5 false; demo_call demo_A 10 false;
               demo_call demo_B 10 false]
              demo_paper "p.pdf" 0 true 0%nat demo_final (Ret true) Hrun)
    as [Ht Hk].
  destruct (Hk Hro) as [Hdom Hmaps].
  split; [exact Hdom|]. intros t m Hin. split; [by eapply Ht|by eapply Hmaps].
Defined.

Lemma scrape_reports_and_logs_only_when_asked_witness :
  scrape (demo_check_pdf true) (demo_registry None) demo_paper "p.pdf" 0 false 0%nat
  = ({| world := 3%nat;
        scrape_result := {[ "A" := failed; "B" := failed; "C" := success ]};
        trace := [EvFetch sA (Ret (PyBool false));
                  EvFetch sB (Raise (Exc "RuntimeError"));
                  EvFetch sC (Ret (PyBool true))] |},
     Ret true) /\
  reported [EvFetch sA (Ret (PyBool false));
            EvFetch sB (Raise (Exc "RuntimeError"));
            EvFetch sC (Ret (PyBool true))] = [] /\
  Forall (fun ev => ~ is_log ev)
    [EvFetch sA (Ret (PyBool false));
     EvFetch sB (Raise (Exc "RuntimeError"));
     EvFetch sC (Ret (PyBool true))].
Proof.
  assert (Hrun : scrape (demo_check_pdf true) (demo_registry None) demo_paper
                   "p.pdf" 0 false 0%nat
                 = ({| world := 3%nat;
                       scrape_result := {[ "A" := failed; "B" := failed; "C" := success ]};
                       trace := [EvFetch sA (Ret (PyBool false));
                                 EvFetch sB (Raise (Exc "RuntimeError"));
                                 EvFetch sC (Ret (PyBool true))] |},
                    Ret true))
    by (vm_compute; reflexivity).
  split; [exact Hrun|].
  destruct (scrape_reports_and_logs_only_when_asked (demo_check_pdf true)
              (demo_registry None) demo_paper "p.pdf" 0 false 0%nat _ _ Hrun)
    as [Hrep Hlog].
  split; [exact (Hrep eq_refl)|exact (Hlog eq_refl)].
Defined.

Lemma validator_called_only_after_truthy_fetch_witness :
  scrape (demo_check_pdf false)
    (register_all demo_session (Scraper_init (Some quiet_reporter)) failing_calls)
    demo_paper "p.pdf" 0 false 0%nat = (demo_exhausted, Ret false) /\
  trace demo_exhausted
  = demo_exhausted_pre
    ++ EvCheckPdf "p.pdf" false (Ret (PyBool false)) :: demo_exhausted_post /\
  exists pre' s (v : pyval),
    demo_exhausted_pre = pre' ++ [EvFetch s (Ret v)] /\
    truthy v = true /\ check_pdf s = true.
Proof.
  assert (Hrun : scrape (demo_check_pdf false)
                   (register_all demo_session (Scraper_init (Some quiet_reporter))
                      failing_calls)
                   demo_paper "p.pdf" 0 false 0%nat = (demo_exhausted, Ret false))
    by (vm_compute; reflexivity).
  split; [exact Hrun|]. split; [reflexivity|].
  exact (proj2 (proj2
    (validator_called_only_after_truthy_fetch (demo_check_pdf false)
       (register_all demo_session (Scraper_init (Some quiet_reporter)) failing_calls)
       demo_paper "p.pdf" 0 false 0%nat demo_exhausted (Ret false)
       demo_exhausted_pre "p.pdf" false (Ret (PyBool false)) demo_exhausted_post
       Hrun eq_refl))).
Defined.

Lemma outcome_map_tells_what_was_fetched_witness :
  scrape (demo_check_pdf true)
    (register_all demo_session (Scraper_init (Some quiet_reporter)) early_calls)
    demo_paper "p.pdf" 0 false 0%nat = (demo_early, Ret true) /\
  Forall reads_only (trace demo_early) /\
  ("A" ∉ name <$> fetched (trace demo_early)) /\
  scrape_result demo_early !! "A" = Some none /\
  ("C" ∈ name <$> fetched (trace demo_early)) /\
  (scrape_result demo_early !! "C" = Some failed \/
   scrape_result demo_early !! "C" = Some success).
Proof.
  assert (Hrun : scrape (demo_check_pdf true)
                   (register_all demo_session (Scraper_init (Some quiet_reporter))
                      early_calls)
                   demo_paper "p.pdf" 0 false 0%nat = (demo_early, Ret true))
    by (vm_compute; reflexivity).
  assert (HA : "A" ∉ name <$> fetched (trace demo_early)).
  { intros Hin. vm_compute in Hin.
    apply elem_of_cons in Hin as [Hin|Hin]; [discriminate|].
    by apply not_elem_of_nil in Hin. }
  assert (HC : "C" ∈ name <$> fetched (trace demo_early))
    by apply list_elem_of_here.
  assert (Hro : Forall reads_only (trace demo_early))
    by (by repeat constructor).
  split; [exact Hrun|]. split; [exact Hro|]. split; [exact HA|].
  split.
  - rewrite (proj1 (outcome_map_tells_what_was_fetched (demo_check_pdf true) _
                      demo_paper "p.pdf" 0 false 0%nat demo_early (Ret true) "A"
                      Hrun Hro) HA).
    vm_compute. reflexivity.
  - split; [exact HC|].
    apply (proj2 (outcome_map_tells_what_was_fetched (demo_check_pdf true) _
                    demo_paper "p.pdf" 0 false 0%nat demo_early (Ret true) "C"
                    Hrun Hro) HC).
    by exists true.
Defined.


Lemma batch_scrape_nonpositive_batch_size_witness :
  0 <= 0 /\ -2 <= 0 /\
  batch_scrape (demo_check_pdf true) gather_seq (demo_registry None) demo_papers
    "dir" None 0 (Some 3) false 0%nat
  = ({| bworld := 0%nat; aggregated := ∅; launched := [] |}, Raise ValueError) /\
  batch_scrape (demo_check_pdf true) gather_seq (demo_registry None) demo_papers
    "dir" None (-2) (Some 3) false 0%nat
  = ({| bworld := 0%nat; aggregated := ∅; launched := [] |}, Ret ∅).
Proof.
  split; [lia|]. split; [lia|]. split.
  - apply (batch_scrape_nonpositive_batch_size (demo_check_pdf true) gather_seq
             (demo_registry None) demo_papers "dir" None 0 (Some 3) false 0%nat).
    lia.
  - apply (batch_scrape_nonpositive_batch_size (demo_check_pdf true) gather_seq
             (demo_registry None) demo_papers "dir" None (-2) (Some 3) false 0%nat).
    lia.
Defined.

Lemma batch_scrape_raises_only_from_gather_witness :
  batch_scrape (demo_check_pdf true) gather_seq
    (register_all demo_session (Scraper_init (Some raising_reporter))
       [demo_call demo_A 10 false])
    demo_papers "dir" None 2 (Some 3) false 0%nat
  = (demo_batch_raised, Raise (Exc "RuntimeError")) /\
  exists tasks (w0 : nat),
    gather_seq tasks w0
    = (bworld demo_batch_raised, Raise (Exc "RuntimeError")).
Proof.
  assert (Hrun : batch_scrape (demo_check_pdf true) gather_seq
                   (register_all demo_session (Scraper_init (Some raising_reporter))
                      [demo_call demo_A 10 false])
                   demo_papers "dir" None 2 (Some 3) false 0%nat
                 = (demo_batch_raised, Raise (Exc "RuntimeError")))
    by (vm_compute; reflexivity).
  split; [exact Hrun|].
  destruct (batch_scrape_raises_only_from_gather (demo_check_pdf true) gather_seq _
              demo_papers "dir" None 2 (Some 3) false 0%nat demo_batch_raised
              (Exc "RuntimeError") Hrun) as [(H0 & _)|(_ & Hg)];
    [discriminate H0|exact Hg].
Defined.

Lemma batch_scrape_overshoots_by_less_than_a_window_witness :
  0 < 2 /\ 0 < 3 /\
  gather_returns_all (W := nat) gather_seq /\
  batch_scrape (demo_check_pdf true) gather_seq (demo_registry None) demo_papers
    "dir" None 2 (Some 3) false 0%nat
  = (demo_batch, Ret (aggregated demo_batch)) /\
  Z.of_nat (size (aggregated demo_batch)) < 3 + 2.
Proof.
  assert (Hrun : batch_scrape (demo_check_pdf true) gather_seq (demo_registry None)
                   demo_papers "dir" None 2 (Some 3) false 0%nat
                 = (demo_batch, Ret (aggregated demo_batch)))
    by (vm_compute; reflexivity).
  split; [lia|]. split; [lia|]. split; [exact gather_seq_returns_all|].
  split; [exact Hrun|].
  exact (batch_scrape_overshoots_by_less_than_a_window (demo_check_pdf true)
           gather_seq (demo_registry None) demo_papers "dir" None 2 3 false 0%nat
           demo_batch (aggregated demo_batch)
           ltac:(lia) ltac:(lia) gather_seq_returns_all Hrun).
Defined.

Lemma batch_scrape_limit_zero_runs_one_window_witness :
  0 < 2 /\ 0 <= 0 /\ demo_papers <> [] /\
  batch_scrape (demo_check_pdf true) gather_seq (demo_registry None) demo_papers
    "dir" None 2 (Some 0) false 0%nat
  = (demo_batch_one, Ret (aggregated demo_batch_one)) /\
  launched demo_batch_one = [window demo_papers 2 0].
Proof.
  assert (Hrun : batch_scrape (demo_check_pdf true) gather_seq (demo_registry None)
                   demo_papers "dir" None 2 (Some 0) false 0%nat
                 = (demo_batch_one, Ret (aggregated demo_batch_one)))
    by (vm_compute; reflexivity).
  split; [lia|]. split; [lia|]. split; [discriminate|]. split; [exact Hrun|].
  exact (proj1
    (batch_scrape_limit_zero_runs_one_window (demo_check_pdf true) gather_seq
       (demo_registry None) demo_papers "dir" None 2 0 false 0%nat demo_batch_one
       (aggregated demo_batch_one) ltac:(lia) ltac:(lia) ltac:(discriminate) Hrun)).
Defined.

Lemma batch_scrape_below_limit_launches_all_witness :
  0 < 2 /\
  batch_scrape (demo_check_pdf true) gather_seq (demo_registry None) demo_papers
    "dir" None 2 None false 0%nat
  = (demo_batch_all, Ret (aggregated demo_batch_all)) /\
  limit_reached None (aggregated demo_batch_all) = false /\
  mjoin (launched demo_batch_all) = enumerate demo_papers.
Proof.
  assert (Hrun : batch_scrape (demo_check_pdf true) gather_seq (demo_registry None)
                   demo_papers "dir" None 2 None false 0%nat
                 = (demo_batch_all, Ret (aggregated demo_batch_all)))
    by (vm_compute; reflexivity).
  split; [lia|]. split; [exact Hrun|]. split; [reflexivity|].
  exact (batch_scrape_below_limit_launches_all (demo_check_pdf true) gather_seq
           (demo_registry None) demo_papers "dir" None 2 None false 0%nat
           demo_batch_all (aggregated demo_batch_all) ltac:(lia) Hrun eq_refl).
Defined.

Lemma batch_scrape_entries_come_from_successes_witness :
  gather_runs_tasks (W := nat) gather_seq /\
  batch_scrape (demo_check_pdf true) gather_seq (demo_registry None) demo_papers
    "dir" None 2 (Some 3) false 0%nat
  = (demo_batch, Ret (aggregated demo_batch)) /\
  aggregated demo_batch !! "dir/c.pdf" = Some {| paperId := "c"; title := "c" |} /\
  exists pk,
    pk ∈ mjoin (launched demo_batch) /\
    scraped_from (demo_check_pdf true) (demo_registry None) "dir" None false pk
      "dir/c.pdf" {| paperId := "c"; title := "c" |} /\
    pk.1 = {| paperId := "c"; title := "c" |}.
Proof.
  assert (Hrun : batch_scrape (demo_check_pdf true) gather_seq (demo_registry None)
                   demo_papers "dir" None 2 (Some 3) false 0%nat
                 = (demo_batch, Ret (aggregated demo_batch)))
    by (vm_compute; reflexivity).
  assert (Hk : aggregated demo_batch !! "dir/c.pdf"
               = Some {| paperId := "c"; title := "c" |})
    by (vm_compute; reflexivity).
  split; [exact gather_seq_runs_tasks|]. split; [exact Hrun|]. split; [exact Hk|].
  destruct (batch_scrape_entries_come_from_successes (demo_check_pdf true) gather_seq
              (demo_registry None) demo_papers "dir" None 2 (Some 3) false 0%nat
              demo_batch (aggregated demo_batch) "dir/c.pdf"
              {| paperId := "c"; title := "c" |}
              gather_seq_runs_tasks Hrun Hk) as (pk & Hin & Hfrom & Hv).
  exists pk. split; [exact Hin|]. split; [exact Hfrom|].
  symmetry. exact (Hv eq_refl).
Defined.

Lemma close_releases_every_session_witness :
  close quiet_close (register_all rated_session (Scraper_init None) rated_calls) 0%nat
  = (3%nat, [Some (1 # 2)%Q; None; Some (15 # 60)%Q], Ret tt) /\
  [Some (1 # 2)%Q; None; Some (15 # 60)%Q]
  = attached_sessions (register_all rated_session (Scraper_init None) rated_calls) /\
  [Some (1 # 2)%Q; None; Some (15 # 60)%Q]
    ≡ₚ omap (call_session rated_session) rated_calls.
Proof.
  assert (Hrun : close quiet_close
                   (register_all rated_session (Scraper_init None) rated_calls) 0%nat
                 = (3%nat, [Some (1 # 2)%Q; None; Some (15 # 60)%Q], Ret tt))
    by (vm_compute; reflexivity).
  split; [exact Hrun|].
  destruct (close_releases_every_session rated_session quiet_close None rated_calls
              0%nat 3%nat [Some (1 # 2)%Q; None; Some (15 # 60)%Q] tt Hrun)
    as (Ha & Hp & _).
  split; [exact Ha|exact Hp].
Defined.

Lemma close_stops_at_first_exception_witness :
  close unthrottled_close_raises
    (register_all rated_session (Scraper_init None) rated_calls) 0%nat
  = (2%nat, [Some (1 # 2)%Q; None], Raise (Exc "RuntimeError")) /\
  attached_sessions (register_all rated_session (Scraper_init None) rated_calls)
  = [Some (1 # 2)%Q; None; Some (15 # 60)%Q] /\
  [Some (1 # 2)%Q; None]
    `prefix_of` attached_sessions
                  (register_all rated_session (Scraper_init None) rated_calls).
Proof.
  assert (Hrun : close unthrottled_close_raises
                   (register_all rated_session (Scraper_init None) rated_calls) 0%nat
                 = (2%nat, [Some (1 # 2)%Q; None], Raise (Exc "RuntimeError")))
    by (vm_compute; reflexivity).
  split; [exact Hrun|]. split; [vm_compute; reflexivity|].
  exact (proj1
    (close_stops_at_first_exception unthrottled_close_raises _ 0%nat 2%nat
       [Some (1 # 2)%Q; None] (Exc "RuntimeError") Hrun)).
Defined.
